(** * Feed-forward classifiers of the intro-to-pytorch notebooks

    A shallow embedding of the code cells of
    "Part 3 - Training Neural Networks (Exercises)" and
    "Part 5 - Inference and Validation (Exercises)".

    Numbers are real numbers ([R]): NaN and infinities are not represented,
    and float rounding is represented in one place, the exponential taken
    before [topk] ([exp_f32]), where it decides which class is reported.
    A tensor is a shape together with its elements in row-major
    order, as a contiguous torch tensor stores them.  The torch operations
    the notebooks call ([view], [reshape], [nn.Linear], [F.relu],
    [F.log_softmax], [nn.Dropout], [nn.NLLLoss], [topk], [torch.no_grad]) are
    described by functions of the same name; what the notebooks themselves
    define ([Classifier], [Classifier_with_Drop_out], [sigmoid], the training
    and validation loops) is transcribed cell by cell. *)

From Stdlib Require Import Reals List Arith Bool Lia Lra.
Import ListNotations.

(** ** Exceptions and the two monads of the embedding *)

Inductive Exc : Type :=
| RuntimeError      (* shape and size mismatches, backward without a graph *)
| IndexError        (* dimension or class index out of range *)
| ValueError        (* batch sizes of input and target disagree *)
| ZeroDivisionError
| NotModelled.      (* a tensor rank the embedding does not describe *)

Inductive result (A : Type) : Type :=
| Ok (a : A)
| Raise (e : Exc).
Arguments Ok {A} a.
Arguments Raise {A} e.

Definition rbind {A B} (r : result A) (f : A -> result B) : result B :=
  match r with
  | Ok a => f a
  | Raise e => Raise e
  end.

Definition rmap {A B} (f : A -> B) (r : result A) : result B :=
  rbind r (fun a => Ok (f a)).

(** Stateful code: the state survives an exception, as the attributes of a
    Python object do when a statement raises. *)
Definition M (S A : Type) : Type := S -> result A * S.

Definition ret {S A} (a : A) : M S A := fun s => (Ok a, s).

Definition bind {S A B} (m : M S A) (f : A -> M S B) : M S B :=
  fun s => match m s with
           | (Ok a, s') => f a s'
           | (Raise e, s') => (Raise e, s')
           end.

Definition lift {S A} (r : result A) : M S A := fun s => (r, s).

Declare Scope torch_scope.
Delimit Scope torch_scope with torch.
Notation "x <-? r ;; k" := (rbind r (fun x => k))
  (at level 61, r at next level, right associativity) : torch_scope.
Notation "x <- m ;; k" := (bind m (fun x => k))
  (at level 61, m at next level, right associativity) : torch_scope.
Notation "m ;;; k" := (bind m (fun _ => k))
  (at level 61, right associativity) : torch_scope.
Open Scope torch_scope.

(** [for x in l: acc = body x acc] *)
Fixpoint for_each {S A B} (body : B -> A -> M S A) (l : list B) (acc : A) : M S A :=
  match l with
  | [] => ret acc
  | x :: rest => acc' <- body x acc ;; for_each body rest acc'
  end.

(** ** Vectors and matrices as lists *)

Definition sum_list (l : list R) : R := fold_right Rplus 0%R l.

Definition max_list (l : list R) : R :=
  match l with
  | [] => 0%R
  | x :: rest => fold_left Rmax rest x
  end.

Definition dot (x w : list R) : R :=
  sum_list (map (fun p => (fst p * snd p)%R) (combine x w)).

Definition vadd (a b : list R) : list R :=
  map (fun p => (fst p + snd p)%R) (combine a b).

(** [chunks k n d]: the [n] consecutive rows of width [k] of the storage [d]. *)
Fixpoint chunks (k n : nat) (d : list R) : list (list R) :=
  match n with
  | O => []
  | S n' => firstn k d :: chunks k n' (skipn k d)
  end.

Definition columns (ncols : nat) (m : list (list R)) : list (list R) :=
  map (fun j => map (fun row => nth j row 0%R) m) (seq 0 ncols).

Definition transpose (m : list (list R)) : list (list R) :=
  columns (length (hd [] m)) m.

(** [a @ b] for two matrices given by their rows. *)
Definition matmul_rows (a b : list (list R)) : list (list R) :=
  map (fun row => map (dot row) (transpose b)) a.

(** Index of the first largest element. *)
Fixpoint argmax_from (best_i : nat) (best : R) (i : nat) (l : list R) : nat :=
  match l with
  | [] => best_i
  | x :: rest =>
      if Rlt_dec best x then argmax_from i x (S i) rest
      else argmax_from best_i best (S i) rest
  end.

Definition argmax (l : list R) : nat :=
  match l with
  | [] => O
  | x :: rest => argmax_from 0 x 1 rest
  end.

(** ** Tensors *)

Record Tensor : Type := mkTensor { shape : list nat; data : list R }.

Definition numel_of (s : list nat) : nat := fold_right Nat.mul 1 s.
Definition numel (t : Tensor) : nat := numel_of (shape t).

(** The storage holds exactly the elements the shape announces. *)
Definition wf_tensor (t : Tensor) : Prop := length (data t) = numel t.

Definition tmap (f : R -> R) (t : Tensor) : Tensor :=
  mkTensor (shape t) (map f (data t)).

Definition of_rows (n c : nat) (rows : list (list R)) : Tensor :=
  mkTensor [n; c] (concat rows).

(** [t.shape[0]] *)
Definition shape0 (t : Tensor) : result nat :=
  match shape t with
  | [] => Raise IndexError
  | n :: _ => Ok n
  end.

(** [t.view(d0, -1)]: the second size is inferred from the element count. *)
Definition view_infer (t : Tensor) (d0 : nat) : result Tensor :=
  if d0 =? 0 then Raise RuntimeError
  else if numel t mod d0 =? 0 then Ok (mkTensor [d0; numel t / d0] (data t))
  else Raise RuntimeError.

(** [t.reshape] and [t.view] with every size given explicitly. *)
Definition reshape (t : Tensor) (s : list nat) : result Tensor :=
  if numel t =? numel_of s then Ok (mkTensor s (data t)) else Raise RuntimeError.

(** [torch.exp] and [F.relu], element by element. *)
Definition texp : Tensor -> Tensor := tmap exp.
Definition relu_scalar (x : R) : R := Rmax 0 x.
Definition relu : Tensor -> Tensor := tmap relu_scalar.

(** [torch.matmul] of two matrices. *)
Definition matmul (a b : Tensor) : result Tensor :=
  match shape a, shape b with
  | [n; k], [k'; m] =>
      if k =? k' then
        Ok (of_rows n m (matmul_rows (chunks k n (data a)) (chunks m k' (data b))))
      else Raise RuntimeError
  | _, _ => Raise NotModelled
  end.

(** [a + b] for tensors of one shape (the only sum the notebooks take). *)
Definition tadd (a b : Tensor) : result Tensor :=
  if list_eq_dec Nat.eq_dec (shape a) (shape b)
  then Ok (mkTensor (shape a) (vadd (data a) (data b)))
  else Raise NotModelled.

(** ** nn.Linear *)

(** [weight] has [out_features] rows of [in_features] entries, [bias] has
    [out_features] entries; the layer computes [x @ weight.T + bias]. *)
Record Linear : Type := mkLinear {
  in_features : nat;
  out_features : nat;
  weight : list (list R);
  bias : list R
}.

Definition Linear_ok (l : Linear) : Prop :=
  length (weight l) = out_features l /\
  Forall (fun row => length row = in_features l) (weight l) /\
  length (bias l) = out_features l.

Definition affine (l : Linear) (x : list R) : list R :=
  vadd (map (dot x) (weight l)) (bias l).

(** The layer acts on the last axis and keeps the leading ones. *)
Definition Linear_forward (l : Linear) (t : Tensor) : result Tensor :=
  match rev (shape t) with
  | [] => Raise RuntimeError
  | k :: lead =>
      if k =? in_features l then
        Ok (mkTensor (rev (out_features l :: lead))
              (concat (map (affine l) (chunks k (numel_of lead) (data t)))))
      else Raise RuntimeError
  end.

(** ** F.log_softmax(x, dim=1) and nn.LogSoftmax(dim=1) *)

(** One row: the row maximum is subtracted before exponentiating. *)
Definition log_softmax_row (z : list R) : list R :=
  let m := max_list z in
  let s := ln (sum_list (map (fun x => exp (x - m)) z)) in
  map (fun x => (x - m - s)%R) z.

Definition log_softmax_dim1 (t : Tensor) : result Tensor :=
  match shape t with
  | [] | [_] => Raise IndexError
  | [n; c] => Ok (of_rows n c (map log_softmax_row (chunks c n (data t))))
  | _ => Raise NotModelled
  end.

(** ** nn.Dropout *)

(** The random source: an unbounded sequence of keep/drop draws and the number
    of draws consumed so far.  Every sequence is a possible outcome. *)
Record Rng : Type := mkRng { bits : nat -> bool; pos : nat }.

Definition bernoulli (n : nat) (g : Rng) : list bool * Rng :=
  (map (bits g) (seq (pos g) n), mkRng (bits g) (pos g + n)).

(** In training mode each element is kept with probability [1 - p] and the
    kept ones are scaled by [1 / (1 - p)]; in evaluation mode the layer is the
    identity and draws nothing. *)
Definition drop_data (p : R) (d : list R) (mask : list bool) : list R :=
  map (fun xm => (fst xm * (if snd xm : bool then 1 else 0) / (1 - p))%R)
      (combine d mask).

Definition dropout (p : R) (training : bool) (t : Tensor) : M Rng Tensor :=
  fun g =>
    if training then
      let (mask, g') := bernoulli (length (data t)) g in
      (Ok (mkTensor (shape t) (drop_data p (data t) mask)), g')
    else (Ok t, g).

(** ** nn.NLLLoss(), with its default mean reduction *)

(** Labels are the class indices the torchvision datasets yield. *)
Definition NLLLoss (log_ps : Tensor) (labels : list nat) : result R :=
  match shape log_ps with
  | [n; c] =>
      if n =? length labels then
        if forallb (fun y => y <? c) labels then
          Ok (- sum_list (map (fun p => nth (snd p) (fst p) 0%R)
                              (combine (chunks c n (data log_ps)) labels))
              / INR n)%R
        else Raise IndexError
      else Raise ValueError
  | _ => Raise NotModelled
  end.

(** ** Tensor.topk(1, dim=1) *)

(** Returns the pair [(top_p, top_class)], one entry per row.  Which of
    several equal largest entries torch reports is not documented; [argmax]
    takes the first of them. *)
Definition topk1_dim1 (ps : Tensor) : result (list R * list nat) :=
  match shape ps with
  | [] | [_] => Raise IndexError
  | [n; c] =>
      if c =? 0 then Raise RuntimeError
      else let rows := chunks c n (data ps) in
           Ok (map max_list rows, map argmax rows)
  | _ => Raise NotModelled
  end.

(** [top_class == labels.view(...)], the labels viewed in the shape of
    [top_class]; the view needs as many labels as there are rows. *)
Definition equals_labels (top_class labels : list nat) : result (list bool) :=
  if length labels =? length top_class
  then Ok (map (fun p => fst p =? snd p) (combine top_class labels))
  else Raise RuntimeError.

(** [torch.mean(equals.type(torch.FloatTensor))] *)
Definition mean_bool (equals : list bool) : R :=
  (sum_list (map (fun b : bool => if b then 1 else 0)%R equals) / INR (length equals))%R.

(** ** [torch.exp] on a float32 tensor *)

(** The tensors of the notebooks hold float32 numbers.  Rounding is left
    out of the embedding wherever a result is stated up to rounding; it
    cannot be left out where a statement turns on two numbers being
    different, and the class that [topk] reports after [torch.exp] is such
    a place.  [round_f32] is rounding to the nearest float32, ties to the
    even significand: a float32 has 24 significant bits, its exponent is at
    least -126, and numbers below [2^-126] are spaced [2^-149] apart.
    Numbers too large for a float32 are not described; [exp] of a
    log-probability is at most 1. *)
Definition floor_log2 (x : R) : Z := Int_part (ln x / ln 2).

Definition ulp_exponent (x : R) : Z :=
  (Z.max (floor_log2 (Rabs x)) (-126) - 23)%Z.

Definition nearest_even (y : R) : Z :=
  let n := Int_part y in
  let d := (y - IZR n)%R in
  if Rlt_dec d (1 / 2) then n
  else if Rlt_dec (1 / 2) d then (n + 1)%Z
  else if Z.even n then n else (n + 1)%Z.

Definition round_f32 (x : R) : R :=
  if Req_dec_T x 0 then 0%R
  else let u := powerRZ 2 (ulp_exponent x) in (IZR (nearest_even (x / u)) * u)%R.

(** [torch.exp] of a float32, taken as the float32 nearest to the
    exponential; [texp] above is the exponential without rounding.  What is
    proved about the reported class holds for every [non_decreasing]
    function in the place of [exp_f32]. *)
Definition exp_f32 (x : R) : R := round_f32 (exp x).
Definition texp_f32 : Tensor -> Tensor := tmap exp_f32.

(** What the class of a row needs of an elementwise function: it does not
    reverse an order.  It may merge two numbers. *)
Definition non_decreasing (f : R -> R) : Prop :=
  forall x y : R, (x <= y)%R -> (f x <= f y)%R.

(** Index [i] holds a largest entry of [l]: an index [topk(1)] may report. *)
Definition largest_at (l : list R) (i : nat) : Prop :=
  i < length l /\ forall j, j < length l -> (nth j l 0 <= nth i l 0)%R.

(** The largest entry of [l] is in one place only. *)
Definition untied (l : list R) : Prop :=
  forall i j, largest_at l i -> largest_at l j -> i = j.

(** ** Part 5, cell 2: [class Classifier(nn.Module)] *)

Module Classifier.

Record t : Type := mk {
  fc1 : Linear;
  fc2 : Linear;
  fc3 : Linear;
  fc4 : Linear
}.

(** What [__init__] establishes, whatever the initial draws are. *)
Definition init_ok (self : t) : Prop :=
  (Linear_ok (fc1 self) /\ in_features (fc1 self) = 784 /\ out_features (fc1 self) = 256) /\
  (Linear_ok (fc2 self) /\ in_features (fc2 self) = 256 /\ out_features (fc2 self) = 128) /\
  (Linear_ok (fc3 self) /\ in_features (fc3 self) = 128 /\ out_features (fc3 self) = 64) /\
  (Linear_ok (fc4 self) /\ in_features (fc4 self) = 64 /\ out_features (fc4 self) = 10).

Definition forward (self : t) (x : Tensor) : result Tensor :=
  n <-? shape0 x ;;
  x <-? view_infer x n ;;
  x <-? rmap relu (Linear_forward (fc1 self) x) ;;
  x <-? rmap relu (Linear_forward (fc2 self) x) ;;
  x <-? rmap relu (Linear_forward (fc3 self) x) ;;
  x <-? Linear_forward (fc4 self) x ;;
  log_softmax_dim1 x.

End Classifier.

(** ** Part 5, cell 8: [class Classifier_with_Drop_out(nn.Module)] *)

Module Classifier_with_Drop_out.

Record t : Type := mk {
  fc1 : Linear;
  fc2 : Linear;
  fc3 : Linear;
  fc4 : Linear;
  dropout_p : R
}.

(** [__init__] builds the same four layers and [nn.Dropout(p = 0.2)]. *)
Definition init_ok (self : t) : Prop :=
  Classifier.init_ok (Classifier.mk (fc1 self) (fc2 self) (fc3 self) (fc4 self)) /\
  dropout_p self = (2 / 10)%R.

(** [training] is the module's [self.training] flag, which [nn.Dropout]
    reads. *)
Definition forward (self : t) (training : bool) (x : Tensor) : M Rng Tensor :=
  n <- lift (shape0 x) ;;
  x <- lift (view_infer x n) ;;
  x <- lift (Linear_forward (fc1 self) x) ;;
  x <- dropout (dropout_p self) training (relu x) ;;
  x <- lift (Linear_forward (fc2 self) x) ;;
  x <- dropout (dropout_p self) training (relu x) ;;
  x <- lift (Linear_forward (fc3 self) x) ;;
  x <- dropout (dropout_p self) training (relu x) ;;
  x <- lift (Linear_forward (fc4 self) x) ;;
  lift (log_softmax_dim1 x).

End Classifier_with_Drop_out.

(** ** Part 3, cells 3, 9 and 13: [nn.Sequential] with [nn.LogSoftmax(dim=1)] *)

Inductive Layer : Type :=
| nn_Linear (l : Linear)
| nn_ReLU
| nn_LogSoftmax_dim1.

Definition Layer_forward (l : Layer) (x : Tensor) : result Tensor :=
  match l with
  | nn_Linear lin => Linear_forward lin x
  | nn_ReLU => Ok (relu x)
  | nn_LogSoftmax_dim1 => log_softmax_dim1 x
  end.

Fixpoint Sequential_forward (layers : list Layer) (x : Tensor) : result Tensor :=
  match layers with
  | [] => Ok x
  | l :: rest => y <-? Layer_forward l x ;; Sequential_forward rest y
  end.

Module Part3.

Definition model (l1 l2 l3 : Linear) : list Layer :=
  [nn_Linear l1; nn_ReLU; nn_Linear l2; nn_ReLU; nn_Linear l3; nn_LogSoftmax_dim1].

(** [nn.Linear(784, 128)], [nn.Linear(128, 64)], [nn.Linear(64, 10)] *)
Definition init_ok (l1 l2 l3 : Linear) : Prop :=
  (Linear_ok l1 /\ in_features l1 = 784 /\ out_features l1 = 128) /\
  (Linear_ok l2 /\ in_features l2 = 128 /\ out_features l2 = 64) /\
  (Linear_ok l3 /\ in_features l3 = 64 /\ out_features l3 = 10).

End Part3.

(** ** Part 5 (second notebook of the file), cell 5: the network written with
    matrix products *)

Module Manual.

(** [def sigmoid(x): return 1/(1+torch.exp(-x))] *)
Definition sigmoid_scalar (x : R) : R := (1 / (1 + exp (- x)))%R.
Definition sigmoid : Tensor -> Tensor := tmap sigmoid_scalar.

(** The four random draws of the cell. *)
Record Params : Type := mkParams { W1 : Tensor; W2 : Tensor; b1 : Tensor; b2 : Tensor }.

(** [torch.randn(784, 256)], [torch.randn(256, 10)], [torch.randn(64, 256)],
    [torch.rand(64, 10)] *)
Definition init_ok (p : Params) : Prop :=
  (shape (W1 p) = [784; 256] /\ wf_tensor (W1 p)) /\
  (shape (W2 p) = [256; 10] /\ wf_tensor (W2 p)) /\
  (shape (b1 p) = [64; 256] /\ wf_tensor (b1 p)) /\
  (shape (b2 p) = [64; 10] /\ wf_tensor (b2 p)).

(** The cell, as a function of the batch [images] it starts from; the
    result is the cell's [out]. *)
Definition network (p : Params) (images : Tensor) : result Tensor :=
  images <-? reshape images [64; 28 * 28] ;;
  a1 <-? matmul images (W1 p) ;;
  z1 <-? tadd a1 (b1 p) ;;
  let h1 := sigmoid z1 in
  a2 <-? matmul h1 (W2 p) ;;
  z2 <-? tadd a2 (b2 p) ;;
  let h2 := sigmoid z2 in
  Ok h2.

End Manual.

(** [Tensor.resize_]: the storage is cut or grown to the new element count;
    the elements it gains are whatever the memory holds, here [junk]. *)
Definition resize_ (junk : nat -> R) (t : Tensor) (s : list nat) : Tensor :=
  mkTensor s (map (fun i => nth i (data t) (junk i)) (seq 0 (numel_of s))).

(** ** nn.Module, autograd and the optimizer *)

(** [model(x)]: a function of the module's parameters and [training] flag and
    of the random source. *)
Class Module (Mdl : Type) : Type :=
  { Module_forward : Mdl -> bool -> Tensor -> M Rng Tensor }.

#[export] Instance Classifier_Module : Module Classifier.t :=
  {| Module_forward self _ x := lift (Classifier.forward self x) |}.

#[export] Instance Classifier_with_Drop_out_Module : Module Classifier_with_Drop_out.t :=
  {| Module_forward := Classifier_with_Drop_out.forward |}.

#[export] Instance Sequential_Module : Module (list Layer) :=
  {| Module_forward self _ x := lift (Sequential_forward self x) |}.

(** What a forward pass records when gradient tracking is on: enough to
    replay it. *)
Record Tape : Type := mkTape { tape_training : bool; tape_rng : Rng; tape_input : Tensor }.

(** A module output and a loss, each with its [grad_fn]. *)
Record Var : Type := mkVar { value : Tensor; grad_fn : option Tape }.
Record Loss : Type := mkLoss { item : R; loss_grad_fn : option (Tape * list nat) }.

(** The gradient of the loss with respect to the parameters, one entry per
    scalar parameter; the engine that computes it is not part of the
    notebooks. *)
Class Autograd (Mdl : Type) : Type :=
  { gradient : Mdl -> Tape -> list nat -> list R }.

(** [optim.SGD], [optim.Adam]: the update rule reads the gradients and writes
    the parameters and its own state. *)
Class Optimizer (Mdl O : Type) : Type :=
  { update : O -> Mdl -> option (list R) -> O * Mdl }.

(** The calls a loop makes, in the order it makes them.  [EForward] keeps the
    module's [training] flag and the gradient mode at the time of the call. *)
Inductive Event : Type :=
| EZeroGrad
| EForward (training grad_on : bool)
| ELoss
| EBackward
| EStep
| EAccum.

(** Everything the cells of a notebook share. *)
Record World (Mdl O : Type) : Type := mkWorld {
  model : Mdl;
  training : bool;                 (* model.training *)
  grad : option (list R);          (* the .grad of the parameters *)
  grad_enabled : bool;             (* torch.is_grad_enabled() *)
  rng : Rng;
  optimizer : O;
  trace : list Event
}.
Arguments mkWorld {Mdl O}.
Arguments model {Mdl O}.
Arguments training {Mdl O}.
Arguments grad {Mdl O}.
Arguments grad_enabled {Mdl O}.
Arguments rng {Mdl O}.
Arguments optimizer {Mdl O}.
Arguments trace {Mdl O}.

Definition Batch : Type := (Tensor * list nat)%type.

(** ** Reading a trace *)

(** The calls of one training step. *)
Definition step_calls (tr g : bool) : list Event :=
  [EZeroGrad; EForward tr g; ELoss; EBackward; EStep; EAccum].


(** The calls a validation pass may make. *)
Definition validation_call (tr g : bool) (e : Event) : Prop :=
  e = EForward tr g \/ e = ELoss.



Section Calls.

Context {Mdl O : Type} {Mod : Module Mdl} {AG : Autograd Mdl} {Opt : Optimizer Mdl O}.

Definition emit (e : Event) : M (World Mdl O) unit :=
  fun w => (Ok tt, mkWorld (model w) (training w) (grad w) (grad_enabled w)
                     (rng w) (optimizer w) (trace w ++ [e])).

Definition set_grad_enabled (b : bool) (w : World Mdl O) : World Mdl O :=
  mkWorld (model w) (training w) (grad w) b (rng w) (optimizer w) (trace w).

Definition set_training (b : bool) : M (World Mdl O) unit :=
  fun w => (Ok tt, mkWorld (model w) b (grad w) (grad_enabled w)
                     (rng w) (optimizer w) (trace w)).

Definition model_train : M (World Mdl O) unit := set_training true.

(** [optimizer.zero_grad()]: gradients that exist are zeroed in place. *)
Definition optimizer_zero_grad : M (World Mdl O) unit :=
  emit EZeroGrad ;;;
  fun w => (Ok tt, mkWorld (model w) (training w)
                     (option_map (map (fun _ => 0%R)) (grad w))
                     (grad_enabled w) (rng w) (optimizer w) (trace w)).

(** [model(x)] and [model.forward(x)] *)
Definition model_call (x : Tensor) : M (World Mdl O) Var :=
  fun w0 =>
    let (_, w) := emit (EForward (training w0) (grad_enabled w0)) w0 in
    let (r, g) := Module_forward (model w) (training w) x (rng w) in
    let w' := mkWorld (model w) (training w) (grad w) (grad_enabled w)
                g (optimizer w) (trace w) in
    match r with
    | Ok y => (Ok (mkVar y (if grad_enabled w
                            then Some (mkTape (training w) (rng w) x)
                            else None)), w')
    | Raise e => (Raise e, w')
    end.

(** [criterion(output, labels)] with [criterion = nn.NLLLoss()] *)
Definition criterion (output : Var) (labels : list nat) : M (World Mdl O) Loss :=
  emit ELoss ;;;
  l <- lift (NLLLoss (value output) labels) ;;
  ret (mkLoss l (option_map (fun tp => (tp, labels)) (grad_fn output))).

(** [loss.backward()]: adds the gradient to the [.grad] of the parameters;
    fails on a loss computed without gradient tracking. *)
Definition loss_backward (loss : Loss) : M (World Mdl O) unit :=
  emit EBackward ;;;
  fun w =>
    match loss_grad_fn loss with
    | None => (Raise RuntimeError, w)
    | Some (tp, labels) =>
        let g := gradient (model w) tp labels in
        let acc := match grad w with
                   | None => g
                   | Some old => vadd old g
                   end in
        (Ok tt, mkWorld (model w) (training w) (Some acc) (grad_enabled w)
                  (rng w) (optimizer w) (trace w))
    end.

(** [optimizer.step()] *)
Definition optimizer_step : M (World Mdl O) unit :=
  emit EStep ;;;
  fun w =>
    let (o, m) := update (optimizer w) (model w) (grad w) in
    (Ok tt, mkWorld m (training w) (grad w) (grad_enabled w) (rng w) o (trace w)).

(** [with torch.no_grad(): body].  [__enter__] saves the mode and turns it
    off, [__exit__] puts the saved mode back, also when [body] raised. *)
Definition no_grad {A} (body : M (World Mdl O) A) : M (World Mdl O) A :=
  fun w =>
    let prev := grad_enabled w in
    let (r, w') := body (set_grad_enabled false w) in
    (r, set_grad_enabled prev w').

(** [total / len(loader)] for a Python number [total]. *)
Definition mean_over (total : R) (loader : list Batch) : result R :=
  if length loader =? 0 then Raise ZeroDivisionError
  else Ok (total / INR (length loader))%R.

(** *** Part 3, last training cell *)

Definition part3_step (b : Batch) (running_loss : R) : M (World Mdl O) R :=
  let (images, labels) := b in
  n <- lift (shape0 images) ;;
  images <- lift (view_infer images n) ;;
  optimizer_zero_grad ;;;
  output <- model_call images ;;
  loss <- criterion output labels ;;
  loss_backward loss ;;;
  optimizer_step ;;;
  emit EAccum ;;;
  ret (running_loss + item loss)%R.

(** One pass of the outer [for e in range(epochs)] loop; the result is the
    number the cell prints. *)
Definition part3_epoch (trainloader : list Batch) : M (World Mdl O) R :=
  running_loss <- for_each part3_step trainloader 0%R ;;
  lift (mean_over running_loss trainloader).

(** *** Part 3, the cells that take a single step *)

Definition part3_single_step (junk : nat -> R) (b : Batch) : M (World Mdl O) unit :=
  let (images, labels) := b in
  let images := resize_ junk images [64; 784] in
  optimizer_zero_grad ;;;
  output <- model_call images ;;
  loss <- criterion output labels ;;
  loss_backward loss ;;;
  optimizer_step.

(** *** Part 5, the two training cells (they differ in the model only) *)

Definition part5_step (b : Batch) (running_loss : R) : M (World Mdl O) R :=
  let (images, labels) := b in
  optimizer_zero_grad ;;;
  log_ps <- model_call images ;;
  loss <- criterion log_ps labels ;;
  loss_backward loss ;;;
  optimizer_step ;;;
  emit EAccum ;;;
  ret (running_loss + item loss)%R.

(** The body of [for images, labels in testloader]; the accumulator is
    [(test_loss, accuracy)]. *)
Definition validation_step (b : Batch) (acc : R * R) : M (World Mdl O) (R * R) :=
  let (images, labels) := b in
  let (test_loss, accuracy) := acc in
  log_ps <- model_call images ;;
  l <- criterion log_ps labels ;;
  let ps := texp (value log_ps) in
  top <- lift (topk1_dim1 ps) ;;
  equals <- lift (equals_labels (snd top) labels) ;;
  ret (test_loss + item l, accuracy + mean_bool equals)%R.

(** The [else:] branch of the training loop up to the end of the
    [with torch.no_grad()] block. *)
Definition validation_pass (testloader : list Batch) : M (World Mdl O) (R * R) :=
  no_grad (for_each validation_step testloader (0%R, 0%R)).

(** One pass of the outer loop; the result is the triple the cell prints:
    training loss, test loss, test accuracy. *)
Definition part5_epoch (trainloader testloader : list Batch) : M (World Mdl O) (R * R * R) :=
  running_loss <- for_each part5_step trainloader 0%R ;;
  va <- validation_pass testloader ;;
  train_loss <- lift (mean_over running_loss trainloader) ;;
  test_loss <- lift (mean_over (fst va) testloader) ;;
  test_acc <- lift (mean_over (snd va) testloader) ;;
  ret (train_loss, test_loss, test_acc).

(** [epochs = 5]; each epoch draws its own order of batches from the two
    loaders. *)
Definition epochs : nat := 5.

Definition part5_training (trainloader testloader : nat -> list Batch)
  : M (World Mdl O) (list (R * R * R)) :=
  for_each (fun e printed =>
              line <- part5_epoch (trainloader e) (testloader e) ;;
              ret (printed ++ [line]))
           (seq 0 epochs) [].

Definition part3_training (trainloader : nat -> list Batch) : M (World Mdl O) (list R) :=
  for_each (fun e printed =>
              line <- part3_epoch (trainloader e) ;;
              ret (printed ++ [line]))
           (seq 0 epochs) [].

(** *** Part 5, the inference cell *)


(** What a training step leaves behind: the modes are untouched; a step that
    returns made the six calls in order and wrote the parameters through
    the optimizer; a step that raised made a proper beginning of them and
    wrote no parameter. *)
Definition step_effect (r : result R) (w w' : World Mdl O) : Prop :=
  training w' = training w /\ grad_enabled w' = grad_enabled w /\
  exists evs rest,
    trace w' = trace w ++ evs /\
    step_calls (training w) (grad_enabled w) = evs ++ rest /\
    match r with
    | Ok _ => rest = [] /\
              exists g, (optimizer w', model w') = update (optimizer w) (model w) g
    | Raise _ => rest <> [] /\ model w' = model w /\ optimizer w' = optimizer w
    end.


(** What validation leaves behind: parameters, optimizer state, gradients
    and both modes as they were, and only forward and loss calls made. *)
Definition validation_effect (w w' : World Mdl O) (evs : list Event) : Prop :=
  model w' = model w /\ optimizer w' = optimizer w /\ grad w' = grad w /\
  training w' = training w /\ grad_enabled w' = grad_enabled w /\
  trace w' = trace w ++ evs /\
  Forall (validation_call (training w) (grad_enabled w)) evs.

End Calls.

(** ** The forward pass in the words of the specification *)

Module Spec.

(** [log_softmax(z)_i = z_i - log(sum_j exp(z_j))] *)
Definition log_softmax (z : list R) : list R :=
  map (fun zi => (zi - ln (sum_list (map exp z)))%R) z.

(** [input @ weight + bias], [weight] of shape [[in_features, out_features]],
    the bias added to every row. *)
Definition affine (input weight : list (list R)) (bias : list R) : list (list R) :=
  map (fun row => vadd row bias) (matmul_rows input weight).



End Spec.

(** What [Classifier.forward] computes on one flattened example. *)
Definition Classifier_row (self : Classifier.t) (x : list R) : list R :=
  log_softmax_row
    (affine (Classifier.fc4 self)
       (map relu_scalar (affine (Classifier.fc3 self)
          (map relu_scalar (affine (Classifier.fc2 self)
             (map relu_scalar (affine (Classifier.fc1 self) x))))))).

(** What the Part 3 model computes on one flattened example. *)
Definition Part3_row (l1 l2 l3 : Linear) (x : list R) : list R :=
  log_softmax_row
    (affine l3 (map relu_scalar (affine l2 (map relu_scalar (affine l1 x))))).

(** The rows of a matrix-shaped tensor. *)
Definition rows_of (t : Tensor) : list (list R) :=
  match shape t with
  | [n; c] => chunks c n (data t)
  | _ => []
  end.

(** Every row of [exp(out)] is a probability distribution over [c] classes. *)
Definition rows_are_distributions (c : nat) (out : Tensor) : Prop :=
  exists n, shape out = [n; c] /\
            length (rows_of (texp out)) = n /\
            Forall (fun row => length row = c /\ sum_list row = 1%R) (rows_of (texp out)).

(** ** Concrete objects used as examples *)

Definition zeros (n : nat) : list R := repeat 0%R n.
Definition ones (n : nat) : list R := repeat 1%R n.

(** A layer with [torch.zeros] weight and bias. *)
Definition zero_linear (i o : nat) : Linear :=
  mkLinear i o (repeat (zeros i) o) (zeros o).

Definition classifier0 : Classifier.t :=
  Classifier.mk (zero_linear 784 256) (zero_linear 256 128)
                (zero_linear 128 64) (zero_linear 64 10).

(** One image as the loaders deliver it, and the same image flattened. *)
Definition image1 : Tensor := mkTensor [1; 1; 28; 28] (zeros 784).
Definition flat1 : Tensor := mkTensor [1; 784] (zeros 784).

(** A dropout classifier whose output depends on the mask of its last
    dropout layer only: the third layer outputs ones, the first output unit
    adds up what the mask lets through. *)
Definition fc3_cex : Linear := mkLinear 128 64 (repeat (zeros 128) 64) (ones 64).
Definition fc4_cex : Linear := mkLinear 64 10 (ones 64 :: repeat (zeros 64) 9) (zeros 10).

Definition drop_cex : Classifier_with_Drop_out.t :=
  Classifier_with_Drop_out.mk
    (zero_linear 784 256) (zero_linear 256 128) fc3_cex fc4_cex (2 / 10)%R.

(** A dropout classifier with zero weights. *)
Definition drop0 : Classifier_with_Drop_out.t :=
  Classifier_with_Drop_out.mk
    (zero_linear 784 256) (zero_linear 256 128)
    (zero_linear 128 64) (zero_linear 64 10) (2 / 10)%R.

(** Draws that keep the first 448 elements and drop every later one: the
    first forward pass of the dropout classifier on one example keeps all its
    hidden units, the second drops them all. *)
Definition g_cex : Rng := mkRng (fun i => i <? 448) 0.

(** The notebook state after [model = Classifier_with_Drop_out()]: a fresh
    module is in training mode, gradient tracking is on, no gradient exists
    yet.  The optimizer carries no state here. *)
Definition w_cex : World Classifier_with_Drop_out.t unit :=
  mkWorld drop_cex true None true g_cex tt [].

(** A state after [model.eval()]. *)
Definition w_eval : World Classifier_with_Drop_out.t unit :=
  mkWorld drop0 false None true g_cex tt [].

(** The same module in another notebook state: other draws, gradient
    tracking off, a gradient present, calls already made. *)
Definition w_eval' : World Classifier_with_Drop_out.t unit :=
  mkWorld drop0 false (Some []) false (mkRng (fun _ => true) 7) tt [ELoss].

(** Two states that hold the plain classifier. *)
Definition w_plain : World Classifier.t unit :=
  mkWorld classifier0 true None true g_cex tt [].

Definition w_plain' : World Classifier.t unit :=
  mkWorld classifier0 false (Some []) false (mkRng (fun _ => true) 7) tt [ELoss].

(** Parameters of the matrix-product network, all zero. *)
Definition manual0 : Manual.Params :=
  Manual.mkParams (mkTensor [784; 256] (zeros (784 * 256)))
                  (mkTensor [256; 10] (zeros (256 * 10)))
                  (mkTensor [64; 256] (zeros (64 * 256)))
                  (mkTensor [64; 10] (zeros (64 * 10))).

(** A full batch of 64 flattened images. *)
Definition flat64 : Tensor := mkTensor [64; 784] (zeros (64 * 784)).

(** Two neighbouring float32 numbers, the second the larger: they print as
    -0.6931472 and -0.6931471. *)
Definition lp_low : R := (- 11629080 / 16777216)%R.
Definition lp_high : R := (- 11629079 / 16777216)%R.

(** One row of two log-probabilities, each the logarithm of 1/2 up to
    rounding. *)
Definition log_ps_tied : Tensor := mkTensor [1; 2] [lp_low; lp_high].

(** One row whose second entry is well above the first. *)
Definition log_ps_untied : Tensor := mkTensor [1; 2] [-1; 0]%R.

(** * Further cells of the two notebooks *)

(** ** F.softmax(x, dim=1) and nn.Softmax(dim=1) *)

(** One row; as for the log-softmax, the row maximum is subtracted before
    exponentiating. *)
Definition softmax_row (z : list R) : list R :=
  let m := max_list z in
  let s := sum_list (map (fun x => exp (x - m)) z) in
  map (fun x => (exp (x - m) / s)%R) z.

Definition softmax_dim1 (t : Tensor) : result Tensor :=
  match shape t with
  | [] | [_] => Raise IndexError
  | [n; c] => Ok (of_rows n c (map softmax_row (chunks c n (data t))))
  | _ => Raise NotModelled
  end.

(** ** nn.CrossEntropyLoss(), with its default mean reduction *)

(** The loss of one example is [-x[class] + log(sum_j exp(x[j]))]. *)
Definition CrossEntropyLoss (logits : Tensor) (labels : list nat) : result R :=
  match shape logits with
  | [n; c] =>
      if n =? length labels then
        if forallb (fun y => y <? c) labels then
          Ok (sum_list (map (fun p => (- nth (snd p) (fst p) 0 + ln (sum_list (map exp (fst p))))%R)
                            (combine (chunks c n (data logits)) labels))
              / INR n)%R
        else Raise IndexError
      else Raise ValueError
  | _ => Raise NotModelled
  end.

(** ** [t[i]] and [t[i, :]] *)

Definition select (i : nat) (t : Tensor) : result Tensor :=
  match shape t with
  | [] => Raise IndexError
  | n :: rest =>
      if i <? n
      then Ok (mkTensor rest (firstn (numel_of rest) (skipn (i * numel_of rest) (data t))))
      else Raise IndexError
  end.

(** [t[i, :]] needs two axes. *)
Definition select_row (i : nat) (t : Tensor) : result Tensor :=
  match shape t with
  | _ :: _ :: _ => select i t
  | _ => Raise IndexError
  end.

(** ** Part 3, cells 2 and 3: the loss of one batch, from logits and from
    log-probabilities *)

(** [nn.Sequential(nn.Linear(784, 128), nn.ReLU(), nn.Linear(128, 64),
    nn.ReLU(), nn.Linear(64, 10))] *)
Definition Part3_logits_model (l1 l2 l3 : Linear) : list Layer :=
  [nn_Linear l1; nn_ReLU; nn_Linear l2; nn_ReLU; nn_Linear l3].

(** Cell 2: [criterion = nn.CrossEntropyLoss()] on the logits. *)
Definition Part3_loss_from_logits (l1 l2 l3 : Linear) (images : Tensor)
           (labels : list nat) : result R :=
  n <-? shape0 images ;;
  images <-? view_infer images n ;;
  logits <-? Sequential_forward (Part3_logits_model l1 l2 l3) images ;;
  CrossEntropyLoss logits labels.

(** Cell 3: [nn.LogSoftmax(dim = 1)] appended to the model and
    [criterion = nn.NLLLoss()]. *)
Definition Part3_loss_from_log_probs (l1 l2 l3 : Linear) (images : Tensor)
           (labels : list nat) : result R :=
  n <-? shape0 images ;;
  images <-? view_infer images n ;;
  logits <-? Sequential_forward (Part3.model l1 l2 l3) images ;;
  NLLLoss logits labels.

(** ** Part 3, the autograd cells *)

(** [y = x**2] and [z = y.mean()] *)
Definition square (x : Tensor) : Tensor := tmap (fun v => (v ^ 2)%R) x.
Definition mean (y : Tensor) : R := (sum_list (data y) / INR (length (data y)))%R.

(** [x] with its entry [i] replaced by [v]: the variable of a partial
    derivative. *)
Definition with_entry (i : nat) (v : R) (x : Tensor) : Tensor :=
  mkTensor (shape x) (firstn i (data x) ++ v :: skipn (S i) (data x)).

(** ** Part 3, the last cell: the prediction for one image *)


(** ** Part 5 (second notebook of the file): [class Network(nn.Module)] *)

(** The cell defines the class twice, with [nn.Sigmoid] and [nn.Softmax]
    modules and with [F.sigmoid] and [F.softmax]; both read as below.  The
    torch sigmoid is the function the notebook also writes by hand. *)
Module Network.

Record t : Type := mk { hidden : Linear; output : Linear }.

(** [nn.Linear(784, 256)] and [nn.Linear(256, 10)] *)
Definition init_ok (self : t) : Prop :=
  (Linear_ok (hidden self) /\ in_features (hidden self) = 784 /\
   out_features (hidden self) = 256) /\
  (Linear_ok (output self) /\ in_features (output self) = 256 /\
   out_features (output self) = 10).

Definition forward (self : t) (x : Tensor) : result Tensor :=
  x <-? Linear_forward (hidden self) x ;;
  let x := Manual.sigmoid x in
  x <-? Linear_forward (output self) x ;;
  softmax_dim1 x.

End Network.

(** ** The same notebook, [nn.Sequential] with [nn.Softmax(dim=1)] *)

(** [input_size = 784], [hidden_sizes = [128, 64]], [output_size = 10]: the
    layers of the Part 3 model, followed by the softmax. *)
Definition Part2_sequential (l1 l2 l3 : Linear) (x : Tensor) : result Tensor :=
  logits <-? Sequential_forward (Part3_logits_model l1 l2 l3) x ;;
  softmax_dim1 logits.



(** ** Part 5, cells 3 to 6: the accuracy of one batch *)

(** [ps = torch.exp(model(images))], [top_p, top_class = ps.topk(1, dim=1)],
    [equals = top_class == labels.view(...)], then the mean of [equals]. *)
Definition Part5_batch_accuracy (model : Classifier.t) (images : Tensor)
           (labels : list nat) : result (list nat * R) :=
  log_ps <-? Classifier.forward model images ;;
  let ps := texp log_ps in
  top <-? topk1_dim1 ps ;;
  equals <-? equals_labels (snd top) labels ;;
  Ok (snd top, mean_bool equals).

(** ** Predicates of the statements *)

(** Every row is a probability distribution over [c] classes: positive
    entries that add up to 1. *)
Definition probability_rows (c : nat) (out : Tensor) : Prop :=
  exists n, shape out = [n; c] /\
            length (rows_of out) = n /\
            Forall (fun row => length row = c /\ sum_list row = 1%R /\
                               Forall (fun p => (0 < p)%R) row) (rows_of out).

(** The same with closed bounds, which rounding cannot break: entries
    between 0 and 1 that add up to 1. *)
Definition distribution_rows (c : nat) (out : Tensor) : Prop :=
  exists n, shape out = [n; c] /\
            length (rows_of out) = n /\
            Forall (fun row => length row = c /\ sum_list row = 1%R /\
                               Forall (fun p => (0 <= p <= 1)%R) row) (rows_of out).

(** A batch as the loaders of the two notebooks deliver it: at least one
    image of 784 pixels, one label per image, ten classes. *)
Definition loader_batch (b : Batch) : Prop :=
  exists n rest, shape (fst b) = n :: rest /\ 0 < n /\ numel_of rest = 784 /\
                 length (snd b) = n /\ Forall (fun y => y < 10) (snd b).

(** A line the training cells of Part 5 print: training loss, test loss and
    test accuracy of one epoch, as they should come out. *)
Definition report_ok (line : R * R * R) : Prop :=
  (0 <= fst (fst line))%R /\ (0 <= snd (fst line))%R /\ (0 <= snd line <= 1)%R.

(** The models the Part 3 cells build. *)
Definition Part3_model_ok (m : list Layer) : Prop :=
  exists l1 l2 l3, m = Part3.model l1 l2 l3 /\ Part3.init_ok l1 l2 l3.

(** What a training loop needs of its body on a loader batch: the step
    returns, adds a loss that is not negative, and keeps the model in the
    family [ok], gradient tracking on and the module's mode. *)
Definition good_step {Mdl O : Type} (ok : Mdl -> Prop)
           (body : Batch -> R -> M (World Mdl O) R) : Prop :=
  forall (b : Batch) (running_loss : R) (w : World Mdl O),
    ok (model w) -> grad_enabled w = true -> loader_batch b ->
    exists l w',
      body b running_loss w = (Ok (running_loss + l)%R, w') /\
      (0 <= l)%R /\ ok (model w') /\ grad_enabled w' = true /\ training w' = training w.

(** 1 for [True], 0 for [False]. *)
Definition indicator (b : bool) : R := if b then 1%R else 0%R.

(** A cell that leaves [model.training] and the gradient mode as it found
    them, whether it returns or raises. *)
Definition keeps_modes {Mdl O A : Type} (m : M (World Mdl O) A) : Prop :=
  forall w, training (snd (m w)) = training w /\
            grad_enabled (snd (m w)) = grad_enabled w.

(** ** Further concrete objects *)

(** An engine that reports the same gradient for every loss, and an optimizer
    that leaves the parameters alone (a learning rate of 0). *)
Definition constant_autograd (Mdl : Type) (g : list R) : Autograd Mdl :=
  {| gradient _ _ _ := g |}.
Definition still_optimizer (Mdl : Type) : Optimizer Mdl unit :=
  {| update o m _ := (o, m) |}.

(** A [Network] with zero weights. *)
Definition network0 : Network.t :=
  Network.mk (zero_linear 784 256) (zero_linear 256 10).

Definition junk0 : nat -> R := fun _ => 0%R.

(** One batch of one image with its label, for every epoch. *)
Definition one_image_loader : nat -> list Batch := fun _ => [(image1, [0])].

(** A notebook state that holds the Part 3 model with zero weights. *)
Definition w_part3 : World (list Layer) unit :=
  mkWorld (Part3.model (zero_linear 784 128) (zero_linear 128 64) (zero_linear 64 10))
          true None true g_cex tt [].

(** Sixty-four labels of class 0. *)
Definition labels64 : list nat := repeat 0 64.

(** A 2 x 2 tensor, as [torch.randn(2, 2)] may return it. *)
Definition x22 : Tensor := mkTensor [2; 2] [1; -2; 3; 4]%R.

(** * Properties *)

(** ** Lists, rows and storage *)

Lemma vadd_length (a b : list R) : length (vadd a b) = Nat.min (length a) (length b).
Proof. unfold vadd. now rewrite length_map, length_combine. Qed.

Lemma affine_length (l : Linear) (x : list R) :
  Linear_ok l -> length (affine l x) = out_features l.
Proof.
  intros (Hw & _ & Hb). unfold affine.
  rewrite vadd_length, length_map, Hw, Hb. apply Nat.min_id.
Qed.

Lemma chunks_length (k n : nat) (d : list R) : length (chunks k n d) = n.
Proof. revert d. induction n as [|n IH]; intro d; simpl; [reflexivity | now rewrite IH]. Qed.

Lemma chunks_concat (k : nat) (rows : list (list R)) :
  Forall (fun r => length r = k) rows ->
  chunks k (length rows) (concat rows) = rows.
Proof.
  induction 1 as [|r rows Hr _ IH]; simpl; [reflexivity|].
  rewrite firstn_app, skipn_app, Hr, Nat.sub_diag, firstn_all2, skipn_all2 by lia.
  simpl. rewrite app_nil_r. now rewrite IH.
Qed.

Lemma chunks_map (f : R -> R) (k n : nat) (d : list R) :
  chunks k n (map f d) = map (map f) (chunks k n d).
Proof.
  revert d. induction n as [|n IH]; intro d; simpl; [reflexivity|].
  now rewrite firstn_map, skipn_map, IH.
Qed.



Lemma vadd_zeroed (previous g : list R) :
  length previous = length g -> vadd (map (fun _ => 0%R) previous) g = g.
Proof.
  unfold vadd. revert g. induction previous as [|a previous IH]; intros [|b g] H;
    try discriminate; [reflexivity|].
  injection H as H. cbn [map combine fst snd]. rewrite (IH g H). f_equal. lra.
Qed.

(** ** Layers on a batch of rows *)

Lemma Linear_forward_2d (l : Linear) (n k : nat) (d : list R) :
  in_features l = k ->
  Linear_forward l (mkTensor [n; k] d)
  = Ok (of_rows n (out_features l) (map (affine l) (chunks k n d))).
Proof.
  intros <-. unfold Linear_forward. cbn [shape data rev app].
  rewrite Nat.eqb_refl. cbn [rev app numel_of fold_right].
  now rewrite Nat.mul_1_r.
Qed.

Lemma Linear_forward_rows (l : Linear) (n k : nat) (rows : list (list R)) :
  in_features l = k -> length rows = n -> Forall (fun r => length r = k) rows ->
  Linear_forward l (of_rows n k rows)
  = Ok (of_rows n (out_features l) (map (affine l) rows)).
Proof.
  intros Hk Hn Hrows. unfold of_rows at 1.
  rewrite (Linear_forward_2d l n k _ Hk). subst n.
  now rewrite chunks_concat.
Qed.

Lemma tmap_of_rows (f : R -> R) (n c : nat) (rows : list (list R)) :
  tmap f (of_rows n c rows) = of_rows n c (map (map f) rows).
Proof. unfold tmap, of_rows. cbn [shape data]. now rewrite concat_map. Qed.

Lemma log_softmax_dim1_rows (n c : nat) (rows : list (list R)) :
  length rows = n -> Forall (fun r => length r = c) rows ->
  log_softmax_dim1 (of_rows n c rows) = Ok (of_rows n c (map log_softmax_row rows)).
Proof.
  intros Hn Hrows. unfold log_softmax_dim1, of_rows at 1. cbn [shape data].
  subst n. now rewrite chunks_concat.
Qed.

Lemma Forall_affine_length (l : Linear) (rows : list (list R)) :
  Linear_ok l ->
  Forall (fun r => length r = out_features l) (map (affine l) rows).
Proof.
  intro Hl. apply Forall_forall. intros r Hr.
  apply in_map_iff in Hr as (x & <- & _). now apply affine_length.
Qed.

Lemma Forall_map_length (f : R -> R) (c : nat) (rows : list (list R)) :
  Forall (fun r => length r = c) rows ->
  Forall (fun r => length r = c) (map (map f) rows).
Proof.
  intro H. apply Forall_forall. intros r Hr.
  apply in_map_iff in Hr as (x & <- & Hx). rewrite length_map.
  rewrite Forall_forall in H. now apply H.
Qed.

Lemma relu_of_rows (n c : nat) (rows : list (list R)) :
  relu (of_rows n c rows) = of_rows n c (map (map relu_scalar) rows).
Proof. apply tmap_of_rows. Qed.

(** A hidden layer of [Classifier.forward]: [F.relu(fc(x))]. *)
Lemma hidden_layer_rows (l : Linear) (n k : nat) (rows : list (list R)) :
  in_features l = k -> length rows = n -> Forall (fun r => length r = k) rows ->
  rmap relu (Linear_forward l (of_rows n k rows))
  = Ok (of_rows n (out_features l) (map (map relu_scalar) (map (affine l) rows))).
Proof.
  intros Hk Hn Hrows. rewrite (Linear_forward_rows l n k rows Hk Hn Hrows).
  unfold rmap, rbind. now rewrite relu_of_rows.
Qed.

Lemma view_infer_ok (x : Tensor) (n : nat) (rest : list nat) :
  shape x = n :: rest -> 0 < n ->
  view_infer x n = Ok (mkTensor [n; numel_of rest] (data x)).
Proof.
  intros Hs Hn. unfold view_infer, numel. rewrite Hs. cbn [numel_of fold_right].
  fold (numel_of rest).
  destruct (Nat.eqb_spec n 0) as [->|Hn0]; [lia|].
  rewrite Nat.mul_comm, Nat.Div0.mod_mul, Nat.div_mul by assumption.
  reflexivity.
Qed.

Lemma Classifier_forward_rows (self : Classifier.t) (x : Tensor) (n : nat) (rest : list nat) :
  Classifier.init_ok self ->
  shape x = n :: rest -> 0 < n -> numel_of rest = 784 ->
  Classifier.forward self x
  = Ok (of_rows n 10 (map (Classifier_row self) (chunks 784 n (data x)))).
Proof.
  intros ((H1 & I1 & O1) & (H2 & I2 & O2) & (H3 & I3 & O3) & (H4 & I4 & O4)) Hs Hn Hrest.
  unfold Classifier.forward, shape0. rewrite Hs. cbn [rbind].
  rewrite (view_infer_ok x n rest Hs Hn), Hrest. cbn [rbind].
  rewrite (Linear_forward_2d _ n 784 _ I1). unfold rmap at 1. cbn [rbind].
  rewrite relu_of_rows.
  pose proof (chunks_length 784 n (data x)) as Hlen.
  rewrite O1.
  rewrite (hidden_layer_rows _ n 256); cycle 1.
  { exact I2. } { now rewrite !length_map. }
  { apply Forall_map_length. rewrite <- O1. now apply Forall_affine_length. }
  cbn [rbind]. rewrite O2.
  rewrite (hidden_layer_rows _ n 128); cycle 1.
  { exact I3. } { now rewrite !length_map. }
  { apply Forall_map_length. rewrite <- O2. now apply Forall_affine_length. }
  cbn [rbind]. rewrite O3.
  rewrite (Linear_forward_rows _ n 64); cycle 1.
  { exact I4. } { now rewrite !length_map. }
  { apply Forall_map_length. rewrite <- O3. now apply Forall_affine_length. }
  cbn [rbind]. rewrite O4.
  rewrite log_softmax_dim1_rows; cycle 1.
  { now rewrite !length_map. }
  { rewrite <- O4. now apply Forall_affine_length. }
  f_equal. f_equal. unfold Classifier_row. rewrite !map_map. reflexivity.
Qed.

(** ** The log-softmax of a row *)

Section LogSoftmax.

Local Open Scope R_scope.

Lemma sum_exp_shift (m : R) (z : list R) :
  sum_list (map (fun x => exp (x - m)) z) = exp (- m) * sum_list (map exp z).
Proof.
  induction z as [|x z IH]; simpl.
  - ring.
  - rewrite IH. unfold Rminus. rewrite exp_plus. ring.
Qed.

Lemma sum_exp_nonneg (z : list R) : 0 <= sum_list (map exp z).
Proof.
  induction z as [|x z IH]; simpl; [lra|].
  pose proof (exp_pos x). lra.
Qed.

Lemma sum_exp_pos (z : list R) : z <> [] -> 0 < sum_list (map exp z).
Proof.
  destruct z as [|x z]; [congruence|]. intros _. simpl.
  pose proof (exp_pos x). pose proof (sum_exp_nonneg z). lra.
Qed.

(** The shift by the row maximum cancels: the stabilised computation is the
    textbook formula. *)
Lemma log_softmax_row_spec (z : list R) :
  log_softmax_row z = Spec.log_softmax z.
Proof.
  destruct z as [|x z]; [reflexivity|].
  unfold log_softmax_row, Spec.log_softmax.
  set (m := max_list (x :: z)). cbv zeta.
  apply map_ext. intro zi.
  rewrite sum_exp_shift.
  rewrite ln_mult by (apply exp_pos || (apply sum_exp_pos; discriminate)).
  rewrite ln_exp. ring.
Qed.

Lemma exp_log_softmax_sum (z : list R) :
  z <> [] -> sum_list (map exp (Spec.log_softmax z)) = 1.
Proof.
  intro Hz. unfold Spec.log_softmax. rewrite map_map.
  rewrite (sum_exp_shift (ln (sum_list (map exp z))) z).
  rewrite exp_Ropp, exp_ln by now apply sum_exp_pos.
  apply Rinv_l. pose proof (sum_exp_pos z Hz). lra.
Qed.

Lemma exp_log_softmax_row_sum (z : list R) :
  z <> [] -> sum_list (map exp (log_softmax_row z)) = 1.
Proof. rewrite log_softmax_row_spec. apply exp_log_softmax_sum. Qed.

End LogSoftmax.

(** ** The specification's formula on the layers of the code *)



Lemma Part3_forward_rows (l1 l2 l3 : Linear) (x : Tensor) (n : nat) :
  Part3.init_ok l1 l2 l3 -> shape x = [n; 784] ->
  Sequential_forward (Part3.model l1 l2 l3) x
  = Ok (of_rows n 10 (map (Part3_row l1 l2 l3) (chunks 784 n (data x)))).
Proof.
  intros ((H1 & I1 & O1) & (H2 & I2 & O2) & (H3 & I3 & O3)) Hs.
  destruct x as [s d]. cbn [shape data] in *. subst s.
  unfold Part3.model. cbn [Sequential_forward Layer_forward].
  rewrite (Linear_forward_2d _ n 784 _ I1). cbn [rbind]. rewrite relu_of_rows, O1.
  rewrite (Linear_forward_rows _ n 128); cycle 1.
  { exact I2. } { now rewrite !length_map, chunks_length. }
  { apply Forall_map_length. rewrite <- O1. now apply Forall_affine_length. }
  cbn [rbind]. rewrite relu_of_rows, O2.
  rewrite (Linear_forward_rows _ n 64); cycle 1.
  { exact I3. } { now rewrite !length_map, chunks_length. }
  { apply Forall_map_length. rewrite <- O2. now apply Forall_affine_length. }
  cbn [rbind]. rewrite O3.
  rewrite log_softmax_dim1_rows; cycle 1.
  { now rewrite !length_map, chunks_length. }
  { rewrite <- O3. now apply Forall_affine_length. }
  cbn [rbind]. f_equal. f_equal. unfold Part3_row. rewrite !map_map. reflexivity.
Qed.


(** ** The example objects *)

Lemma zero_linear_ok (i o : nat) : Linear_ok (zero_linear i o).
Proof.
  unfold Linear_ok, zero_linear, zeros. cbn [weight bias in_features out_features].
  rewrite !repeat_length. repeat split.
  apply Forall_forall. intros r Hr. apply repeat_spec in Hr. subst r.
  apply repeat_length.
Qed.

Lemma classifier0_ok : Classifier.init_ok classifier0.
Proof.
  unfold Classifier.init_ok, classifier0. cbn [Classifier.fc1 Classifier.fc2 Classifier.fc3 Classifier.fc4].
  repeat split; try apply zero_linear_ok; reflexivity.
Qed.

Lemma part3_zero_ok :
  Part3.init_ok (zero_linear 784 128) (zero_linear 128 64) (zero_linear 64 10).
Proof.
  unfold Part3.init_ok. repeat split; try apply zero_linear_ok; reflexivity.
Qed.

(** ** The forward pass *)



Lemma concat_length_rows (c : nat) (rows : list (list R)) :
  Forall (fun r => length r = c) rows -> length (concat rows) = length rows * c.
Proof.
  induction 1 as [|r rows Hr _ IH]; simpl; [reflexivity|].
  rewrite length_app, IH, Hr. reflexivity.
Qed.

Lemma log_softmax_row_length (z : list R) : length (log_softmax_row z) = length z.
Proof. unfold log_softmax_row. apply length_map. Qed.

Lemma Classifier_row_length (self : Classifier.t) (x : list R) :
  Classifier.init_ok self -> length (Classifier_row self x) = 10.
Proof.
  intros (_ & _ & _ & (H4 & _ & O4)). unfold Classifier_row.
  rewrite log_softmax_row_length, affine_length by assumption. exact O4.
Qed.

(** A call that returns was given at least one example of 784 numbers. *)
Lemma Classifier_forward_inv (self : Classifier.t) (x out : Tensor) :
  Classifier.init_ok self -> Classifier.forward self x = Ok out ->
  exists n rest, shape x = n :: rest /\ 0 < n /\ numel_of rest = 784.
Proof.
  intros Hok Hf. destruct (shape x) as [|n rest] eqn:Hs.
  - unfold Classifier.forward, shape0 in Hf. rewrite Hs in Hf. discriminate.
  - destruct n as [|n].
    + unfold Classifier.forward, shape0 in Hf. rewrite Hs in Hf. discriminate.
    + exists (S n), rest. repeat split; [lia|].
      unfold Classifier.forward, shape0 in Hf. rewrite Hs in Hf. cbn [rbind] in Hf.
      rewrite (view_infer_ok x (S n) rest Hs) in Hf by lia. cbn [rbind] in Hf.
      unfold Linear_forward at 1 in Hf. cbn [shape rev app] in Hf.
      destruct Hok as ((_ & I1 & _) & _). rewrite I1 in Hf.
      destruct (Nat.eqb_spec (numel_of rest) 784) as [E|E]; [exact E|discriminate].
Qed.

(** C10. [Classifier.forward] flattens its argument itself: a tensor of any
    rank whose first size is the batch size and whose remaining sizes
    multiply to 784, such as the [[N, 1, 28, 28]] batches of the loaders, is
    accepted, gives the result of the flattened [[N, 784]] tensor, and that
    result has shape [[N, 10]]. *)
Theorem forward_accepts_unflattened_batches
    (self : Classifier.t) (x : Tensor) (n : nat) (rest : list nat) :
  Classifier.init_ok self ->
  shape x = n :: rest -> 0 < n -> numel_of rest = 784 ->
  exists out,
    Classifier.forward self x = Ok out /\
    Classifier.forward self (mkTensor [n; 784] (data x)) = Ok out /\
    shape out = [n; 10] /\ wf_tensor out.
Proof.
  intros Hok Hs Hn Hrest.
  exists (of_rows n 10 (map (Classifier_row self) (chunks 784 n (data x)))).
  split; [now apply (Classifier_forward_rows self x n rest)|].
  split; [now apply (Classifier_forward_rows self (mkTensor [n; 784] (data x)) n [784])|].
  split; [reflexivity|].
  unfold wf_tensor, numel, of_rows. cbn [shape data numel_of fold_right].
  rewrite (concat_length_rows 10).
  - rewrite length_map, chunks_length. lia.
  - apply Forall_forall. intros r Hr. apply in_map_iff in Hr as (z & <- & _).
    now apply Classifier_row_length.
Qed.

Lemma forward_accepts_unflattened_batches_witness :
  Classifier.init_ok classifier0 /\ shape image1 = [1; 1; 28; 28] /\ 0 < 1 /\
  numel_of [1; 28; 28] = 784 /\
  exists out,
    Classifier.forward classifier0 image1 = Ok out /\
    Classifier.forward classifier0 (mkTensor [1; 784] (data image1)) = Ok out /\
    shape out = [1; 10] /\ wf_tensor out.
Proof.
  split; [exact classifier0_ok|]. split; [reflexivity|]. split; [lia|].
  split; [reflexivity|].
  apply (forward_accepts_unflattened_batches classifier0 image1 1 [1; 28; 28]);
    [exact classifier0_ok | reflexivity | lia | reflexivity].
Defined.

(** ** The predicted class: rounding to float32 *)

Section Rounding.

Local Open Scope R_scope.

Lemma ln2_pos : 0 < ln 2.
Proof. rewrite <- ln_1. apply ln_increasing; lra. Qed.

Lemma powerRZ2_pos (z : Z) : 0 < powerRZ 2 z.
Proof. apply powerRZ_lt. lra. Qed.

Lemma powerRZ2_exp (z : Z) : powerRZ 2 z = exp (IZR z * ln 2).
Proof. rewrite powerRZ_Rpower by lra. reflexivity. Qed.

Lemma powerRZ2_le (a b : Z) : (a <= b)%Z -> powerRZ 2 a <= powerRZ 2 b.
Proof.
  intro H. rewrite !powerRZ2_exp.
  destruct (Z.eq_dec a b) as [->|Hne]; [lra|].
  left. apply exp_increasing. apply Rmult_lt_compat_r; [exact ln2_pos|].
  apply IZR_lt. lia.
Qed.

Lemma powerRZ2_lt (a b : Z) : (a < b)%Z -> powerRZ 2 a < powerRZ 2 b.
Proof.
  intro H. rewrite !powerRZ2_exp.
  apply exp_increasing. apply Rmult_lt_compat_r; [exact ln2_pos|].
  now apply IZR_lt.
Qed.

Lemma powerRZ2_add (a b : Z) : powerRZ 2 (a + b) = powerRZ 2 a * powerRZ 2 b.
Proof. apply powerRZ_add. lra. Qed.

Lemma powerRZ2_24 : powerRZ 2 24 = IZR 16777216.
Proof. change (powerRZ 2 24) with (2 ^ 24). lra. Qed.

Lemma powerRZ2_23 : powerRZ 2 23 = IZR 8388608.
Proof. change (powerRZ 2 23) with (2 ^ 23). lra. Qed.

Lemma Int_part_bounds (r : R) : IZR (Int_part r) <= r < IZR (Int_part r) + 1.
Proof. destruct (base_Int_part r). lra. Qed.

Lemma Int_part_le (a b : R) : a <= b -> (Int_part a <= Int_part b)%Z.
Proof.
  intro H. pose proof (Int_part_bounds a). pose proof (Int_part_bounds b).
  assert (Hlt : IZR (Int_part a) < IZR (Int_part b + 1)) by (rewrite plus_IZR; lra).
  apply lt_IZR in Hlt. lia.
Qed.

Lemma Int_part_IZR (k : Z) : Int_part (IZR k) = k.
Proof. symmetry. apply Int_part_spec. lra. Qed.

Lemma floor_log2_spec (x : R) :
  0 < x -> powerRZ 2 (floor_log2 x) <= x < powerRZ 2 (floor_log2 x + 1).
Proof.
  intro Hx. unfold floor_log2. set (t := ln x / ln 2).
  pose proof (Int_part_bounds t) as [Hlo Hhi]. pose proof ln2_pos as H2.
  assert (Hxt : x = exp (t * ln 2)).
  { unfold t. unfold Rdiv. rewrite Rmult_assoc, Rinv_l by lra.
    rewrite Rmult_1_r. symmetry. now apply exp_ln. }
  rewrite !powerRZ2_exp, plus_IZR. split.
  - rewrite Hxt. destruct Hlo as [Hlo|Hlo].
    + left. apply exp_increasing. now apply Rmult_lt_compat_r.
    + rewrite Hlo. lra.
  - rewrite Hxt at 1. apply exp_increasing. now apply Rmult_lt_compat_r.
Qed.

Lemma floor_log2_unique (x : R) (z : Z) :
  powerRZ 2 z <= x < powerRZ 2 (z + 1) -> floor_log2 x = z.
Proof.
  intros [Hlo Hhi]. pose proof (powerRZ2_pos z) as Hz.
  assert (Hx : 0 < x) by lra.
  pose proof (floor_log2_spec x Hx) as [Hlo' Hhi'].
  assert (H1 : (z < floor_log2 x + 1)%Z).
  { destruct (Z.lt_ge_cases z (floor_log2 x + 1)) as [H|H]; [exact H|].
    apply powerRZ2_le in H. lra. }
  assert (H2 : (floor_log2 x < z + 1)%Z).
  { destruct (Z.lt_ge_cases (floor_log2 x) (z + 1)) as [H|H]; [exact H|].
    apply powerRZ2_le in H. lra. }
  lia.
Qed.

Lemma floor_log2_le (x y : R) : 0 < x -> x <= y -> (floor_log2 x <= floor_log2 y)%Z.
Proof.
  intros Hx Hxy. unfold floor_log2. apply Int_part_le.
  pose proof ln2_pos as H2.
  apply Rmult_le_compat_r; [left; now apply Rinv_0_lt_compat|].
  destruct Hxy as [Hlt| ->]; [left; now apply ln_increasing | lra].
Qed.

Lemma nearest_even_bounds (y : R) :
  (Int_part y <= nearest_even y <= Int_part y + 1)%Z.
Proof.
  unfold nearest_even. cbv zeta.
  destruct (Rlt_dec _ _); [lia|]. destruct (Rlt_dec _ _); [lia|].
  destruct (Z.even _); lia.
Qed.

Lemma nearest_even_IZR (k : Z) : nearest_even (IZR k) = k.
Proof.
  unfold nearest_even. cbv zeta. rewrite Int_part_IZR.
  destruct (Rlt_dec (IZR k - IZR k) (1 / 2)) as [_|H]; [reflexivity|].
  exfalso. apply H. lra.
Qed.

Lemma nearest_even_le (a b : R) : a <= b -> (nearest_even a <= nearest_even b)%Z.
Proof.
  intro Hab. pose proof (Int_part_le a b Hab) as Hint.
  destruct (Z.eq_dec (Int_part a) (Int_part b)) as [E|NE].
  - unfold nearest_even. cbv zeta. rewrite <- E.
    destruct (Rlt_dec (a - IZR (Int_part a)) (1 / 2)) as [Ha|Ha].
    + destruct (Rlt_dec (b - IZR (Int_part a)) (1 / 2)); [lia|].
      destruct (Rlt_dec (1 / 2) (b - IZR (Int_part a))); [lia|].
      destruct (Z.even (Int_part a)); lia.
    + destruct (Rlt_dec (b - IZR (Int_part a)) (1 / 2)) as [Hb|Hb]; [lra|].
      destruct (Rlt_dec (1 / 2) (a - IZR (Int_part a))) as [Ha'|Ha'].
      * destruct (Rlt_dec (1 / 2) (b - IZR (Int_part a))) as [Hb'|Hb']; [lia | lra].
      * destruct (Rlt_dec (1 / 2) (b - IZR (Int_part a))) as [Hb'|Hb'].
        -- destruct (Z.even (Int_part a)); lia.
        -- lia.
  - pose proof (nearest_even_bounds a). pose proof (nearest_even_bounds b). lia.
Qed.

Lemma round_f32_pos_eq (x : R) :
  0 < x ->
  round_f32 x
  = IZR (nearest_even (x / powerRZ 2 (Z.max (floor_log2 x) (-126) - 23)))
    * powerRZ 2 (Z.max (floor_log2 x) (-126) - 23).
Proof.
  intro Hx. unfold round_f32, ulp_exponent.
  destruct (Req_dec_T x 0) as [E|_]; [lra|].
  now rewrite (Rabs_pos_eq x) by lra.
Qed.

(** A number whose quotient by its spacing is an integer is a float32. *)
Lemma round_f32_exact (x : R) (z k : Z) :
  powerRZ 2 z <= Rabs x < powerRZ 2 (z + 1) -> (-126 <= z)%Z ->
  x = IZR k * powerRZ 2 (z - 23) -> round_f32 x = x.
Proof.
  intros Hx Hz Hk. pose proof (powerRZ2_pos (z - 23)).
  unfold round_f32, ulp_exponent. destruct (Req_dec_T x 0) as [E|_]; [now symmetry|].
  rewrite (floor_log2_unique (Rabs x) z Hx), Z.max_l by lia.
  rewrite Hk at 1. unfold Rdiv. rewrite Rmult_assoc, Rinv_r by lra.
  rewrite Rmult_1_r, nearest_even_IZR. now symmetry.
Qed.

Lemma round_f32_le (x y : R) : 0 < x -> x <= y -> round_f32 x <= round_f32 y.
Proof.
  intros Hx Hxy. assert (Hy : 0 < y) by lra.
  rewrite (round_f32_pos_eq x Hx), (round_f32_pos_eq y Hy).
  pose proof (floor_log2_le x y Hx Hxy) as Hfl.
  set (ex := Z.max (floor_log2 x) (-126)). set (ey := Z.max (floor_log2 y) (-126)).
  assert (Hexy : (ex <= ey)%Z) by (subst ex ey; lia).
  pose proof (powerRZ2_pos (ex - 23)) as Hux. pose proof (powerRZ2_pos (ey - 23)) as Huy.
  destruct (Z.eq_dec ex ey) as [E|NE].
  - rewrite <- E. apply Rmult_le_compat_r; [lra|]. apply IZR_le, nearest_even_le.
    apply Rmult_le_compat_r; [left; now apply Rinv_0_lt_compat | exact Hxy].
  - assert (Hlt : (ex < ey)%Z) by lia.
    assert (Hey : ey = floor_log2 y) by (subst ex ey; lia).
    pose proof (floor_log2_spec x Hx) as [_ Hxhi].
    pose proof (floor_log2_spec y Hy) as [Hylo _]. rewrite <- Hey in Hylo.
    apply Rle_trans with (powerRZ 2 (ex + 1)).
    + assert (Hx24 : x / powerRZ 2 (ex - 23) <= IZR 16777216).
      { apply (Rmult_le_reg_r (powerRZ 2 (ex - 23))); [exact Hux|].
        unfold Rdiv. rewrite Rmult_assoc, Rinv_l, Rmult_1_r by lra.
        rewrite <- powerRZ2_24.
        rewrite <- powerRZ2_add. replace (24 + (ex - 23))%Z with (ex + 1)%Z by lia.
        apply Rle_trans with (powerRZ 2 (floor_log2 x + 1)); [lra|].
        apply powerRZ2_le. subst ex. lia. }
      apply nearest_even_le in Hx24. rewrite nearest_even_IZR in Hx24.
      apply IZR_le in Hx24.
      replace (powerRZ 2 (ex + 1)) with (IZR 16777216 * powerRZ 2 (ex - 23)).
      * apply Rmult_le_compat_r; lra.
      * rewrite <- powerRZ2_24.
        rewrite <- powerRZ2_add. f_equal. lia.
    + apply Rle_trans with (powerRZ 2 ey); [apply powerRZ2_le; lia|].
      assert (Hy23 : IZR 8388608 <= y / powerRZ 2 (ey - 23)).
      { apply (Rmult_le_reg_r (powerRZ 2 (ey - 23))); [exact Huy|].
        unfold Rdiv. rewrite Rmult_assoc, Rinv_l, Rmult_1_r by lra.
        rewrite <- powerRZ2_23.
        rewrite <- powerRZ2_add. replace (23 + (ey - 23))%Z with ey by lia. exact Hylo. }
      apply nearest_even_le in Hy23. rewrite nearest_even_IZR in Hy23.
      apply IZR_le in Hy23.
      replace (powerRZ 2 ey) with (IZR 8388608 * powerRZ 2 (ey - 23)).
      * apply Rmult_le_compat_r; lra.
      * rewrite <- powerRZ2_23.
        rewrite <- powerRZ2_add. f_equal. lia.
Qed.

Lemma exp_f32_le : non_decreasing exp_f32.
Proof.
  intros x y H. unfold exp_f32. apply round_f32_le; [apply exp_pos|].
  destruct H as [H| ->]; [left; now apply exp_increasing | lra].
Qed.

End Rounding.

(** ** The class of a row whose largest entry stands alone *)

Lemma skipn_cons_nth (full l : list R) (x : R) (i : nat) :
  skipn i full = x :: l -> nth i full 0%R = x /\ skipn (S i) full = l.
Proof.
  revert full. induction i as [|i IH]; intros [|a full] H; try discriminate.
  - cbn in H. injection H as -> ->. split; reflexivity.
  - cbn [skipn] in H. destruct (IH full H) as [H1 H2]. split; [exact H1 | exact H2].
Qed.

Lemma argmax_from_largest (full l : list R) (best_i i : nat) (best : R) :
  skipn i full = l -> i + length l = length full ->
  best_i < i -> best = nth best_i full 0%R ->
  (forall j, j < i -> (nth j full 0 <= best)%R) ->
  largest_at full (argmax_from best_i best i l).
Proof.
  revert best_i i best. induction l as [|x l IH]; intros best_i i best Hs Hlen Hb He Hmax.
  - cbn [argmax_from]. cbn [length] in Hlen. split; [lia|].
    intros j Hj. rewrite <- He. apply Hmax. lia.
  - cbn [argmax_from]. cbn [length] in Hlen.
    destruct (skipn_cons_nth full l x i Hs) as [Hx Hs'].
    destruct (Rlt_dec best x) as [Hlt|Hge].
    + apply IH; [exact Hs' | lia | lia | now symmetry |].
      intros j Hj. destruct (Nat.eq_dec j i) as [->|Hne]; [rewrite Hx; lra|].
      assert (Hj' : j < i) by lia. specialize (Hmax j Hj'). lra.
    + apply IH; [exact Hs' | lia | lia | exact He |].
      intros j Hj. destruct (Nat.eq_dec j i) as [->|Hne]; [rewrite Hx; lra|].
      apply Hmax. lia.
Qed.

(** [argmax] reports an index that holds a largest entry. *)
Lemma argmax_largest (l : list R) : l <> [] -> largest_at l (argmax l).
Proof.
  destruct l as [|x l]; [contradiction|]. intros _. cbn [argmax].
  apply argmax_from_largest; [reflexivity | reflexivity | lia | reflexivity |].
  intros j Hj. assert (j = 0) as -> by lia. cbn. lra.
Qed.

Lemma nth_map_lt (f : R -> R) (l : list R) (i : nat) :
  i < length l -> nth i (map f l) 0%R = f (nth i l 0%R).
Proof.
  intro Hi. rewrite (nth_indep (map f l) 0%R (f 0%R)) by (now rewrite length_map).
  apply map_nth.
Qed.

Lemma largest_at_map (f : R -> R) (row : list R) (j : nat) :
  non_decreasing f ->
  largest_at row j -> largest_at (map f row) j.
Proof.
  intros Hf [Hj Hmax]. split; [now rewrite length_map|].
  intros k Hk. rewrite length_map in Hk.
  rewrite !nth_map_lt by assumption. apply Hf. now apply Hmax.
Qed.

Lemma untied_largest (f : R -> R) (row : list R) (i j : nat) :
  non_decreasing f ->
  untied (map f row) -> largest_at (map f row) i -> largest_at row j -> i = j.
Proof.
  intros Hf Hu Hi Hj. apply Hu; [exact Hi|]. now apply largest_at_map.
Qed.

Lemma untied_argmax (f : R -> R) (row : list R) :
  non_decreasing f ->
  untied (map f row) -> argmax (map f row) = argmax row.
Proof.
  intros Hf Hu. destruct row as [|x row]; [reflexivity|].
  apply (untied_largest f (x :: row)); [exact Hf | exact Hu | |].
  - apply argmax_largest. discriminate.
  - apply argmax_largest. discriminate.
Qed.

Lemma topk1_classes_length (ps : Tensor) (n c : nat) :
  shape ps = [n; c] -> 0 < c ->
  exists classes, length classes = n /\ rmap snd (topk1_dim1 ps) = Ok classes.
Proof.
  intros Hs Hc. unfold topk1_dim1. rewrite Hs.
  destruct (c =? 0) eqn:E; [apply Nat.eqb_eq in E; lia|].
  exists (map argmax (chunks c n (data ps))). split; [|reflexivity].
  now rewrite length_map, chunks_length.
Qed.

Lemma untied_topk1 (f : R -> R) (log_ps : Tensor) :
  non_decreasing f ->
  Forall untied (rows_of (tmap f log_ps)) ->
  rmap snd (topk1_dim1 (tmap f log_ps)) = rmap snd (topk1_dim1 log_ps).
Proof.
  intros Hf Hu. unfold topk1_dim1, rows_of, tmap in *. cbn [shape data] in *.
  destruct (shape log_ps) as [|n [|c [|? ?]]]; try reflexivity.
  destruct (c =? 0); [reflexivity|]. cbn [rmap rbind snd]. f_equal.
  rewrite chunks_map in *. rewrite map_map.
  rewrite Forall_forall in Hu. apply map_ext_in. intros row Hrow.
  apply untied_argmax; [exact Hf|]. apply Hu. now apply in_map.
Qed.

Lemma untied_pair (a b : R) : (a < b)%R -> untied [a; b].
Proof.
  intros Hab i j [Hi Hmi] [Hj Hmj]. cbn [length] in *.
  assert (Hi1 : i = 1).
  { destruct i as [|[|i]]; [|reflexivity|lia].
    specialize (Hmi 1 ltac:(lia)). cbn in Hmi. lra. }
  assert (Hj1 : j = 1).
  { destruct j as [|[|j]]; [|reflexivity|lia].
    specialize (Hmj 1 ltac:(lia)). cbn in Hmj. lra. }
  congruence.
Qed.

(** ** Two neighbouring log-probabilities with one exponential *)

Section Enclosure.

Local Open Scope R_scope.

(** For [0 <= y <= 1] the series of [exp (- y)] alternates with decreasing
    terms, so that its partial sums enclose the value. *)
Lemma exp_neg_enclosure (y : R) (N : nat) :
  0 <= y <= 1 ->
  sum_f_R0 (tg_alt (fun i => y ^ i / INR (fact i))) (S (2 * N)) <= exp (- y)
  <= sum_f_R0 (tg_alt (fun i => y ^ i / INR (fact i))) (2 * N).
Proof.
  intros [Hy0 Hy1]. apply alternated_series_ineq.
  - intro n. unfold Rdiv.
    pose proof (INR_fact_lt_0 n) as Hn. pose proof (INR_fact_lt_0 (S n)) as HSn.
    assert (Hp : 0 <= y ^ n) by (now apply pow_le).
    apply Rle_trans with (y ^ n * / INR (fact (S n))).
    + apply Rmult_le_compat_r; [left; now apply Rinv_0_lt_compat|].
      cbn [pow]. rewrite <- (Rmult_1_l (y ^ n)) at 2.
      apply Rmult_le_compat_r; assumption.
    + apply Rmult_le_compat_l; [exact Hp|].
      apply Rinv_le_contravar; [exact Hn|].
      apply le_INR, fact_le. lia.
  - exact (cv_speed_pow_fact y).
  - unfold exp. destruct (exist_exp (- y)) as (l & Hl). cbn [proj1_sig].
    unfold exp_in, infinite_sum in Hl. intros eps Heps.
    destruct (Hl eps Heps) as (n0 & Hn0). exists n0. intros n Hn.
    replace (sum_f_R0 (tg_alt (fun i => y ^ i / INR (fact i))) n)
      with (sum_f_R0 (fun i => / INR (fact i) * (- y) ^ i) n); [now apply Hn0|].
    apply sum_eq. intros i _. unfold tg_alt.
    replace (- y) with (-1 * y) by lra. rewrite Rpow_mult_distr. unfold Rdiv. ring.
Qed.

Lemma INR_fact_S (n : nat) : INR (fact (S n)) = INR (S n) * INR (fact n).
Proof. rewrite fact_simpl. apply mult_INR. Qed.

(** The partial sums of order 10 and 11, written out. *)
Lemma exp_neg_enclosure_11 (y : R) :
  0 <= y <= 1 ->
  1 - y + y ^ 2 / 2 - y ^ 3 / 6 + y ^ 4 / 24 - y ^ 5 / 120 + y ^ 6 / 720
  - y ^ 7 / 5040 + y ^ 8 / 40320 - y ^ 9 / 362880 + y ^ 10 / 3628800
  - y ^ 11 / 39916800
  <= exp (- y)
  <= 1 - y + y ^ 2 / 2 - y ^ 3 / 6 + y ^ 4 / 24 - y ^ 5 / 120 + y ^ 6 / 720
     - y ^ 7 / 5040 + y ^ 8 / 40320 - y ^ 9 / 362880 + y ^ 10 / 3628800.
Proof.
  intro Hy. pose proof (exp_neg_enclosure y 5 Hy) as [Hlo Hhi].
  change (S (2 * 5))%nat with 11%nat in Hlo. change (2 * 5)%nat with 10%nat in Hhi.
  cbn [sum_f_R0] in Hlo, Hhi. unfold tg_alt in Hlo, Hhi.
  repeat rewrite INR_fact_S in Hlo. repeat rewrite INR_fact_S in Hhi.
  change (fact 0) with 1%nat in Hlo, Hhi. cbn [INR] in Hlo, Hhi.
  split; [clear Hhi Hy | clear Hlo Hy]; lra.
Qed.

Lemma exp_lp_low : 1 / 2 - / 67108864 < exp lp_low < 1 / 2.
Proof.
  unfold lp_low.
  replace (- 11629080 / 16777216) with (- (11629080 / 16777216)) by lra.
  pose proof (exp_neg_enclosure_11 (11629080 / 16777216) ltac:(lra)) as [Hlo Hhi].
  split.
  - eapply Rlt_le_trans; [|exact Hlo]. lra.
  - eapply Rle_lt_trans; [exact Hhi|]. lra.
Qed.

Lemma exp_lp_high : 1 / 2 <= exp lp_high < 1 / 2 + / 33554432.
Proof.
  unfold lp_high.
  replace (- 11629079 / 16777216) with (- (11629079 / 16777216)) by lra.
  pose proof (exp_neg_enclosure_11 (11629079 / 16777216) ltac:(lra)) as [Hlo Hhi].
  split.
  - eapply Rle_trans; [|exact Hlo]. lra.
  - eapply Rle_lt_trans; [exact Hhi|]. lra.
Qed.

Lemma powerRZ2_m1 : powerRZ 2 (-1) = / 2.
Proof. change (powerRZ 2 (-1)) with (/ 2 ^ 1). lra. Qed.

Lemma powerRZ2_m2 : powerRZ 2 (-2) = / 4.
Proof. change (powerRZ 2 (-2)) with (/ 2 ^ 2). lra. Qed.

Lemma powerRZ2_0 : powerRZ 2 0 = 1.
Proof. reflexivity. Qed.

Lemma powerRZ2_m24 : powerRZ 2 (-24) = / 16777216.
Proof. change (powerRZ 2 (-24)) with (/ 2 ^ 24). lra. Qed.

Lemma powerRZ2_m25 : powerRZ 2 (-25) = / 33554432.
Proof. change (powerRZ 2 (-25)) with (/ 2 ^ 25). lra. Qed.

(** Just below 1/2 the float32 numbers are [2^-25] apart, from 1/2 on
    [2^-24]: everything within half a step of 1/2 is rounded to it. *)
Lemma round_f32_below_half (x : R) :
  1 / 2 - / 67108864 < x < 1 / 2 -> round_f32 x = 1 / 2.
Proof.
  intros [Hlo Hhi]. rewrite round_f32_pos_eq by lra.
  rewrite (floor_log2_unique x (-2))
    by (change (-2 + 1)%Z with (-1)%Z; rewrite powerRZ2_m2, powerRZ2_m1; lra).
  change (Z.max (-2) (-126) - 23)%Z with (-25)%Z. rewrite powerRZ2_m25.
  unfold nearest_even. cbv zeta.
  assert (Hint : Int_part (x / / 33554432) = 16777215%Z).
  { symmetry. apply Int_part_spec. unfold Rdiv. rewrite Rinv_inv. lra. }
  rewrite Hint. unfold Rdiv. rewrite Rinv_inv.
  destruct (Rlt_dec (x * 33554432 - 16777215) _) as [H|_]; [lra|].
  destruct (Rlt_dec _ (x * 33554432 - 16777215)) as [_|H]; [|lra].
  change (16777215 + 1)%Z with 16777216%Z. lra.
Qed.

Lemma round_f32_above_half (x : R) :
  1 / 2 <= x < 1 / 2 + / 33554432 -> round_f32 x = 1 / 2.
Proof.
  intros [Hlo Hhi]. rewrite round_f32_pos_eq by lra.
  rewrite (floor_log2_unique x (-1))
    by (change (-1 + 1)%Z with 0%Z; rewrite powerRZ2_m1, powerRZ2_0; lra).
  change (Z.max (-1) (-126) - 23)%Z with (-24)%Z. rewrite powerRZ2_m24.
  unfold nearest_even. cbv zeta.
  assert (Hint : Int_part (x / / 16777216) = 8388608%Z).
  { symmetry. apply Int_part_spec. unfold Rdiv. rewrite Rinv_inv. lra. }
  rewrite Hint. unfold Rdiv. rewrite Rinv_inv.
  destruct (Rlt_dec (x * 16777216 - 8388608) _) as [_|H]; [lra|lra].
Qed.

Lemma exp_f32_lp_low : exp_f32 lp_low = 1 / 2.
Proof. apply round_f32_below_half, exp_lp_low. Qed.

Lemma exp_f32_lp_high : exp_f32 lp_high = 1 / 2.
Proof. apply round_f32_above_half, exp_lp_high. Qed.

Lemma powerRZ2_1 : powerRZ 2 1 = 2.
Proof. change (powerRZ 2 1) with (2 ^ 1). lra. Qed.

Lemma powerRZ2_m23 : powerRZ 2 (-23) = / 8388608.
Proof. change (powerRZ 2 (-23)) with (/ 2 ^ 23). lra. Qed.

Lemma round_f32_1 : round_f32 1 = 1.
Proof.
  apply (round_f32_exact 1 0 8388608).
  - rewrite Rabs_R1. change (0 + 1)%Z with 1%Z. rewrite powerRZ2_0, powerRZ2_1. lra.
  - lia.
  - change (0 - 23)%Z with (-23)%Z. rewrite powerRZ2_m23. lra.
Qed.

Lemma round_f32_half : round_f32 (1 / 2) = 1 / 2.
Proof. apply round_f32_above_half. lra. Qed.

Lemma exp_f32_0 : exp_f32 0 = 1.
Proof. unfold exp_f32. rewrite exp_0. exact round_f32_1. Qed.

Lemma exp_f32_m1 : exp_f32 (-1) <= 1 / 2.
Proof.
  unfold exp_f32. rewrite <- round_f32_half. apply round_f32_le; [apply exp_pos|].
  pose proof (exp_neg_enclosure_11 1 ltac:(lra)) as [_ Hhi].
  change (exp (Ropp 1)) with (exp (-1)) in Hhi. lra.
Qed.

(** The two log-probabilities are float32 numbers. *)
Lemma round_f32_lp_low : round_f32 lp_low = lp_low.
Proof.
  apply (round_f32_exact lp_low (-1) (-11629080)).
  - unfold lp_low. rewrite Rabs_left by lra.
    change (-1 + 1)%Z with 0%Z. rewrite powerRZ2_m1, powerRZ2_0. lra.
  - lia.
  - change (-1 - 23)%Z with (-24)%Z. rewrite powerRZ2_m24. unfold lp_low. lra.
Qed.

Lemma round_f32_lp_high : round_f32 lp_high = lp_high.
Proof.
  apply (round_f32_exact lp_high (-1) (-11629079)).
  - unfold lp_high. rewrite Rabs_left by lra.
    change (-1 + 1)%Z with 0%Z. rewrite powerRZ2_m1, powerRZ2_0. lra.
  - lia.
  - change (-1 - 23)%Z with (-24)%Z. rewrite powerRZ2_m24. unfold lp_high. lra.
Qed.

End Enclosure.

(** C7. The class [topk(1, dim=1)] reports after [torch.exp] is the class
    of the largest log-probability on every row whose largest exponential
    stands alone.  The float32 exponential keeps the order of two numbers
    but may merge them: it is non-decreasing, not strictly increasing.  For
    such a function a largest entry of the row is still a largest entry of
    the exponentiated row; where the exponentiated row has its largest entry
    in one place only, that place is the place of the largest
    log-probability, and on a batch of [n] such rows of [c > 0] classes
    [topk] returns the same [n] classes with and without [torch.exp]. *)
Theorem predicted_class_of_untied_rows :
  non_decreasing exp_f32 /\
  forall f : R -> R, non_decreasing f ->
    (forall (row : list R) (j : nat), largest_at row j -> largest_at (map f row) j) /\
    (forall (row : list R) (i j : nat),
        untied (map f row) -> largest_at (map f row) i -> largest_at row j -> i = j) /\
    (forall row : list R, untied (map f row) -> argmax (map f row) = argmax row) /\
    (forall (log_ps : Tensor) (n c : nat),
        shape log_ps = [n; c] -> 0 < c -> Forall untied (rows_of (tmap f log_ps)) ->
        exists classes : list nat,
          length classes = n /\
          rmap snd (topk1_dim1 (tmap f log_ps)) = Ok classes /\
          rmap snd (topk1_dim1 log_ps) = Ok classes).
Proof.
  split; [exact exp_f32_le|]. intros f Hf.
  split; [intros row j; now apply largest_at_map|].
  split; [intros row i j; now apply untied_largest|].
  split; [intro row; now apply untied_argmax|].
  intros log_ps n c Hs Hc Hu.
  destruct (topk1_classes_length log_ps n c Hs Hc) as (classes & Hlen & Hcl).
  exists classes. split; [exact Hlen|]. split; [|exact Hcl].
  rewrite <- Hcl. now apply untied_topk1.
Qed.

Lemma exp_row_untied : untied (map exp_f32 [-1; 0]%R).
Proof.
  cbn [map]. apply untied_pair. rewrite exp_f32_0.
  pose proof exp_f32_m1. lra.
Qed.

Lemma predicted_class_of_untied_rows_witness :
  (-1 <= 0)%R /\ (exp_f32 (-1) <= exp_f32 0)%R /\
  largest_at [-1; 0]%R 1 /\ largest_at (map exp_f32 [-1; 0]%R) 1 /\
  untied (map exp_f32 [-1; 0]%R) /\
  argmax (map exp_f32 [-1; 0]%R) = argmax [-1; 0]%R /\
  shape log_ps_untied = [1; 2] /\ 0 < 2 /\
  Forall untied (rows_of (texp_f32 log_ps_untied)) /\
  exists classes : list nat,
    length classes = 1 /\
    rmap snd (topk1_dim1 (texp_f32 log_ps_untied)) = Ok classes /\
    rmap snd (topk1_dim1 log_ps_untied) = Ok classes.
Proof.
  destruct predicted_class_of_untied_rows as (Hmono & Hgen).
  destruct (Hgen exp_f32 Hmono) as (Hkeep & Hone & Harg & Htopk).
  assert (H10 : (-1 <= 0)%R) by lra.
  assert (Hl : largest_at [-1; 0]%R 1).
  { split; [cbn; lia|]. intros [|[|j]] Hj; cbn in *; try lra; lia. }
  assert (Hrows : Forall untied (rows_of (texp_f32 log_ps_untied))).
  { constructor; [exact exp_row_untied | constructor]. }
  split; [exact H10|]. split; [exact (Hmono _ _ H10)|].
  split; [exact Hl|]. split; [exact (Hkeep _ _ Hl)|].
  split; [exact exp_row_untied|]. split; [exact (Harg _ exp_row_untied)|].
  split; [reflexivity|]. split; [lia|]. split; [exact Hrows|].
  exact (Htopk log_ps_untied 1 2 eq_refl ltac:(lia) Hrows).
Defined.

(** Two neighbouring float32 log-probabilities, -0.6931472 and -0.6931471,
    whose exponentials add up to 1 within a ten-millionth: both exponentials
    are rounded to 0.5.  Class 0 then holds a largest exponential without
    holding the largest log-probability; [topk], taking the first of the
    two equal exponentials, reports class 0 after [torch.exp] and class 1
    without it. *)
Lemma float32_exp_ties_two_classes :
  (lp_low < lp_high)%R /\
  round_f32 lp_low = lp_low /\ round_f32 lp_high = lp_high /\
  (Rabs (exp lp_low + exp lp_high - 1) < / 10000000)%R /\
  exp_f32 lp_low = (1 / 2)%R /\ exp_f32 lp_high = (1 / 2)%R /\
  largest_at (map exp_f32 [lp_low; lp_high]) 0 /\
  ~ largest_at [lp_low; lp_high] 0 /\
  rmap snd (topk1_dim1 (texp_f32 log_ps_tied)) = Ok [0] /\
  rmap snd (topk1_dim1 log_ps_tied) = Ok [1].
Proof.
  assert (Hlt : (lp_low < lp_high)%R) by (unfold lp_low, lp_high; lra).
  split; [exact Hlt|].
  split; [exact round_f32_lp_low|]. split; [exact round_f32_lp_high|].
  split.
  { pose proof exp_lp_low. pose proof exp_lp_high.
    apply Rabs_def1; lra. }
  split; [exact exp_f32_lp_low|]. split; [exact exp_f32_lp_high|].
  split.
  { cbn [map]. rewrite exp_f32_lp_low, exp_f32_lp_high.
    split; [cbn; lia|]. intros [|[|j]] Hj; cbn in *; try lra; lia. }
  split.
  { intros [_ H]. specialize (H 1 ltac:(cbn; lia)). cbn in H. lra. }
  split.
  - unfold topk1_dim1, texp_f32, tmap, log_ps_tied.
    cbn [shape data Nat.eqb chunks map firstn skipn rmap rbind snd].
    rewrite exp_f32_lp_low, exp_f32_lp_high.
    unfold argmax. cbn [argmax_from].
    destruct (Rlt_dec (1 / 2) (1 / 2)) as [H|_]; [lra | reflexivity].
  - unfold topk1_dim1, log_ps_tied.
    cbn [shape data Nat.eqb chunks map firstn skipn rmap rbind snd].
    unfold argmax. cbn [argmax_from].
    destruct (Rlt_dec lp_low lp_high) as [_|H]; [reflexivity | contradiction].
Qed.

(** ** The calls of the loops, one by one *)

Section CallEffects.

Context {Mdl O : Type} {Mod : Module Mdl} {AG : Autograd Mdl} {Opt : Optimizer Mdl O}.

Lemma zero_grad_effect (w : World Mdl O) :
  optimizer_zero_grad w
  = (Ok tt, mkWorld (model w) (training w) (option_map (map (fun _ => 0%R)) (grad w))
              (grad_enabled w) (rng w) (optimizer w) (trace w ++ [EZeroGrad])).
Proof. reflexivity. Qed.

Lemma model_call_effect (x : Tensor) (w : World Mdl O) :
  exists r g,
    model_call x w
    = (r, mkWorld (model w) (training w) (grad w) (grad_enabled w) g (optimizer w)
            (trace w ++ [EForward (training w) (grad_enabled w)])).
Proof.
  unfold model_call, emit. cbn [model training grad grad_enabled rng optimizer trace].
  destruct (Module_forward (model w) (training w) x (rng w)) as [[y|e] g];
    eexists _, g; reflexivity.
Qed.

Lemma criterion_effect (output : Var) (labels : list nat) (w : World Mdl O) :
  exists r,
    criterion output labels w
    = (r, mkWorld (model w) (training w) (grad w) (grad_enabled w) (rng w) (optimizer w)
            (trace w ++ [ELoss])).
Proof.
  unfold criterion, bind, emit, lift, ret.
  destruct (NLLLoss (value output) labels); eexists; reflexivity.
Qed.

Lemma loss_backward_effect (loss : Loss) (w : World Mdl O) :
  exists r gr,
    loss_backward loss w
    = (r, mkWorld (model w) (training w) gr (grad_enabled w) (rng w) (optimizer w)
            (trace w ++ [EBackward])).
Proof.
  unfold loss_backward, bind, emit.
  cbn [model training grad grad_enabled rng optimizer trace].
  destruct (loss_grad_fn loss) as [[tp labels]|]; eexists _, _; reflexivity.
Qed.

Lemma optimizer_step_effect (w : World Mdl O) :
  optimizer_step w
  = (Ok tt, mkWorld (snd (update (optimizer w) (model w) (grad w))) (training w) (grad w)
              (grad_enabled w) (rng w) (fst (update (optimizer w) (model w) (grad w)))
              (trace w ++ [EStep])).
Proof.
  unfold optimizer_step, bind, emit.
  cbn [model training grad grad_enabled rng optimizer trace].
  destruct (update (optimizer w) (model w) (grad w)); reflexivity.
Qed.

Ltac raised evs rest :=
  cbn [model training grad grad_enabled rng optimizer trace];
  split; [reflexivity|]; split; [reflexivity|];
  exists evs, rest;
  split; [now rewrite <- ?app_assoc|];
  split; [reflexivity|];
  split; [discriminate|]; split; reflexivity.

Lemma training_calls_effect (images : Tensor) (labels : list nat)
      (running_loss : R) (w : World Mdl O) :
  exists r w',
    (optimizer_zero_grad ;;;
     output <- model_call images ;;
     loss <- criterion output labels ;;
     loss_backward loss ;;;
     optimizer_step ;;;
     emit EAccum ;;;
     ret (running_loss + item loss)%R) w = (r, w') /\
    step_effect r w w'.
Proof.
  unfold bind at 1. rewrite zero_grad_effect.
  set (w1 := mkWorld _ _ _ _ _ _ _).
  unfold bind at 1.
  destruct (model_call_effect images w1) as (r1 & g1 & E1). rewrite E1.
  set (w2 := mkWorld _ _ _ _ _ _ _).
  destruct r1 as [output|e]; cycle 1.
  { eexists _, _. split; [reflexivity|]. unfold step_effect, step_calls. subst w2 w1.
    raised [EZeroGrad; EForward (training w) (grad_enabled w)]
           [ELoss; EBackward; EStep; EAccum]. }
  unfold bind at 1.
  destruct (criterion_effect output labels w2) as (r2 & E2). rewrite E2.
  set (w3 := mkWorld _ _ _ _ _ _ _).
  destruct r2 as [loss|e]; cycle 1.
  { eexists _, _. split; [reflexivity|]. unfold step_effect, step_calls. subst w3 w2 w1.
    raised [EZeroGrad; EForward (training w) (grad_enabled w); ELoss]
           [EBackward; EStep; EAccum]. }
  unfold bind at 1.
  destruct (loss_backward_effect loss w3) as (r3 & gr & E3). rewrite E3.
  set (w4 := mkWorld _ _ _ _ _ _ _).
  destruct r3 as [[]|e]; cycle 1.
  { eexists _, _. split; [reflexivity|]. unfold step_effect, step_calls. subst w4 w3 w2 w1.
    raised [EZeroGrad; EForward (training w) (grad_enabled w); ELoss; EBackward]
           [EStep; EAccum]. }
  unfold bind at 1. rewrite optimizer_step_effect.
  unfold bind, emit, ret.
  eexists _, _. split; [reflexivity|]. unfold step_effect, step_calls. subst w4 w3 w2 w1.
  cbn [model training grad grad_enabled rng optimizer trace].
  split; [reflexivity|]. split; [reflexivity|].
  exists [EZeroGrad; EForward (training w) (grad_enabled w); ELoss; EBackward; EStep; EAccum], [].
  split; [now rewrite <- ?app_assoc|]. split; [reflexivity|]. split; [reflexivity|].
  exists gr. now rewrite <- surjective_pairing.
Qed.

Lemma part5_step_effect (b : Batch) (running_loss : R) (w : World Mdl O) :
  exists r w', part5_step b running_loss w = (r, w') /\ step_effect r w w'.
Proof. destruct b as [images labels]. apply training_calls_effect. Qed.

Lemma part3_step_effect (b : Batch) (running_loss : R) (w : World Mdl O) :
  exists r w', part3_step b running_loss w = (r, w') /\ step_effect r w w'.
Proof.
  destruct b as [images labels]. unfold part3_step.
  assert (Hnone : forall e, step_effect (Raise e) w w).
  { intro e. split; [reflexivity|]. split; [reflexivity|].
    exists [], (step_calls (training w) (grad_enabled w)).
    split; [now rewrite app_nil_r|]. split; [reflexivity|].
    split; [discriminate|]. split; reflexivity. }
  unfold bind at 1, lift at 1.
  destruct (shape0 images) as [n|e]; [|eexists _, _; split; [reflexivity|apply Hnone]].
  unfold bind at 1, lift at 1.
  destruct (view_infer images n) as [flat|e]; [|eexists _, _; split; [reflexivity|apply Hnone]].
  apply training_calls_effect.
Qed.



End CallEffects.

(** ** The loops *)

Section Loops.

Context {Mdl O : Type} {Mod : Module Mdl} {AG : Autograd Mdl} {Opt : Optimizer Mdl O}.


Lemma validation_step_effect (b : Batch) (acc : R * R) (w : World Mdl O) :
  exists r w' evs,
    validation_step b acc w = (r, w') /\
    validation_effect w w' (EForward (training w) (grad_enabled w) :: evs).
Proof.
  destruct b as [images labels]. destruct acc as [test_loss accuracy].
  unfold validation_step. unfold bind at 1.
  destruct (model_call_effect images w) as (r1 & g1 & E1). rewrite E1.
  set (w1 := mkWorld _ _ _ _ _ _ _).
  destruct r1 as [log_ps|e].
  - unfold bind at 1.
    destruct (criterion_effect log_ps labels w1) as (r2 & E2). rewrite E2.
    set (w2 := mkWorld _ _ _ _ _ _ _).
    assert (Heff : validation_effect w w2 [EForward (training w) (grad_enabled w); ELoss]).
    { subst w2 w1. unfold validation_effect.
      cbn [model training grad grad_enabled rng optimizer trace].
      repeat (split; [reflexivity|]). split; [now rewrite <- app_assoc|].
      apply Forall_cons; [now left|]. apply Forall_cons; [now right|]. constructor. }
    destruct r2 as [l|e]; [|exists (Raise e), w2, [ELoss]; now split].
    unfold bind, lift, ret.
    destruct (topk1_dim1 (texp (value log_ps))) as [top|e];
      [|exists (Raise e), w2, [ELoss]; now split].
    destruct (equals_labels (snd top) labels) as [equals|e];
      [|exists (Raise e), w2, [ELoss]; now split].
    eexists _, w2, [ELoss]. now split.
  - exists (Raise e), w1, []. split; [reflexivity|].
    subst w1. unfold validation_effect.
    cbn [model training grad grad_enabled rng optimizer trace].
    repeat (split; [reflexivity|]).
    apply Forall_cons; [now left|constructor].
Qed.

Lemma validation_effect_trans (w w1 w2 : World Mdl O) (evs evs' : list Event) :
  validation_effect w w1 evs -> validation_effect w1 w2 evs' ->
  validation_effect w w2 (evs ++ evs').
Proof.
  intros (Hm & Ho & Hg & Htr & Hge & Ht & Hf) (Hm' & Ho' & Hg' & Htr' & Hge' & Ht' & Hf').
  unfold validation_effect. repeat (split; [congruence|]). split.
  - rewrite Ht', Ht. now rewrite app_assoc.
  - apply Forall_app. split; [exact Hf|]. now rewrite <- Htr, <- Hge.
Qed.

Lemma validation_loop_effect (testloader : list Batch) (acc : R * R) (w : World Mdl O) :
  exists r w' evs,
    for_each validation_step testloader acc w = (r, w') /\
    validation_effect w w' evs /\
    (testloader <> [] ->
     exists evs', evs = EForward (training w) (grad_enabled w) :: evs').
Proof.
  revert acc w. induction testloader as [|b testloader IH]; intros acc w.
  - exists (Ok acc), w, []. split; [reflexivity|]. split; [|congruence].
    unfold validation_effect. repeat (split; [reflexivity|]).
    split; [now rewrite app_nil_r|constructor].
  - cbn [for_each]. unfold bind at 1.
    destruct (validation_step_effect b acc w) as (r & w1 & evs & E & Heff). rewrite E.
    destruct r as [acc1|e].
    + destruct (IH acc1 w1) as (r' & w' & evs' & E' & Heff' & _).
      exists r', w', ((EForward (training w) (grad_enabled w) :: evs) ++ evs').
      split; [exact E'|]. split; [now apply (validation_effect_trans w w1 w')|].
      intros _. now exists (evs ++ evs').
    + exists (Raise e), w1, (EForward (training w) (grad_enabled w) :: evs).
      split; [reflexivity|]. split; [exact Heff|]. intros _. now exists evs.
Qed.

(** The pass as a whole: inside the [with] block the gradient mode is off,
    after it the mode is the one found on entry. *)
Lemma validation_pass_effect (testloader : list Batch) (w : World Mdl O) :
  exists r w' evs,
    validation_pass testloader w = (r, w') /\
    model w' = model w /\ optimizer w' = optimizer w /\ grad w' = grad w /\
    training w' = training w /\ grad_enabled w' = grad_enabled w /\
    trace w' = trace w ++ evs /\
    Forall (validation_call (training w) false) evs /\
    (testloader <> [] -> exists evs', evs = EForward (training w) false :: evs').
Proof.
  unfold validation_pass, no_grad.
  destruct (validation_loop_effect testloader (0%R, 0%R) (set_grad_enabled false w))
    as (r & w' & evs & E & (Hm & Ho & Hg & Htr & Hge & Ht & Hf) & Hfirst).
  rewrite E. exists r, (set_grad_enabled (grad_enabled w) w'), evs.
  split; [reflexivity|].
  unfold set_grad_enabled in *.
  cbn [model training grad grad_enabled rng optimizer trace] in *.
  repeat (split; [assumption|]). split; [reflexivity|].
  repeat (split; [assumption|]). exact Hfirst.
Qed.

End Loops.

Section LoopTheorems.

Context {Mdl O : Type} {Mod : Module Mdl} {AG : Autograd Mdl} {Opt : Optimizer Mdl O}.



(** The gradient mode around and inside the [with] block, for every module. *)
Lemma no_grad_scope :
  (forall (A : Type) (body : M (World Mdl O) A) (w : World Mdl O),
      grad_enabled (snd (no_grad body w)) = grad_enabled w) /\
  (forall (testloader : list Batch) (w : World Mdl O),
      grad_enabled (snd (validation_pass testloader w)) = grad_enabled w /\
      exists evs,
        trace (snd (validation_pass testloader w)) = trace w ++ evs /\
        Forall (fun e => match e with
                         | EForward _ grad_on => grad_on = false
                         | _ => True
                         end) evs).
Proof.
  split.
  - intros A body w. unfold no_grad.
    destruct (body (set_grad_enabled false w)) as [r w']. reflexivity.
  - intros testloader w.
    destruct (validation_pass_effect testloader w)
      as (r & w' & evs & E & _ & _ & _ & _ & Hge & Ht & Hf & _).
    rewrite E. cbn [snd]. split; [exact Hge|].
    exists evs. split; [exact Ht|].
    eapply Forall_impl; [|exact Hf].
    intros e [-> | ->]; reflexivity || exact I.
Qed.

(** C9. The validation pass writes no parameter: the model, the optimizer
    state and the accumulated gradients after the pass are those before
    it, on every path.  In a training step the parameters change through
    [optimizer.step()] only: a step that raises leaves them as they were, a
    step that returns leaves what the update rule made of them. *)
Theorem validation_leaves_parameters_unchanged :
  (forall (testloader : list Batch) (w : World Mdl O),
      model (snd (validation_pass testloader w)) = model w /\
      optimizer (snd (validation_pass testloader w)) = optimizer w /\
      grad (snd (validation_pass testloader w)) = grad w) /\
  (forall (b : Batch) (running_loss : R) (w : World Mdl O),
      match fst (part5_step b running_loss w) with
      | Ok _ => exists g, model (snd (part5_step b running_loss w))
                          = snd (update (optimizer w) (model w) g)
      | Raise _ => model (snd (part5_step b running_loss w)) = model w
      end) /\
  (forall (b : Batch) (running_loss : R) (w : World Mdl O),
      match fst (part3_step b running_loss w) with
      | Ok _ => exists g, model (snd (part3_step b running_loss w))
                          = snd (update (optimizer w) (model w) g)
      | Raise _ => model (snd (part3_step b running_loss w)) = model w
      end).
Proof.
  split; [|split].
  - intros testloader w.
    destruct (validation_pass_effect testloader w)
      as (r & w' & evs & E & Hm & Ho & Hg & _).
    rewrite E. cbn [snd]. now repeat split.
  - intros b rl w.
    destruct (part5_step_effect b rl w)
      as (r & w' & E & _ & _ & evs & rest & _ & _ & Hr).
    rewrite E. cbn [fst snd]. destruct r as [a|e].
    + destruct Hr as (_ & g & Hg). exists g. now rewrite <- Hg.
    + now destruct Hr as (_ & Hm & _).
  - intros b rl w.
    destruct (part3_step_effect b rl w)
      as (r & w' & E & _ & _ & evs & rest & _ & _ & Hr).
    rewrite E. cbn [fst snd]. destruct r as [a|e].
    + destruct Hr as (_ & g & Hg). exists g. now rewrite <- Hg.
    + now destruct Hr as (_ & Hm & _).
Qed.

End LoopTheorems.

Lemma NLLLoss_rows (n : nat) (rows : list (list R)) (labels : list nat) :
  length labels = n -> Forall (fun y => y < 10) labels ->
  exists l, NLLLoss (of_rows n 10 rows) labels = Ok l.
Proof.
  intros Hn Hl. unfold NLLLoss, of_rows. cbn [shape data].
  rewrite Hn, Nat.eqb_refl.
  assert (Hb : forallb (fun y => y <? 10) labels = true).
  { apply forallb_forall. intros y Hy. apply Nat.ltb_lt.
    rewrite Forall_forall in Hl. now apply Hl. }
  rewrite Hb. eexists. reflexivity.
Qed.

(** A training step on a well-shaped, well-labelled batch returns when
    gradient tracking is on. *)
Lemma part5_step_returns
    {O : Type} {AG : Autograd Classifier.t} {Opt : Optimizer Classifier.t O}
    (images : Tensor) (labels : list nat) (n : nat) (rest : list nat)
    (running_loss : R) (w : World Classifier.t O) :
  Classifier.init_ok (model w) -> grad_enabled w = true ->
  shape images = n :: rest -> 0 < n -> numel_of rest = 784 ->
  length labels = n -> Forall (fun y => y < 10) labels ->
  exists total, fst (part5_step (images, labels) running_loss w) = Ok total.
Proof.
  intros Hok Hg Hs Hn Hrest Hl Hy. unfold part5_step.
  unfold bind at 1. rewrite zero_grad_effect.
  set (w1 := mkWorld _ _ _ _ _ _ _).
  unfold bind at 1, model_call, emit.
  subst w1.
  cbn [Module_forward Classifier_Module lift model training grad grad_enabled rng optimizer trace].
  rewrite (Classifier_forward_rows (model w) images n rest Hok Hs Hn Hrest).
  unfold bind at 1, criterion, bind, emit, lift, ret. cbn [value].
  destruct (NLLLoss_rows n (map (Classifier_row (model w)) (chunks 784 n (data images)))
              labels Hl Hy) as (l & ->).
  unfold loss_backward, bind, emit.
  cbn [loss_grad_fn grad_fn option_map model training grad grad_enabled rng optimizer trace].
  rewrite Hg. cbn [option_map].
  unfold optimizer_step, bind, emit.
  cbn [model training grad grad_enabled rng optimizer trace].
  destruct (update _ _ _) as [o m]. cbn [fst]. eexists. reflexivity.
Qed.

(** The first forward call of a validation pass over [Classifier] raises on
    a tensor without axes; the pass stops there. *)
Lemma validation_error_path {O : Type} (w : World Classifier.t O)
      (d : list R) (labels : list nat) (testloader : list Batch) :
  fst (validation_pass ((mkTensor [] d, labels) :: testloader) w) = Raise IndexError /\
  grad_enabled (snd (validation_pass ((mkTensor [] d, labels) :: testloader) w))
  = grad_enabled w.
Proof.
  unfold validation_pass, no_grad. cbn [for_each].
  unfold bind at 1, validation_step. unfold bind at 1, model_call, emit.
  cbn [Module_forward Classifier_Module lift model training grad grad_enabled rng optimizer trace
       set_grad_enabled].
  change (Classifier.forward (model w) (mkTensor [] d)) with (@Raise Tensor IndexError).
  cbn [fst snd grad_enabled set_grad_enabled]. split; reflexivity.
Qed.

(** C8. [with torch.no_grad()] puts back the gradient mode it found, whatever
    its body does and whether the body returns or raises; the validation
    pass of Part 5 therefore ends, on every path, in the mode it started
    in, and every forward call it makes is made with gradient tracking
    off.  The path through an exception exists: a pass over [Classifier]
    whose first batch has no axes raises [IndexError] in its first forward
    call, and the mode is restored all the same. *)
Theorem validation_disables_and_restores_grad_mode :
  (forall (Mdl O A : Type) (body : M (World Mdl O) A) (w : World Mdl O),
      grad_enabled (snd (no_grad body w)) = grad_enabled w) /\
  (forall (Mdl O : Type) (Mod : Module Mdl) (testloader : list Batch) (w : World Mdl O),
      grad_enabled (snd (validation_pass testloader w)) = grad_enabled w /\
      exists evs,
        trace (snd (validation_pass testloader w)) = trace w ++ evs /\
        Forall (fun e => match e with
                         | EForward _ grad_on => grad_on = false
                         | _ => True
                         end) evs) /\
  (forall (O : Type) (w : World Classifier.t O) (d : list R) (labels : list nat)
          (testloader : list Batch),
      fst (validation_pass ((mkTensor [] d, labels) :: testloader) w) = Raise IndexError /\
      grad_enabled (snd (validation_pass ((mkTensor [] d, labels) :: testloader) w))
      = grad_enabled w).
Proof.
  split; [|split].
  - intros Mdl O A body w. unfold no_grad.
    destruct (body (set_grad_enabled false w)) as [r w']. reflexivity.
  - intros Mdl O Mod testloader w. exact (proj2 no_grad_scope testloader w).
  - intros O w d labels testloader. apply validation_error_path.
Qed.

(** The training flag across a validation pass, for every module. *)
Lemma validation_keeps_training_flag
    {Mdl O : Type} {Mod : Module Mdl}
    (b : Batch) (testloader : list Batch) (w : World Mdl O) :
  training (snd (validation_pass (b :: testloader) w)) = training w /\
  exists evs,
    trace (snd (validation_pass (b :: testloader) w))
    = trace w ++ EForward (training w) false :: evs /\
    Forall (fun e => match e with
                     | EForward tr _ => tr = training w
                     | _ => True
                     end) evs.
Proof.
  destruct (validation_pass_effect (b :: testloader) w)
    as (r & w' & evs & E & _ & _ & _ & Htr & _ & Ht & Hf & Hfirst).
  rewrite E. cbn [snd]. split; [exact Htr|].
  destruct Hfirst as (evs' & ->); [discriminate|].
  exists evs'. split; [exact Ht|].
  inversion Hf as [|e l _ Hf']; subst.
  eapply Forall_impl; [|exact Hf'].
  intros e [-> | ->]; reflexivity || exact I.
Qed.

(** ** Dropout and repeated calls *)

Lemma model_call_value {Mdl O : Type} {Mod : Module Mdl} (x : Tensor) (w : World Mdl O) :
  rmap value (fst (model_call x w))
  = fst (Module_forward (model w) (training w) x (rng w)) /\
  rng (snd (model_call x w)) = snd (Module_forward (model w) (training w) x (rng w)) /\
  model (snd (model_call x w)) = model w /\
  training (snd (model_call x w)) = training w.
Proof.
  unfold model_call, emit. cbn [model training grad grad_enabled rng optimizer trace].
  destruct (Module_forward (model w) (training w) x (rng w)) as [[y|e] g];
    cbn [fst snd rmap rbind value rng model training]; now repeat split.
Qed.

(** In evaluation mode the dropout classifier is the plain classifier built
    from its four layers, and it leaves the random source alone. *)
Lemma dropout_forward_eval (self : Classifier_with_Drop_out.t) (x : Tensor) (g : Rng) :
  Classifier_with_Drop_out.forward self false x g
  = (Classifier.forward
       (Classifier.mk (Classifier_with_Drop_out.fc1 self) (Classifier_with_Drop_out.fc2 self)
                      (Classifier_with_Drop_out.fc3 self) (Classifier_with_Drop_out.fc4 self)) x,
     g).
Proof.
  unfold Classifier_with_Drop_out.forward, Classifier.forward, bind, lift, dropout, rmap, rbind.
  cbn [Classifier.fc1 Classifier.fc2 Classifier.fc3 Classifier.fc4].
  destruct (shape0 x) as [n|e]; [|reflexivity].
  destruct (view_infer x n) as [x0|e]; [|reflexivity].
  destruct (Linear_forward (Classifier_with_Drop_out.fc1 self) x0) as [x1|e]; [|reflexivity].
  destruct (Linear_forward (Classifier_with_Drop_out.fc2 self) (relu x1)) as [x2|e]; [|reflexivity].
  destruct (Linear_forward (Classifier_with_Drop_out.fc3 self) (relu x2)) as [x3|e]; [|reflexivity].
  destruct (Linear_forward (Classifier_with_Drop_out.fc4 self) (relu x3)) as [x4|e]; reflexivity.
Qed.

(** ** A dropout classifier called twice *)

Lemma dot_zeros_r (x : list R) (n : nat) : dot x (zeros n) = 0%R.
Proof.
  unfold dot, zeros. revert n. induction x as [|a x IH]; intro n; [reflexivity|].
  destruct n as [|n]; [reflexivity|]. cbn [repeat combine map sum_list fold_right fst snd].
  fold (sum_list (map (fun p => (fst p * snd p)%R) (combine x (repeat 0%R n)))).
  rewrite IH. lra.
Qed.

Lemma dot_repeat (a b : R) (n : nat) :
  dot (repeat a n) (repeat b n) = (INR n * (a * b))%R.
Proof.
  unfold dot. induction n as [|n IH].
  - simpl. lra.
  - rewrite S_INR. cbn [repeat combine map sum_list fold_right fst snd].
    fold (sum_list (map (fun p => (fst p * snd p)%R) (combine (repeat a n) (repeat b n)))).
    rewrite IH. lra.
Qed.

Lemma vadd_repeat (a b : R) (n : nat) :
  vadd (repeat a n) (repeat b n) = repeat (a + b)%R n.
Proof.
  unfold vadd. induction n as [|n IH]; [reflexivity|].
  cbn [repeat combine map fst snd]. now rewrite IH.
Qed.

Lemma map_repeat {A B} (f : A -> B) (a : A) (n : nat) : map f (repeat a n) = repeat (f a) n.
Proof. induction n as [|n IH]; [reflexivity|]. cbn [repeat map]. now rewrite IH. Qed.

Lemma affine_zero_linear (i o : nat) (x : list R) : affine (zero_linear i o) x = zeros o.
Proof.
  unfold affine, zero_linear. cbn [weight bias].
  rewrite map_repeat, dot_zeros_r. unfold zeros. rewrite vadd_repeat.
  f_equal. lra.
Qed.

Lemma relu_scalar_0 : relu_scalar 0 = 0%R.
Proof. unfold relu_scalar. apply Rmax_left. lra. Qed.

Lemma relu_scalar_1 : relu_scalar 1 = 1%R.
Proof. unfold relu_scalar. apply Rmax_right. lra. Qed.

Lemma drop_data_repeat (p a : R) (b : bool) (n : nat) :
  drop_data p (repeat a n) (repeat b n)
  = repeat (a * (if b then 1 else 0) / (1 - p))%R n.
Proof.
  unfold drop_data. induction n as [|n IH]; [reflexivity|].
  cbn [repeat combine map fst snd]. now rewrite IH.
Qed.

Lemma drop_data_zeros (p : R) (n : nat) (mask : list bool) :
  length mask = n -> drop_data p (zeros n) mask = zeros n.
Proof.
  unfold drop_data, zeros. revert mask. induction n as [|n IH]; intros mask Hm.
  - reflexivity.
  - destruct mask as [|b mask]; [discriminate|]. injection Hm as Hm.
    cbn [repeat combine map fst snd]. rewrite (IH mask Hm). f_equal.
    unfold Rdiv. ring.
Qed.

Lemma Linear_forward_one_row (l : Linear) (k : nat) (d : list R) :
  in_features l = k ->
  Linear_forward l (mkTensor [1; k] d)
  = Ok (mkTensor [1; out_features l] (affine l (firstn k d))).
Proof.
  intro Hk. rewrite (Linear_forward_2d l 1 k d Hk).
  unfold of_rows. cbn [chunks map concat]. now rewrite app_nil_r.
Qed.

Lemma relu_repeat (s : list nat) (c : R) (n : nat) :
  relu (mkTensor s (repeat c n)) = mkTensor s (repeat (relu_scalar c) n).
Proof. unfold relu, tmap. cbn [shape data]. now rewrite map_repeat. Qed.

Lemma dropout_train_repeat (p c : R) (s : list nat) (n : nat) (g : Rng) :
  dropout p true (mkTensor s (repeat c n)) g
  = (Ok (mkTensor s (drop_data p (repeat c n) (map (bits g) (seq (pos g) n)))),
     mkRng (bits g) (pos g + n)).
Proof. unfold dropout, bernoulli. cbn [shape data]. now rewrite repeat_length. Qed.

Lemma bind_lift_Ok {S A B} (a : A) (f : A -> M S B) (s : S) :
  bind (lift (Ok a)) f s = f a s.
Proof. reflexivity. Qed.

Lemma bind_pair_Ok {S A B} (m : M S A) (f : A -> M S B) (s s' : S) (a : A) :
  m s = (Ok a, s') -> bind m f s = f a s'.
Proof. intro E. unfold bind. now rewrite E. Qed.

Lemma drop_cex_forward (g : Rng) :
  Classifier_with_Drop_out.forward drop_cex true image1 g
  = (Ok (mkTensor [1; 10]
           (log_softmax_row
              (affine fc4_cex
                 (drop_data (2 / 10) (ones 64)
                            (map (bits g) (seq (pos g + 256 + 128) 64)))))),
     mkRng (bits g) (pos g + 256 + 128 + 64)).
Proof.
  unfold Classifier_with_Drop_out.forward, drop_cex.
  cbn [Classifier_with_Drop_out.fc1 Classifier_with_Drop_out.fc2 Classifier_with_Drop_out.fc3
       Classifier_with_Drop_out.fc4 Classifier_with_Drop_out.dropout_p].
  change (shape0 image1) with (Ok (A := nat) 1). rewrite bind_lift_Ok.
  change (view_infer image1 1) with (Ok (mkTensor [1; 784] (zeros 784))). rewrite bind_lift_Ok.
  rewrite (Linear_forward_one_row (zero_linear 784 256) 784) by reflexivity.
  rewrite bind_lift_Ok, affine_zero_linear. cbn [out_features zero_linear].
  unfold zeros at 1. rewrite relu_repeat, relu_scalar_0.
  rewrite (bind_pair_Ok _ _ _ _ _ (dropout_train_repeat _ _ _ _ _)).
  fold (zeros 256). rewrite drop_data_zeros by (now rewrite length_map, length_seq).
  cbn [pos bits].
  rewrite (Linear_forward_one_row (zero_linear 256 128) 256) by reflexivity.
  rewrite bind_lift_Ok, affine_zero_linear. cbn [out_features zero_linear].
  unfold zeros at 1. rewrite relu_repeat, relu_scalar_0.
  rewrite (bind_pair_Ok _ _ _ _ _ (dropout_train_repeat _ _ _ _ _)).
  fold (zeros 128). rewrite drop_data_zeros by (now rewrite length_map, length_seq).
  cbn [pos bits].
  rewrite (Linear_forward_one_row fc3_cex 128) by reflexivity.
  rewrite bind_lift_Ok.
  unfold affine at 1, fc3_cex. cbn [weight bias out_features].
  rewrite map_repeat, dot_zeros_r. unfold ones at 1. rewrite vadd_repeat.
  replace (0 + 1)%R with 1%R by lra.
  rewrite relu_repeat, relu_scalar_1.
  rewrite (bind_pair_Ok _ _ _ _ _ (dropout_train_repeat _ _ _ _ _)).
  cbn [pos bits]. fold (ones 64).
  set (h3 := drop_data (2 / 10) (ones 64) _).
  assert (Hh3 : length h3 = 64).
  { subst h3. unfold drop_data, ones.
    now rewrite length_map, length_combine, repeat_length, length_map, length_seq. }
  rewrite (Linear_forward_one_row fc4_cex 64) by reflexivity.
  rewrite bind_lift_Ok.
  rewrite firstn_all2 by lia.
  set (z := affine fc4_cex h3).
  assert (Hz : length z = 10).
  { subst z. unfold affine, fc4_cex. cbn [weight bias].
    rewrite vadd_length, length_map. cbn [length]. unfold zeros.
    now rewrite !repeat_length. }
  unfold lift, log_softmax_dim1, of_rows.
  cbn [shape data out_features fc4_cex chunks map concat].
  rewrite firstn_all2 by lia. now rewrite app_nil_r.
Qed.

Lemma log_softmax_row_head2 (a b : R) (rest : list R) :
  exists c tl, log_softmax_row (a :: b :: rest) = (a - c)%R :: (b - c)%R :: tl.
Proof.
  unfold log_softmax_row. set (m := max_list _). set (s := ln _).
  exists (m + s)%R, (map (fun x => (x - m - s)%R) rest).
  cbn [map]. f_equal; [lra|]. f_equal. lra.
Qed.

Lemma affine_fc4_cex (x : list R) :
  exists tl,
    affine fc4_cex x = (dot x (ones 64) + 0)%R :: (dot x (zeros 64) + 0)%R :: tl.
Proof.
  unfold affine, fc4_cex. cbn [weight bias].
  change (repeat (zeros 64) 9) with (zeros 64 :: repeat (zeros 64) 8).
  change (zeros 10) with (0%R :: 0%R :: zeros 8).
  cbn [map]. unfold vadd. cbn [combine map fst snd]. eexists. reflexivity.
Qed.

(** The gap between the first two log-probabilities is the sum of what the
    last dropout layer lets through. *)
Lemma drop_cex_gap (keep : bool) (out : list R) :
  out = log_softmax_row (affine fc4_cex (drop_data (2 / 10) (ones 64) (repeat keep 64))) ->
  (nth 0 out 0 - nth 1 out 0 = if keep then 80 else 0)%R.
Proof.
  intros ->. unfold ones. rewrite drop_data_repeat.
  destruct (affine_fc4_cex (repeat (1 * (if keep then 1 else 0) / (1 - 2 / 10))%R 64))
    as (tl & ->).
  destruct (log_softmax_row_head2
              (dot (repeat (1 * (if keep then 1 else 0) / (1 - 2 / 10))%R 64) (ones 64) + 0)
              (dot (repeat (1 * (if keep then 1 else 0) / (1 - 2 / 10))%R 64) (zeros 64) + 0)
              tl) as (c & tl' & ->).
  cbn [nth]. rewrite dot_zeros_r. unfold ones. rewrite dot_repeat.
  replace (INR 64) with 64%R by (rewrite INR_IZR_INZ; reflexivity).
  destruct keep; lra.
Qed.

(** The classifier of the example is one that [__init__] can build. *)
Lemma drop_cex_ok : Classifier_with_Drop_out.init_ok drop_cex.
Proof.
  split; [|reflexivity].
  unfold Classifier.init_ok, drop_cex.
  cbn [Classifier_with_Drop_out.fc1 Classifier_with_Drop_out.fc2 Classifier_with_Drop_out.fc3
       Classifier_with_Drop_out.fc4 Classifier.fc1 Classifier.fc2 Classifier.fc3 Classifier.fc4].
  assert (H3 : Linear_ok fc3_cex).
  { unfold Linear_ok, fc3_cex, ones, zeros. cbn [weight bias in_features out_features].
    rewrite !repeat_length. repeat split.
    apply Forall_forall. intros r Hr. apply repeat_spec in Hr. subst r. apply repeat_length. }
  assert (H4 : Linear_ok fc4_cex).
  { unfold Linear_ok, fc4_cex, ones, zeros. cbn [weight bias in_features out_features length].
    rewrite !repeat_length. repeat split.
    apply Forall_cons; [apply repeat_length|].
    apply Forall_forall. intros r Hr. apply repeat_spec in Hr. subst r. apply repeat_length. }
  repeat split; try apply zero_linear_ok; try apply H3; try apply H4.
Qed.

(** C4, as stated, fails on the dropout classifier in training mode: two
    calls of [model(x)] in a row on the same image, with the parameters
    untouched in between, return different log-probabilities.  The first
    call keeps every hidden unit, the second drops them all. *)
Lemma dropout_predict_twice_differs :
  Classifier_with_Drop_out.init_ok (model w_cex) /\
  training w_cex = true /\
  model (snd (model_call image1 w_cex)) = model w_cex /\
  rmap value (fst (model_call image1 w_cex))
  <> rmap value (fst (model_call image1 (snd (model_call image1 w_cex)))).
Proof.
  destruct (model_call_value image1 w_cex) as (V1 & G1 & M1 & T1).
  destruct (model_call_value image1 (snd (model_call image1 w_cex))) as (V2 & _).
  split; [exact drop_cex_ok|]. split; [reflexivity|].
  split; [exact M1|].
  rewrite V2, G1, M1, T1, V1.
  cbn [Module_forward Classifier_with_Drop_out_Module model training rng w_cex].
  rewrite !drop_cex_forward. cbn [fst snd pos bits g_cex].
  change (map (fun i => i <? 448) (seq (0 + 256 + 128) 64)) with (repeat true 64).
  change (map (fun i => i <? 448) (seq (0 + 256 + 128 + 64 + 256 + 128) 64))
    with (repeat false 64).
  set (zk := log_softmax_row (affine fc4_cex (drop_data (2 / 10) (ones 64) (repeat true 64)))).
  set (zd := log_softmax_row (affine fc4_cex (drop_data (2 / 10) (ones 64) (repeat false 64)))).
  intro E. assert (Hz : zk = zd) by congruence.
  pose proof (drop_cex_gap true zk eq_refl) as Hkeep.
  pose proof (drop_cex_gap false zd eq_refl) as Hdrop.
  rewrite Hz in Hkeep. rewrite Hkeep in Hdrop. lra.
Qed.

(** ** Log-probabilities of every classifier *)

(** Whatever comes before them, a last layer followed by [log_softmax] over
    [dim=1] returns rows of log-probabilities. *)
Lemma last_layer_distributions (l : Linear) (x out : Tensor) :
  Linear_ok l -> 0 < out_features l ->
  (y <-? Linear_forward l x ;; log_softmax_dim1 y) = Ok out ->
  rows_are_distributions (out_features l) out.
Proof.
  intros Hl Hpos Hf. unfold Linear_forward in Hf.
  destruct (rev (shape x)) as [|k lead]; [discriminate|].
  destruct (k =? in_features l); [|discriminate].
  cbn [rbind] in Hf. unfold log_softmax_dim1 in Hf. cbn [shape data] in Hf.
  set (rows := map (affine l) (chunks k (numel_of lead) (data x))) in *.
  assert (Hrows : Forall (fun r => length r = out_features l) rows)
    by (now apply Forall_affine_length).
  destruct (rev (out_features l :: lead)) as [|n [|c [|? ?]]] eqn:Hshape; try discriminate.
  assert (Hlead : lead = [n] /\ c = out_features l).
  { cbn [rev] in Hshape. destruct (rev lead) as [|a [|? ?]] eqn:Hr.
    - discriminate.
    - cbn in Hshape. injection Hshape as <- <-.
      apply (f_equal (@rev nat)) in Hr. rewrite rev_involutive in Hr. now subst lead.
    - cbn in Hshape. injection Hshape as _ _ Hnil.
      now apply app_eq_nil in Hnil as [_ Hnil]. }
  destruct Hlead as [-> ->].
  assert (Hn : length rows = n).
  { subst rows. rewrite length_map, chunks_length. cbn [numel_of fold_right]. lia. }
  assert (Hch : chunks (out_features l) n (concat rows) = rows)
    by (rewrite <- Hn; now apply chunks_concat).
  cbv beta iota in Hf. rewrite Hch in Hf.
  injection Hf as <-. exists n. split; [reflexivity|].
  assert (Hexp : rows_of (texp (of_rows n (out_features l) (map log_softmax_row rows)))
                 = map (map exp) (map log_softmax_row rows)).
  { unfold texp. rewrite tmap_of_rows. unfold rows_of, of_rows. cbn [shape data].
    rewrite <- Hn at 1.
    rewrite <- (length_map log_softmax_row), <- (length_map (map exp)).
    apply chunks_concat. apply Forall_map_length.
    apply Forall_forall. intros r Hr. apply in_map_iff in Hr as (z & <- & Hz).
    rewrite log_softmax_row_length. rewrite Forall_forall in Hrows. now apply Hrows. }
  rewrite Hexp. split; [now rewrite !length_map|].
  apply Forall_forall. intros r Hr.
  apply in_map_iff in Hr as (lp & <- & Hlp).
  apply in_map_iff in Hlp as (z & <- & Hz).
  rewrite Forall_forall in Hrows. specialize (Hrows z Hz).
  split.
  - now rewrite length_map, log_softmax_row_length.
  - apply exp_log_softmax_row_sum. intros ->. cbn in Hrows. lia.
Qed.






(** ** Validation of the dropout classifier *)

(** One validation pass over one image, from the state a fresh dropout
    classifier is in. *)
Lemma validation_of_dropout_run :
  exists v,
    validation_pass [(image1, [0])] w_cex
    = (Ok v, mkWorld drop_cex true None true (mkRng (bits g_cex) 448) tt
               [EForward true false; ELoss]).
Proof.
  unfold validation_pass, no_grad. cbn [for_each].
  unfold bind at 1, validation_step. unfold bind at 1, model_call, emit.
  cbn [Module_forward Classifier_with_Drop_out_Module model training grad grad_enabled rng
       optimizer trace set_grad_enabled w_cex].
  rewrite drop_cex_forward.
  unfold bind at 1, criterion, bind, emit, lift, ret.
  cbn [value NLLLoss shape data model training grad grad_enabled rng optimizer trace
       Nat.eqb length forallb Nat.ltb Nat.leb andb].
  cbn [topk1_dim1 texp tmap shape data Nat.eqb chunks map equals_labels snd length
       set_grad_enabled model training grad grad_enabled rng optimizer trace app].
  eexists. reflexivity.
Qed.

(** C5. The validation pass that Part 5 runs on [Classifier_with_Drop_out]
    never changes the module's [training] flag: there is no [model.eval()]
    before the loop and no [model.train()] after it.  Its first forward call,
    and every later one, is made in the mode the pass found.  On a fresh
    module, which is in training mode, the pass over one image makes its
    forward call in training mode and takes 448 draws from the random
    source, one per hidden unit: dropout is active during validation. *)
Theorem validation_keeps_training_mode_of_dropout_model :
  (forall (O : Type) (b : Batch) (testloader : list Batch)
          (w : World Classifier_with_Drop_out.t O),
      training (snd (validation_pass (b :: testloader) w)) = training w /\
      exists evs,
        trace (snd (validation_pass (b :: testloader) w))
        = trace w ++ EForward (training w) false :: evs /\
        Forall (fun e => match e with
                         | EForward tr _ => tr = training w
                         | _ => True
                         end) evs) /\
  (training w_cex = true /\ pos (rng w_cex) = 0 /\
   training (snd (validation_pass [(image1, [0])] w_cex)) = true /\
   trace (snd (validation_pass [(image1, [0])] w_cex)) = [EForward true false; ELoss] /\
   pos (rng (snd (validation_pass [(image1, [0])] w_cex))) = 448).
Proof.
  split.
  - intros O b testloader w. apply validation_keeps_training_flag.
  - destruct validation_of_dropout_run as (v & ->). now repeat split.
Qed.

(** C4, as the code has it.  For [Classifier], and for
    [Classifier_with_Drop_out] in evaluation mode, the value of [model(x)]
    is a function of the parameters and of [x] alone: two calls in a row
    return the same value, and so do calls in any two notebook states that
    hold the same parameters.  In training mode the dropout classifier also
    reads the random source, and two calls may differ. *)
Theorem predict_repeatable_without_active_dropout :
  (forall (O : Type) (x : Tensor) (w : World Classifier.t O),
      rmap value (fst (model_call x w))
      = rmap value (fst (model_call x (snd (model_call x w))))) /\
  (forall (O : Type) (x : Tensor) (w1 w2 : World Classifier.t O),
      model w1 = model w2 ->
      rmap value (fst (model_call x w1)) = rmap value (fst (model_call x w2))) /\
  (forall (O : Type) (x : Tensor) (w : World Classifier_with_Drop_out.t O),
      training w = false ->
      rmap value (fst (model_call x w))
      = rmap value (fst (model_call x (snd (model_call x w))))) /\
  (forall (O : Type) (x : Tensor) (w1 w2 : World Classifier_with_Drop_out.t O),
      model w1 = model w2 -> training w1 = false -> training w2 = false ->
      rmap value (fst (model_call x w1)) = rmap value (fst (model_call x w2))).
Proof.
  assert (Hplain : forall (O : Type) (x : Tensor) (w : World Classifier.t O),
             rmap value (fst (model_call x w)) = Classifier.forward (model w) x).
  { intros O x w. destruct (model_call_value x w) as (V & _). rewrite V. reflexivity. }
  assert (Heval : forall (O : Type) (x : Tensor) (w : World Classifier_with_Drop_out.t O),
             training w = false ->
             rmap value (fst (model_call x w))
             = fst (Classifier_with_Drop_out.forward (model w) false x (rng w))).
  { intros O x w Htr. destruct (model_call_value x w) as (V & _). rewrite V, Htr. reflexivity. }
  repeat split.
  - intros O x w. rewrite !Hplain.
    destruct (model_call_value x w) as (_ & _ & Hm & _). now rewrite Hm.
  - intros O x w1 w2 Hm. rewrite !Hplain. now rewrite Hm.
  - intros O x w Htr.
    destruct (model_call_value x w) as (_ & _ & Hm & Ht).
    rewrite !Heval by congruence. rewrite Hm, !dropout_forward_eval. reflexivity.
  - intros O x w1 w2 Hm H1 H2. rewrite !Heval by assumption.
    rewrite Hm, !dropout_forward_eval. reflexivity.
Qed.

Lemma predict_repeatable_without_active_dropout_witness :
  (model w_plain = model w_plain' /\
   rmap value (fst (model_call flat1 w_plain))
   = rmap value (fst (model_call flat1 w_plain'))) /\
  (training w_eval = false /\
   rmap value (fst (model_call flat1 w_eval))
   = rmap value (fst (model_call flat1 (snd (model_call flat1 w_eval))))) /\
  (model w_eval = model w_eval' /\ training w_eval = false /\ training w_eval' = false /\
   rmap value (fst (model_call flat1 w_eval))
   = rmap value (fst (model_call flat1 w_eval'))).
Proof.
  destruct predict_repeatable_without_active_dropout as (_ & H2 & H3 & H4).
  split; [|split].
  - split; [reflexivity|]. apply (H2 unit flat1 w_plain w_plain'). reflexivity.
  - split; [reflexivity|]. apply (H3 unit flat1 w_eval). reflexivity.
  - split; [reflexivity|]. split; [reflexivity|]. split; [reflexivity|].
    apply (H4 unit flat1 w_eval w_eval'); reflexivity.
Defined.

(** ** The cells that fix the batch size *)

Lemma sigmoid_shape (t : Tensor) : shape (Manual.sigmoid t) = shape t.
Proof. reflexivity. Qed.

Lemma matmul_shape (a b : Tensor) (n k m : nat) :
  shape a = [n; k] -> shape b = [k; m] ->
  exists out, matmul a b = Ok out /\ shape out = [n; m].
Proof.
  intros Ha Hb. unfold matmul. rewrite Ha, Hb, Nat.eqb_refl.
  eexists. split; reflexivity.
Qed.

Lemma tadd_shape (a b : Tensor) :
  shape a = shape b -> exists out, tadd a b = Ok out /\ shape out = shape a.
Proof.
  intro H. unfold tadd.
  destruct (list_eq_dec Nat.eq_dec (shape a) (shape b)) as [_|N]; [|contradiction].
  eexists. split; reflexivity.
Qed.

Lemma manual_network_wrong_size (p : Manual.Params) (images : Tensor) :
  numel images <> 64 * 784 -> Manual.network p images = Raise RuntimeError.
Proof.
  intro Hn. unfold Manual.network, reshape.
  change (numel_of [64; 28 * 28]) with (64 * 784).
  apply Nat.eqb_neq in Hn. now rewrite Hn.
Qed.

(** C6 on the matrix-product network of Part 5: the cell reshapes to 64 rows
    and adds biases of 64 rows, so it raises on every batch that does not
    hold exactly 64 x 784 numbers, a batch of one image included, and on a
    batch of 64 it returns the [(64, 10)] tensor its comment announces. *)
Theorem manual_network_is_fixed_to_64_examples :
  (forall (p : Manual.Params) (images : Tensor),
      numel images <> 64 * 784 ->
      Manual.network p images = Raise RuntimeError) /\
  (forall (p : Manual.Params) (images : Tensor),
      Manual.init_ok p -> numel images = 64 * 784 ->
      exists out, Manual.network p images = Ok out /\ shape out = [64; 10]).
Proof.
  split.
  - exact manual_network_wrong_size.
  - intros p images ((S1 & _) & (S2 & _) & (S3 & _) & (S4 & _)) Hn.
    unfold Manual.network, reshape.
    change (numel_of [64; 28 * 28]) with (64 * 784).
    apply Nat.eqb_eq in Hn. rewrite Hn. cbn [rbind].
    destruct (matmul_shape (mkTensor [64; 28 * 28] (data images)) (Manual.W1 p) 64 784 256)
      as (a1 & -> & Ha1); [reflexivity | exact S1 |]. cbn [rbind].
    destruct (tadd_shape a1 (Manual.b1 p)) as (z1 & -> & Hz1); [congruence|]. cbn [rbind].
    destruct (matmul_shape (Manual.sigmoid z1) (Manual.W2 p) 64 256 10)
      as (a2 & -> & Ha2); [rewrite sigmoid_shape; congruence | exact S2 |]. cbn [rbind].
    destruct (tadd_shape a2 (Manual.b2 p)) as (z2 & -> & Hz2); [congruence|]. cbn [rbind].
    eexists. split; [reflexivity|]. rewrite sigmoid_shape. congruence.
Qed.

Lemma manual0_ok : Manual.init_ok manual0.
Proof.
  unfold Manual.init_ok, manual0. cbn [Manual.W1 Manual.W2 Manual.b1 Manual.b2].
  assert (Hwf : forall a b, wf_tensor (mkTensor [a; b] (zeros (a * b)))).
  { intros a b. unfold wf_tensor, numel, zeros. cbn [shape data numel_of fold_right].
    rewrite repeat_length. lia. }
  split; [split; [reflexivity | apply Hwf]|].
  split; [split; [reflexivity | apply Hwf]|].
  split; (split; [reflexivity | apply Hwf]).
Qed.

Lemma manual_network_is_fixed_to_64_examples_witness :
  (numel image1 <> 64 * 784 /\ Manual.network manual0 image1 = Raise RuntimeError) /\
  (Manual.init_ok manual0 /\ numel flat64 = 64 * 784 /\
   exists out, Manual.network manual0 flat64 = Ok out /\ shape out = [64; 10]).
Proof.
  destruct manual_network_is_fixed_to_64_examples as [Hbad Hgood].
  assert (H1 : numel image1 <> 64 * 784).
  { unfold numel, image1. cbn [shape numel_of fold_right]. lia. }
  assert (H64 : numel flat64 = 64 * 784).
  { unfold numel, flat64. cbn [shape numel_of fold_right]. lia. }
  split.
  - split; [exact H1|]. exact (Hbad manual0 image1 H1).
  - split; [exact manual0_ok|]. split; [exact H64|].
    exact (Hgood manual0 flat64 manual0_ok H64).
Defined.

(** The single training step of Part 3 resizes the batch to 64 rows in place:
    a batch with another number of labels has rows invented for it or taken
    from it, the model returns 64 rows, and the loss refuses them. *)
Lemma part3_single_step_needs_64_labels
    {O : Type} {AG : Autograd (list Layer)} {Opt : Optimizer (list Layer) O}
    (junk : nat -> R) (images : Tensor) (labels : list nat)
    (w : World (list Layer) O) (l1 l2 l3 : Linear) :
  Part3.init_ok l1 l2 l3 -> model w = Part3.model l1 l2 l3 ->
  length labels <> 64 ->
  fst (part3_single_step junk (images, labels) w) = Raise ValueError.
Proof.
  intros Hok Hm Hl. unfold part3_single_step.
  unfold bind at 1. rewrite zero_grad_effect.
  set (w1 := mkWorld _ _ _ _ _ _ _).
  unfold bind at 1, model_call, emit.
  cbn [Module_forward Sequential_Module lift].
  replace (model w1) with (Part3.model l1 l2 l3) by (subst w1; now rewrite <- Hm).
  rewrite (Part3_forward_rows l1 l2 l3 _ 64 Hok) by reflexivity.
  unfold bind at 1, criterion, bind, emit, lift. cbn [value].
  unfold NLLLoss, of_rows. cbn [shape data].
  destruct (Nat.eqb_spec 64 (length labels)) as [E|_]; [congruence|]. reflexivity.
Qed.

(** ** A few evaluations *)

(** [view] turns the image batch into the flattened one. *)
Example view_of_image1 :
  (n <-? shape0 image1 ;; view_infer image1 n) = Ok flat1.
Proof. reflexivity. Qed.

(** A single unbatched vector of 784 numbers is read as 784 examples of one
    number, which the first layer refuses. *)
Example forward_of_vector_raises :
  Classifier.forward classifier0 (mkTensor [784] (zeros 784)) = Raise RuntimeError.
Proof. reflexivity. Qed.

(** An empty batch is refused by the [view] of [Classifier.forward] and
    accepted by the Part 3 model. *)
Example forward_of_empty_batch :
  Classifier.forward classifier0 (mkTensor [0; 784] []) = Raise RuntimeError /\
  Sequential_forward
    (Part3.model (zero_linear 784 128) (zero_linear 128 64) (zero_linear 64 10))
    (mkTensor [0; 784] [])
  = Ok (mkTensor [0; 10] []).
Proof. split; reflexivity. Qed.

(** The last batch of a 60000-image loader with [batch_size=64] has 32
    images; the matrix-product cell cannot reshape it. *)
Example manual_network_last_batch :
  Manual.network manual0 (mkTensor [32; 1; 28; 28] (zeros (32 * 784)))
  = Raise RuntimeError.
Proof.
  apply manual_network_wrong_size.
  unfold numel. cbn [shape numel_of fold_right]. lia.
Qed.

(** Wrong labels and wrong label counts are refused by the loss. *)
Example NLLLoss_errors :
  NLLLoss (mkTensor [1; 2] [0; 0]%R) [2] = Raise IndexError /\
  NLLLoss (mkTensor [1; 2] [0; 0]%R) [0; 1] = Raise ValueError.
Proof. split; reflexivity. Qed.

(** * Further properties *)

(** ** Softmax and cross-entropy *)

Section Softmax.

Local Open Scope R_scope.

(** The shift cancels here as well: the row is [exp(x_i) / sum_k exp(x_k)]. *)
Lemma softmax_row_formula (z : list R) :
  softmax_row z = map (fun x => exp x / sum_list (map exp z)) z.
Proof.
  destruct z as [|a z]; [reflexivity|].
  unfold softmax_row. set (m := max_list (a :: z)). cbv zeta.
  apply map_ext. intro x. rewrite sum_exp_shift.
  unfold Rminus. rewrite exp_plus.
  pose proof (sum_exp_pos (a :: z) ltac:(discriminate)) as Hs.
  pose proof (exp_pos (- m)) as Hm.
  field. split; lra.
Qed.

Lemma softmax_row_exp_log (z : list R) :
  softmax_row z = map exp (log_softmax_row z).
Proof.
  rewrite softmax_row_formula, log_softmax_row_spec. unfold Spec.log_softmax.
  rewrite map_map. destruct z as [|a z]; [reflexivity|].
  apply map_ext. intro x.
  pose proof (sum_exp_pos (a :: z) ltac:(discriminate)) as Hs.
  unfold Rminus. rewrite exp_plus, exp_Ropp, exp_ln by assumption. reflexivity.
Qed.

Lemma softmax_row_length (z : list R) : length (softmax_row z) = length z.
Proof. unfold softmax_row. apply length_map. Qed.

Lemma softmax_row_sum (z : list R) : z <> [] -> sum_list (softmax_row z) = 1.
Proof. intro Hz. rewrite softmax_row_exp_log. now apply exp_log_softmax_row_sum. Qed.

Lemma softmax_row_pos (z : list R) : Forall (fun p => 0 < p) (softmax_row z).
Proof.
  rewrite softmax_row_exp_log. apply Forall_forall. intros p Hp.
  apply in_map_iff in Hp as (x & <- & _). apply exp_pos.
Qed.

End Softmax.

Lemma texp_log_softmax (t : Tensor) :
  rmap texp (log_softmax_dim1 t) = softmax_dim1 t.
Proof.
  unfold log_softmax_dim1, softmax_dim1.
  destruct (shape t) as [|n [|c [|? ?]]]; try reflexivity.
  cbn [rmap rbind]. f_equal. unfold texp. rewrite tmap_of_rows. f_equal.
  rewrite map_map. apply map_ext. intro row. symmetry. apply softmax_row_exp_log.
Qed.

Lemma Sequential_forward_app (a b : list Layer) (x : Tensor) :
  Sequential_forward (a ++ b) x = (y <-? Sequential_forward a x ;; Sequential_forward b y).
Proof.
  revert x. induction a as [|l a IH]; intro x; [reflexivity|].
  cbn [app Sequential_forward]. destruct (Layer_forward l x) as [y|e]; [|reflexivity].
  cbn [rbind]. apply IH.
Qed.

Lemma Part3_model_split (l1 l2 l3 : Linear) (x : Tensor) :
  Sequential_forward (Part3.model l1 l2 l3) x
  = (logits <-? Sequential_forward (Part3_logits_model l1 l2 l3) x ;;
     log_softmax_dim1 logits).
Proof.
  change (Part3.model l1 l2 l3) with (Part3_logits_model l1 l2 l3 ++ [nn_LogSoftmax_dim1]).
  rewrite Sequential_forward_app.
  destruct (Sequential_forward (Part3_logits_model l1 l2 l3) x) as [y|e]; [|reflexivity].
  cbn [rbind Sequential_forward Layer_forward].
  destruct (log_softmax_dim1 y); reflexivity.
Qed.

Lemma Part2_sequential_texp (l1 l2 l3 : Linear) (x : Tensor) :
  Part2_sequential l1 l2 l3 x = rmap texp (Sequential_forward (Part3.model l1 l2 l3) x).
Proof.
  rewrite Part3_model_split. unfold Part2_sequential.
  destruct (Sequential_forward (Part3_logits_model l1 l2 l3) x) as [logits|e];
    [|reflexivity].
  cbn [rbind]. symmetry. apply texp_log_softmax.
Qed.

(** X1. The Part 3 model ends in [nn.LogSoftmax(dim=1)], the sequential model
    of the networks notebook has the same layers and ends in
    [nn.Softmax(dim=1)].  With the same weights, [torch.exp] of the output
    of the first is the output of the second, on every input and with the
    same errors. *)
Theorem exp_of_log_softmax_model_is_softmax_model (l1 l2 l3 : Linear) (x : Tensor) :
  rmap texp (Sequential_forward (Part3.model l1 l2 l3) x) = Part2_sequential l1 l2 l3 x.
Proof. symmetry. apply Part2_sequential_texp. Qed.

Lemma nth_log_softmax_row (z : list R) (y : nat) :
  y < length z ->
  nth y (log_softmax_row z) 0%R = (nth y z 0 - ln (sum_list (map exp z)))%R.
Proof.
  intro Hy. rewrite log_softmax_row_spec. unfold Spec.log_softmax.
  rewrite (nth_indep _ 0%R ((fun zi => zi - ln (sum_list (map exp z)))%R 0%R))
    by (now rewrite length_map).
  exact (map_nth (fun zi => (zi - ln (sum_list (map exp z)))%R) z 0%R y).
Qed.

Lemma cross_entropy_sum (c : nat) (rows : list (list R)) (labels : list nat) :
  Forall (fun r => length r = c) rows ->
  forallb (fun y => y <? c) labels = true ->
  sum_list (map (fun p => (- nth (snd p) (fst p) 0 + ln (sum_list (map exp (fst p))))%R)
                (combine rows labels))
  = (- sum_list (map (fun p => nth (snd p) (fst p) 0%R)
                     (combine (map log_softmax_row rows) labels)))%R.
Proof.
  intros Hrows. revert labels. induction Hrows as [|r rows Hr _ IH]; intros labels Hl.
  - cbn. lra.
  - destruct labels as [|y labels]; [cbn; lra|].
    cbn [forallb] in Hl. apply andb_prop in Hl as [Hy Hl]. apply Nat.ltb_lt in Hy.
    cbn [map combine sum_list fold_right fst snd].
    fold (sum_list (map (fun p => (- nth (snd p) (fst p) 0 + ln (sum_list (map exp (fst p))))%R)
                        (combine rows labels))).
    fold (sum_list (map (fun p => nth (snd p) (fst p) 0%R)
                        (combine (map log_softmax_row rows) labels))).
    cbv beta in Hr. assert (Hyr : y < length r) by (rewrite Hr; exact Hy).
    rewrite (IH labels Hl). rewrite (nth_log_softmax_row r y Hyr).
    fold (sum_list (map exp r)). lra.
Qed.

(** On a matrix of logits the cross-entropy is the negative log-likelihood
    of the log-softmax, errors included. *)
Lemma CrossEntropyLoss_rows (n c : nat) (rows : list (list R)) (labels : list nat) :
  length rows = n -> Forall (fun r => length r = c) rows ->
  CrossEntropyLoss (of_rows n c rows) labels
  = (log_ps <-? log_softmax_dim1 (of_rows n c rows) ;; NLLLoss log_ps labels).
Proof.
  intros Hn Hrows. rewrite (log_softmax_dim1_rows n c rows Hn Hrows). cbn [rbind].
  unfold CrossEntropyLoss, NLLLoss, of_rows. cbn [shape data].
  destruct (n =? length labels); [|reflexivity].
  destruct (forallb (fun y => y <? c) labels) eqn:Hl; [|reflexivity].
  subst n. rewrite (chunks_concat c rows Hrows).
  assert (Hls : Forall (fun r => length r = c) (map log_softmax_row rows)).
  { apply Forall_forall. intros r Hr. apply in_map_iff in Hr as (z & <- & Hz).
    rewrite log_softmax_row_length. rewrite Forall_forall in Hrows. now apply Hrows. }
  pose proof (chunks_concat c _ Hls) as Hc. rewrite length_map in Hc. rewrite Hc.
  now rewrite (cross_entropy_sum c rows labels Hrows Hl).
Qed.

(** The logits of the Part 3 layers on a flattened batch. *)
Lemma Part3_logits_rows (l1 l2 l3 : Linear) (n k : nat) (d : list R) :
  Linear_ok l3 ->
  match Sequential_forward (Part3_logits_model l1 l2 l3) (mkTensor [n; k] d) with
  | Ok logits => exists rows, logits = of_rows n (out_features l3) rows /\
                              length rows = n /\
                              Forall (fun r => length r = out_features l3) rows
  | Raise _ => True
  end.
Proof.
  intro H3. unfold Part3_logits_model. cbn [Sequential_forward Layer_forward].
  unfold Linear_forward at 1. cbn [shape data rev app].
  destruct (k =? in_features l1); [|exact I]. cbn [rbind rev app numel_of fold_right].
  unfold Linear_forward at 1, relu at 1, tmap at 1. cbn [shape data rev app].
  destruct (out_features l1 =? in_features l2); [|exact I].
  cbn [rbind rev app numel_of fold_right].
  unfold Linear_forward at 1, relu at 1, tmap at 1. cbn [shape data rev app].
  destruct (out_features l2 =? in_features l3); [|exact I].
  cbn [rbind rev app numel_of fold_right].
  eexists. split; [reflexivity|]. split.
  - rewrite length_map, chunks_length. lia.
  - now apply Forall_affine_length.
Qed.

(** X2. The first two loss cells of Part 3 compute the same number: the
    cross-entropy of the logits of the model without [nn.LogSoftmax] is the
    negative log-likelihood of the output of the model with it, for the
    same weights, images and labels; and where one raises, the other raises
    the same error. *)
Theorem cross_entropy_of_logits_is_nll_of_log_softmax
    (l1 l2 l3 : Linear) (images : Tensor) (labels : list nat) :
  Linear_ok l3 ->
  Part3_loss_from_logits l1 l2 l3 images labels
  = Part3_loss_from_log_probs l1 l2 l3 images labels.
Proof.
  intro H3. unfold Part3_loss_from_logits, Part3_loss_from_log_probs.
  destruct (shape0 images) as [n|e]; [|reflexivity]. cbn [rbind].
  unfold view_infer. destruct (n =? 0); [reflexivity|].
  destruct (numel images mod n =? 0); [|reflexivity]. cbn [rbind].
  rewrite Part3_model_split.
  pose proof (Part3_logits_rows l1 l2 l3 n (numel images / n) (data images) H3) as H.
  destruct (Sequential_forward (Part3_logits_model l1 l2 l3) _) as [logits|e];
    [|reflexivity].
  destruct H as (rows & -> & Hn & Hrows). cbn [rbind].
  now apply CrossEntropyLoss_rows.
Qed.

Lemma cross_entropy_of_logits_is_nll_of_log_softmax_witness :
  Linear_ok (zero_linear 64 10) /\
  Part3_loss_from_logits (zero_linear 784 128) (zero_linear 128 64) (zero_linear 64 10)
                         image1 [0]
  = Part3_loss_from_log_probs (zero_linear 784 128) (zero_linear 128 64) (zero_linear 64 10)
                              image1 [0].
Proof.
  split; [apply zero_linear_ok|].
  apply cross_entropy_of_logits_is_nll_of_log_softmax. apply zero_linear_ok.
Defined.

(** ** Probabilities of the softmax networks *)

Lemma In_chunks (k n : nat) (d row : list R) (x : R) :
  In row (chunks k n d) -> In x row -> In x d.
Proof.
  revert d. induction n as [|n IH]; intros d Hrow Hx; [contradiction|].
  cbn [chunks] in Hrow. destruct Hrow as [<- | Hrow].
  - rewrite <- (firstn_skipn k d). apply in_or_app. now left.
  - rewrite <- (firstn_skipn k d). apply in_or_app. right. now apply (IH (skipn k d)).
Qed.

(** The exponentials of log-probabilities are probabilities. *)
Lemma probability_rows_texp (c : nat) (log_ps : Tensor) :
  rows_are_distributions c log_ps -> probability_rows c (texp log_ps).
Proof.
  intros (n & Hs & Hn & Hrows). exists n.
  split; [exact Hs|]. split; [exact Hn|].
  apply Forall_forall. intros row Hrow.
  pose proof Hrows as Hrows'. rewrite Forall_forall in Hrows'.
  destruct (Hrows' row Hrow) as [Hlen Hsum].
  split; [exact Hlen|]. split; [exact Hsum|].
  apply Forall_forall. intros p Hp.
  unfold rows_of in Hrow. change (shape (texp log_ps)) with (shape log_ps) in Hrow.
  rewrite Hs in Hrow. change (data (texp log_ps)) with (map exp (data log_ps)) in Hrow.
  pose proof (In_chunks _ _ _ _ _ Hrow Hp) as Hin.
  apply in_map_iff in Hin as (v & <- & _). apply exp_pos.
Qed.

(** A last layer followed by the softmax over [dim=1] returns rows of
    probabilities. *)
Lemma last_layer_probabilities (l : Linear) (x out : Tensor) :
  Linear_ok l -> 0 < out_features l ->
  (y <-? Linear_forward l x ;; softmax_dim1 y) = Ok out ->
  probability_rows (out_features l) out.
Proof.
  intros Hl Hpos Hf.
  assert (H : rmap texp (y <-? Linear_forward l x ;; log_softmax_dim1 y) = Ok out).
  { destruct (Linear_forward l x) as [y|e]; [|discriminate].
    cbn [rbind] in *. now rewrite texp_log_softmax. }
  destruct (y <-? Linear_forward l x ;; log_softmax_dim1 y) as [lo|e] eqn:Hlo;
    [|discriminate].
  cbn [rmap rbind] in H. injection H as <-.
  apply probability_rows_texp. now apply (last_layer_distributions l x).
Qed.

Lemma probability_rows_wf (c : nat) (out : Tensor) (n : nat) :
  probability_rows c out -> shape out = [n; c] -> length (data out) = n * c -> wf_tensor out.
Proof.
  intros _ Hs Hd. unfold wf_tensor, numel. rewrite Hs, Hd. cbn [numel_of fold_right]. lia.
Qed.

Lemma softmax_dim1_rows (n c : nat) (rows : list (list R)) :
  length rows = n -> Forall (fun r => length r = c) rows ->
  softmax_dim1 (of_rows n c rows) = Ok (of_rows n c (map softmax_row rows)).
Proof.
  intros Hn Hrows. unfold softmax_dim1, of_rows. cbn [shape data].
  subst n. now rewrite chunks_concat.
Qed.

Lemma Forall_softmax_length (c : nat) (rows : list (list R)) :
  Forall (fun r => length r = c) rows ->
  Forall (fun r => length r = c) (map softmax_row rows).
Proof.
  intro H. apply Forall_forall. intros r Hr. apply in_map_iff in Hr as (z & <- & Hz).
  rewrite softmax_row_length. rewrite Forall_forall in H. now apply H.
Qed.

Lemma of_rows_wf (n c : nat) (rows : list (list R)) :
  length rows = n -> Forall (fun r => length r = c) rows -> wf_tensor (of_rows n c rows).
Proof.
  intros Hn Hrows. unfold wf_tensor, numel, of_rows. cbn [shape data numel_of fold_right].
  rewrite (concat_length_rows c rows Hrows). lia.
Qed.

Lemma Network_forward_rows (self : Network.t) (x : Tensor) (n : nat) :
  Network.init_ok self -> shape x = [n; 784] ->
  exists rows,
    Network.forward self x = Ok (of_rows n 10 (map softmax_row rows)) /\
    length rows = n /\ Forall (fun r => length r = 10) rows.
Proof.
  intros ((H1 & I1 & O1) & (H2 & I2 & O2)) Hs.
  unfold Network.forward. destruct x as [s d]. cbn [shape] in Hs. subst s.
  rewrite (Linear_forward_2d _ n 784 d I1). cbn [rbind].
  unfold Manual.sigmoid. rewrite tmap_of_rows.
  assert (Hn : length (map (affine (Network.hidden self)) (chunks 784 n d)) = n)
    by (now rewrite length_map, chunks_length).
  rewrite Linear_forward_rows.
  - cbn [rbind]. rewrite O2. rewrite softmax_dim1_rows.
    + eexists. split; [reflexivity|]. split.
      * now rewrite !length_map, chunks_length.
      * rewrite <- O2. now apply Forall_affine_length.
    + now rewrite !length_map, chunks_length.
    + rewrite <- O2. now apply Forall_affine_length.
  - congruence.
  - now rewrite length_map.
  - apply Forall_map_length. rewrite <- O1. now apply Forall_affine_length.
Qed.

Lemma Network_forward_last (self : Network.t) (x out : Tensor) :
  Network.forward self x = Ok out ->
  exists h, (y <-? Linear_forward (Network.output self) h ;; softmax_dim1 y) = Ok out.
Proof.
  unfold Network.forward. intro Hf.
  destruct (Linear_forward (Network.hidden self) x) as [x1|]; [|discriminate].
  cbn [rbind] in Hf. now exists (Manual.sigmoid x1).
Qed.

Lemma network0_ok : Network.init_ok network0.
Proof.
  unfold Network.init_ok, network0. cbn [Network.hidden Network.output].
  split; (split; [apply zero_linear_ok | split; reflexivity]).
Qed.

(** An entry of a list of non-negative numbers is at most their sum. *)
Lemma elem_le_sum (l : list R) (x : R) :
  Forall (fun v => (0 <= v)%R) l -> In x l -> (x <= sum_list l)%R.
Proof.
  induction 1 as [|v l Hv Hl IH]; intro Hx; [contradiction|].
  cbn [sum_list fold_right]. fold (sum_list l).
  assert (Hs : (0 <= sum_list l)%R).
  { clear -Hl. induction Hl as [|a l Ha _ IHl]; [cbn; lra|].
    cbn [sum_list fold_right]. fold (sum_list l). lra. }
  destruct Hx as [-> | Hx]; [lra|]. specialize (IH Hx). lra.
Qed.

Lemma probability_rows_closed (c : nat) (out : Tensor) :
  probability_rows c out -> distribution_rows c out.
Proof.
  intros (n & Hs & Hn & Hrows). exists n. split; [exact Hs|]. split; [exact Hn|].
  eapply Forall_impl; [|exact Hrows].
  intros row (Hlen & Hsum & Hpos). split; [exact Hlen|]. split; [exact Hsum|].
  apply Forall_forall. intros p Hp.
  pose proof Hpos as Hpos'. rewrite Forall_forall in Hpos'.
  pose proof (Hpos' p Hp) as H0.
  assert (Hle : (p <= sum_list row)%R).
  { apply elem_le_sum; [|exact Hp].
    eapply Forall_impl; [|exact Hpos]. intros v Hv. lra. }
  lra.
Qed.

(** X3. [Network.forward] on a batch of [n] flattened images returns [n]
    rows of ten numbers between 0 and 1 that add up to 1. *)
Theorem Network_forward_gives_probabilities (self : Network.t) (x : Tensor) (n : nat) :
  Network.init_ok self -> shape x = [n; 784] ->
  exists out, Network.forward self x = Ok out /\
              shape out = [n; 10] /\ wf_tensor out /\ distribution_rows 10 out.
Proof.
  intros Hok Hs.
  destruct (Network_forward_rows self x n Hok Hs) as (rows & Hf & Hn & Hrows).
  eexists. split; [exact Hf|]. split; [reflexivity|]. split.
  - apply of_rows_wf; [now rewrite length_map | now apply Forall_softmax_length].
  - apply probability_rows_closed.
    destruct (Network_forward_last self x _ Hf) as (h & Hh).
    destruct Hok as (_ & (H2 & _ & O2)).
    pose proof (last_layer_probabilities _ h _ H2 ltac:(lia) Hh) as Hd.
    now rewrite O2 in Hd.
Qed.

Lemma Network_forward_gives_probabilities_witness :
  Network.init_ok network0 /\ shape flat1 = [1; 784] /\
  exists out, Network.forward network0 flat1 = Ok out /\
              shape out = [1; 10] /\ wf_tensor out /\ distribution_rows 10 out.
Proof.
  split; [exact network0_ok|]. split; [reflexivity|].
  exact (Network_forward_gives_probabilities network0 flat1 1 network0_ok eq_refl).
Defined.

(** ** The forward-pass cells that resize the batch in place *)





Lemma select_row_empty (junk : nat -> R) (t : Tensor) (rest : list nat) :
  select_row 0 (resize_ junk t (0 :: 1 :: rest)) = Raise IndexError.
Proof. reflexivity. Qed.









(** ** The hand-written sigmoid and the matrix-product network *)

Section Sigmoid.

Local Open Scope R_scope.

Lemma sigmoid_scalar_range (x : R) : 0 < Manual.sigmoid_scalar x < 1.
Proof.
  unfold Manual.sigmoid_scalar. pose proof (exp_pos (- x)) as He.
  assert (Hd : 0 < 1 + exp (- x)) by lra.
  split.
  - apply Rdiv_lt_0_compat; lra.
  - apply (Rmult_lt_reg_r (1 + exp (- x))); [exact Hd|].
    unfold Rdiv. rewrite Rmult_assoc, Rinv_l by lra. lra.
Qed.

Lemma sigmoid_scalar_opp (x : R) :
  Manual.sigmoid_scalar (- x) = 1 - Manual.sigmoid_scalar x.
Proof.
  unfold Manual.sigmoid_scalar. rewrite Ropp_involutive, exp_Ropp.
  pose proof (exp_pos x) as He.
  assert (Hi : 0 < / exp x) by (now apply Rinv_0_lt_compat).
  field. split; lra.
Qed.

Lemma sigmoid_scalar_increasing (x y : R) :
  x < y -> Manual.sigmoid_scalar x < Manual.sigmoid_scalar y.
Proof.
  intro Hxy. unfold Manual.sigmoid_scalar.
  pose proof (exp_pos (- x)) as Hx. pose proof (exp_pos (- y)) as Hy.
  assert (He : exp (- y) < exp (- x)) by (apply exp_increasing; lra).
  unfold Rdiv. rewrite !Rmult_1_l.
  apply Rinv_lt_contravar; [apply Rmult_lt_0_compat; lra | lra].
Qed.

Lemma sigmoid_scalar_bounds (x : R) : 0 <= Manual.sigmoid_scalar x <= 1.
Proof. pose proof (sigmoid_scalar_range x). lra. Qed.

Lemma sigmoid_scalar_monotone (x y : R) :
  x <= y -> Manual.sigmoid_scalar x <= Manual.sigmoid_scalar y.
Proof.
  intros [Hlt | ->]; [|lra]. left. now apply sigmoid_scalar_increasing.
Qed.

End Sigmoid.

(** X6. The notebook's [sigmoid] takes its values between 0 and 1, is 1/2
    at 0, never decreases, and satisfies [sigmoid(-x) = 1 - sigmoid(x)].
    The bounds are the closed ones: for an argument of some size the
    computed value is 1 itself, and from there on the function is flat. *)
Theorem sigmoid_is_a_squashing_function :
  (forall x : R, (0 <= Manual.sigmoid_scalar x <= 1)%R) /\
  Manual.sigmoid_scalar 0 = (1 / 2)%R /\
  (forall x y : R, (x <= y)%R -> (Manual.sigmoid_scalar x <= Manual.sigmoid_scalar y)%R) /\
  (forall x : R, Manual.sigmoid_scalar (- x) = (1 - Manual.sigmoid_scalar x)%R) /\
  (forall t : Tensor, shape (Manual.sigmoid t) = shape t /\
                      length (data (Manual.sigmoid t)) = length (data t)).
Proof.
  split; [exact sigmoid_scalar_bounds|].
  split; [unfold Manual.sigmoid_scalar; rewrite Ropp_0, exp_0; lra|].
  split; [exact sigmoid_scalar_monotone|].
  split; [exact sigmoid_scalar_opp|].
  intro t. split; [reflexivity|]. unfold Manual.sigmoid, tmap. cbn [data]. apply length_map.
Qed.

Lemma sigmoid_is_a_squashing_function_witness :
  (0 <= 1)%R /\ (Manual.sigmoid_scalar 0 <= Manual.sigmoid_scalar 1)%R.
Proof.
  split; [lra|].
  apply (proj1 (proj2 (proj2 sigmoid_is_a_squashing_function)) 0%R 1%R). lra.
Defined.

Lemma transpose_length (b : list (list R)) : length (transpose b) = length (hd [] b).
Proof. unfold transpose, columns. now rewrite length_map, length_seq. Qed.

Lemma matmul_rows_lengths (a b : list (list R)) :
  Forall (fun r => length r = length (hd [] b)) (matmul_rows a b).
Proof.
  unfold matmul_rows. apply Forall_forall. intros r Hr.
  apply in_map_iff in Hr as (row & <- & _). now rewrite length_map, transpose_length.
Qed.

(** The product of an [n x k] and a well-formed [k x m] matrix holds
    [n * m] numbers. *)
Lemma matmul_wf (a b : Tensor) (n k m : nat) :
  shape a = [n; k] -> shape b = [k; m] -> 0 < k -> wf_tensor b ->
  exists out, matmul a b = Ok out /\ shape out = [n; m] /\ length (data out) = n * m.
Proof.
  intros Ha Hb Hk Hwf. unfold matmul. rewrite Ha, Hb, Nat.eqb_refl.
  eexists. split; [reflexivity|]. split; [reflexivity|].
  unfold of_rows. cbn [data].
  assert (Hhd : length (hd [] (chunks m k (data b))) = m).
  { destruct k as [|k]; [lia|]. cbn [chunks hd]. rewrite length_firstn.
    unfold wf_tensor, numel in Hwf. rewrite Hb in Hwf. cbn [numel_of fold_right] in Hwf.
    rewrite Hwf. apply Nat.min_l. nia. }
  pose proof (matmul_rows_lengths (chunks k n (data a)) (chunks m k (data b))) as Hl.
  rewrite Hhd in Hl. rewrite (concat_length_rows m _ Hl).
  unfold matmul_rows. now rewrite length_map, chunks_length.
Qed.

Lemma tadd_wf (a b : Tensor) (k : nat) :
  shape a = shape b -> length (data a) = k -> length (data b) = k ->
  exists out, tadd a b = Ok out /\ shape out = shape a /\ length (data out) = k.
Proof.
  intros Hs Ha Hb. unfold tadd.
  destruct (list_eq_dec Nat.eq_dec (shape a) (shape b)) as [_|N]; [|contradiction].
  eexists. split; [reflexivity|]. split; [reflexivity|].
  cbn [data]. rewrite vadd_length, Ha, Hb. apply Nat.min_id.
Qed.

Lemma wf_length (t : Tensor) (a b : nat) :
  shape t = [a; b] -> wf_tensor t -> length (data t) = a * b.
Proof.
  intros Hs Hwf. unfold wf_tensor, numel in Hwf. rewrite Hs in Hwf.
  cbn [numel_of fold_right] in Hwf. lia.
Qed.

(** X7. On a batch of 64 images the matrix-product network returns 64 x 10
    numbers, each between 0 and 1: the outputs of a sigmoid, which the
    next cell of the notebook still has to turn into probabilities. *)
Theorem manual_network_outputs_lie_in_unit_interval
    (p : Manual.Params) (images : Tensor) :
  Manual.init_ok p -> numel images = 64 * 784 ->
  exists out, Manual.network p images = Ok out /\
              shape out = [64; 10] /\ length (data out) = 64 * 10 /\
              Forall (fun v => (0 <= v <= 1)%R) (data out).
Proof.
  intros ((S1 & F1) & (S2 & F2) & (S3 & F3) & (S4 & F4)) Hn.
  unfold Manual.network, reshape.
  change (numel_of [64; 28 * 28]) with (64 * 784).
  apply Nat.eqb_eq in Hn. rewrite Hn. cbn [rbind].
  destruct (matmul_wf (mkTensor [64; 28 * 28] (data images)) (Manual.W1 p) 64 784 256)
    as (a1 & -> & Ha1 & La1); [reflexivity | exact S1 | lia | exact F1 |]. cbn [rbind].
  destruct (tadd_wf a1 (Manual.b1 p) (64 * 256))
    as (z1 & -> & Hz1 & Lz1); [congruence | exact La1 | now apply wf_length |].
  cbn [rbind].
  destruct (matmul_wf (Manual.sigmoid z1) (Manual.W2 p) 64 256 10)
    as (a2 & -> & Ha2 & La2);
    [rewrite sigmoid_shape; congruence | exact S2 | lia | exact F2 |]. cbn [rbind].
  destruct (tadd_wf a2 (Manual.b2 p) (64 * 10))
    as (z2 & -> & Hz2 & Lz2); [congruence | exact La2 | now apply wf_length |].
  cbn [rbind]. eexists. split; [reflexivity|].
  split; [rewrite sigmoid_shape; congruence|].
  unfold Manual.sigmoid, tmap. cbn [data]. split; [now rewrite length_map|].
  apply Forall_forall. intros v Hv. apply in_map_iff in Hv as (x & <- & _).
  apply sigmoid_scalar_bounds.
Qed.

Lemma manual_network_outputs_lie_in_unit_interval_witness :
  Manual.init_ok manual0 /\ numel flat64 = 64 * 784 /\
  exists out, Manual.network manual0 flat64 = Ok out /\
              shape out = [64; 10] /\ length (data out) = 64 * 10 /\
              Forall (fun v => (0 <= v <= 1)%R) (data out).
Proof.
  assert (H64 : numel flat64 = 64 * 784).
  { unfold numel, flat64. cbn [shape numel_of fold_right]. lia. }
  split; [exact manual0_ok|]. split; [exact H64|].
  exact (manual_network_outputs_lie_in_unit_interval manual0 flat64 manual0_ok H64).
Defined.

(** ** Accuracy and validation totals *)

Section Counting.

Local Open Scope R_scope.

Lemma sum_indicator_bounds (l : list bool) :
  0 <= sum_list (map indicator l) <= INR (length l).
Proof.
  induction l as [|b l IH]; [cbn; lra|].
  cbn [map sum_list fold_right length]. fold (sum_list (map indicator l)).
  rewrite S_INR. destruct b; cbn [indicator]; lra.
Qed.

Lemma sum_indicator_full (l : list bool) :
  sum_list (map indicator l) = INR (length l) <-> forallb (fun b => b) l = true.
Proof.
  induction l as [|b l IH]; [cbn; tauto|].
  cbn [map sum_list fold_right length forallb]. fold (sum_list (map indicator l)).
  rewrite S_INR. pose proof (sum_indicator_bounds l) as Hb.
  destruct b; cbn [indicator andb].
  - rewrite <- IH. split; intro; lra.
  - split; [intro; lra | discriminate].
Qed.

Lemma mean_bool_bounds (l : list bool) : 0 <= mean_bool l <= 1.
Proof.
  unfold mean_bool. change (fun b : bool => if b then 1 else 0) with indicator.
  pose proof (sum_indicator_bounds l) as Hb.
  destruct l as [|b l].
  - cbn. unfold Rdiv. rewrite Rmult_0_l. lra.
  - assert (Hpos : 0 < INR (length (b :: l))) by (apply lt_0_INR; cbn; lia).
    split.
    + apply Rmult_le_pos; [lra|]. left. now apply Rinv_0_lt_compat.
    + apply (Rmult_le_reg_r (INR (length (b :: l)))); [exact Hpos|].
      unfold Rdiv. rewrite Rmult_assoc, Rinv_l by lra. lra.
Qed.

Lemma mean_bool_full (l : list bool) :
  l <> [] -> (mean_bool l = 1 <-> forallb (fun b => b) l = true).
Proof.
  intro Hl. rewrite <- sum_indicator_full. unfold mean_bool.
  change (fun b : bool => if b then 1 else 0) with indicator.
  assert (Hpos : 0 < INR (length l)).
  { apply lt_0_INR. destruct l; [contradiction | cbn; lia]. }
  split; intro H.
  - apply (Rmult_eq_compat_r (INR (length l))) in H.
    unfold Rdiv in H. rewrite Rmult_assoc, Rinv_l in H by lra. lra.
  - rewrite H. field. lra.
Qed.

(** Every log-probability is at most 0. *)
Lemma log_prob_nonpos (r : list R) (x : R) :
  sum_list (map exp r) = 1 -> In x r -> x <= 0.
Proof.
  intros Hsum Hx.
  assert (He : exp x <= 1).
  { rewrite <- Hsum. apply elem_le_sum.
    - apply Forall_forall. intros v Hv. apply in_map_iff in Hv as (u & <- & _).
      left. apply exp_pos.
    - now apply in_map. }
  destruct (Rle_or_lt x 0) as [H|H]; [exact H|].
  apply exp_increasing in H. rewrite exp_0 in H. lra.
Qed.

Lemma NLLLoss_nonneg (c : nat) (log_ps : Tensor) (labels : list nat) (l : R) :
  rows_are_distributions c log_ps -> NLLLoss log_ps labels = Ok l -> 0 <= l.
Proof.
  intros (n & Hs & Hn & Hrows) Hl. unfold NLLLoss in Hl. rewrite Hs in Hl.
  destruct (n =? length labels); [|discriminate].
  destruct (forallb (fun y => y <? c) labels); [|discriminate].
  injection Hl as <-.
  unfold rows_of in Hrows. change (shape (texp log_ps)) with (shape log_ps) in Hrows.
  rewrite Hs in Hrows. change (data (texp log_ps)) with (map exp (data log_ps)) in Hrows.
  rewrite chunks_map in Hrows.
  assert (Hsum : sum_list (map (fun p : list R * nat => nth (snd p) (fst p) 0)
                               (combine (chunks c n (data log_ps)) labels)) <= 0).
  { assert (Hall : Forall (fun r => sum_list (map exp r) = 1) (chunks c n (data log_ps))).
    { apply Forall_forall. intros r Hr. rewrite Forall_forall in Hrows.
      apply (Hrows (map exp r)). now apply in_map. }
    clear Hrows Hn. revert labels.
    induction Hall as [|r rows Hr _ IH]; intro labels; [cbn; lra|].
    destruct labels as [|y labels]; [cbn; lra|].
    cbn [combine map sum_list fold_right fst snd].
    specialize (IH labels). unfold sum_list in IH.
    assert (Hy : nth y r 0 <= 0).
    { destruct (nth_in_or_default y r 0) as [Hin | ->]; [|lra].
      now apply (log_prob_nonpos r). }
    lra. }
  destruct n as [|n].
  - cbn [chunks combine map sum_list fold_right]. unfold Rdiv. rewrite Ropp_0, Rmult_0_l. lra.
  - assert (Hpos : 0 < INR (S n)) by (apply lt_0_INR; lia).
    apply Rmult_le_pos; [lra|]. left. now apply Rinv_0_lt_compat.
Qed.

End Counting.

Lemma argmax_from_lt (best_i : nat) (best : R) (i : nat) (l : list R) :
  best_i < i -> argmax_from best_i best i l < i + length l.
Proof.
  revert best_i best i. induction l as [|x l IH]; intros best_i best i H.
  - cbn. lia.
  - cbn [argmax_from length]. destruct (Rlt_dec best x).
    + specialize (IH i x (S i)). lia.
    + specialize (IH best_i best (S i)). lia.
Qed.

Lemma argmax_lt (l : list R) : l <> [] -> argmax l < length l.
Proof.
  destruct l as [|x l]; [contradiction|]. intros _. cbn [argmax length].
  pose proof (argmax_from_lt 0 x 1 l). lia.
Qed.

Lemma forallb_eqb_combine (a b : list nat) :
  length a = length b ->
  (forallb (fun v => v) (map (fun p => fst p =? snd p) (combine a b)) = true <-> a = b).
Proof.
  revert b. induction a as [|x a IH]; intros [|y b] Hl; try discriminate.
  - cbn. tauto.
  - cbn [combine map forallb fst snd]. rewrite andb_true_iff, Nat.eqb_eq, IH by (cbn in Hl; lia).
    split; [intros [-> ->]; reflexivity | intros [= -> ->]; split; reflexivity].
Qed.

(** The classes [topk] reports for the probabilities of a classifier. *)
Lemma topk1_of_rows (n c : nat) (rows : list (list R)) :
  0 < c -> length rows = n -> Forall (fun r => length r = c) rows ->
  topk1_dim1 (of_rows n c rows) = Ok (map max_list rows, map argmax rows).
Proof.
  intros Hc Hn Hrows. unfold topk1_dim1, of_rows. cbn [shape data].
  destruct (Nat.eqb_spec c 0) as [->|_]; [lia|].
  subst n. now rewrite chunks_concat.
Qed.

(** X8. The accuracy cells on one batch of the test set: with one
    label per image they return one class below 10 per image and an accuracy
    between 0 and 1, which is 1 exactly when every class equals its label;
    with any other number of labels the comparison raises. *)
Theorem batch_accuracy_is_a_fraction
    (model : Classifier.t) (images : Tensor) (labels : list nat) (n : nat) (rest : list nat) :
  Classifier.init_ok model ->
  shape images = n :: rest -> 0 < n -> numel_of rest = 784 ->
  (length labels = n ->
   exists classes accuracy,
     Part5_batch_accuracy model images labels = Ok (classes, accuracy) /\
     length classes = n /\ Forall (fun c => c < 10) classes /\
     (0 <= accuracy <= 1)%R /\
     (accuracy = 1%R <-> classes = labels)) /\
  (length labels <> n ->
   Part5_batch_accuracy model images labels = Raise RuntimeError).
Proof.
  intros Hok Hs Hn Hrest. unfold Part5_batch_accuracy.
  rewrite (Classifier_forward_rows model images n rest Hok Hs Hn Hrest). cbn [rbind].
  set (rows := map (Classifier_row model) (chunks 784 n (data images))).
  assert (Hlen : length rows = n) by (subst rows; now rewrite length_map, chunks_length).
  assert (Hrows : Forall (fun r => length r = 10) rows).
  { subst rows. apply Forall_forall. intros r Hr. apply in_map_iff in Hr as (z & <- & _).
    now apply Classifier_row_length. }
  unfold texp. rewrite tmap_of_rows.
  rewrite topk1_of_rows;
    [| lia | now rewrite length_map | now apply Forall_map_length].
  cbn [rbind snd]. unfold equals_labels. rewrite !length_map, Hlen.
  split.
  - intro Hl. rewrite Hl, Nat.eqb_refl. cbn [rbind].
    eexists. eexists. split; [reflexivity|].
    split; [now rewrite !length_map|]. split; [|split].
    + apply Forall_forall. intros c Hc. apply in_map_iff in Hc as (r & <- & Hr).
      apply in_map_iff in Hr as (z & <- & Hz).
      rewrite Forall_forall in Hrows. specialize (Hrows z Hz).
      pose proof (argmax_lt (map exp z)) as Ha. rewrite length_map, Hrows in Ha.
      apply Ha. intro E. apply (f_equal (@length R)) in E. rewrite length_map, Hrows in E.
      discriminate.
    + apply mean_bool_bounds.
    + rewrite mean_bool_full.
      * apply forallb_eqb_combine. rewrite !length_map. lia.
      * intro E. apply (f_equal (@length bool)) in E.
        rewrite length_map, length_combine, !length_map, Hlen, Hl, Nat.min_id in E.
        cbn in E. lia.
  - intro Hl. destruct (Nat.eqb_spec (length labels) n) as [E|_]; [contradiction|].
    reflexivity.
Qed.

Lemma batch_accuracy_is_a_fraction_witness :
  Classifier.init_ok classifier0 /\ shape image1 = 1 :: [1; 28; 28] /\ 0 < 1 /\
  numel_of [1; 28; 28] = 784 /\
  (length [0] = 1 /\
   exists classes accuracy,
     Part5_batch_accuracy classifier0 image1 [0] = Ok (classes, accuracy) /\
     length classes = 1 /\ Forall (fun c => c < 10) classes /\
     (0 <= accuracy <= 1)%R /\
     (accuracy = 1%R <-> classes = [0])) /\
  (length [0; 1] <> 1 /\
   Part5_batch_accuracy classifier0 image1 [0; 1] = Raise RuntimeError).
Proof.
  split; [exact classifier0_ok|]. split; [reflexivity|]. split; [lia|].
  split; [reflexivity|]. split.
  - split; [reflexivity|].
    exact (proj1 (batch_accuracy_is_a_fraction classifier0 image1 [0] 1 [1; 28; 28]
                    classifier0_ok eq_refl (Nat.lt_0_succ 0) eq_refl) eq_refl).
  - assert (H : length [0; 1] <> 1) by (cbn; lia).
    split; [exact H|].
    exact (proj2 (batch_accuracy_is_a_fraction classifier0 image1 [0; 1] 1 [1; 28; 28]
                    classifier0_ok eq_refl (Nat.lt_0_succ 0) eq_refl) H).
Defined.

(** ** The dropout classifier on a batch *)

Lemma dropout_run (p : R) (training : bool) (t : Tensor) (g : Rng) :
  dropout p training t g
  = (Ok (mkTensor (shape t)
           (if training
            then drop_data p (data t) (map (bits g) (seq (pos g) (length (data t))))
            else data t)),
     if training then mkRng (bits g) (pos g + length (data t)) else g).
Proof. destruct training, t; reflexivity. Qed.

Lemma drop_data_length (p : R) (d : list R) (mask : list bool) :
  length mask = length d -> length (drop_data p d mask) = length d.
Proof.
  intro H. unfold drop_data. rewrite length_map, length_combine, H. apply Nat.min_id.
Qed.

Lemma hidden_data_length (l : Linear) (k n : nat) (d : list R) :
  Linear_ok l ->
  length (data (relu (of_rows n (out_features l) (map (affine l) (chunks k n d)))))
  = n * out_features l.
Proof.
  intro Hl. unfold relu, tmap, of_rows. cbn [data]. rewrite length_map.
  rewrite (concat_length_rows (out_features l)) by (now apply Forall_affine_length).
  now rewrite length_map, chunks_length.
Qed.

Lemma dropout_forward_run (self : Classifier_with_Drop_out.t) (training : bool)
      (x : Tensor) (n : nat) (rest : list nat) (g : Rng) :
  Classifier_with_Drop_out.init_ok self ->
  shape x = n :: rest -> 0 < n -> numel_of rest = 784 ->
  exists rows,
    Classifier_with_Drop_out.forward self training x g
    = (Ok (of_rows n 10 (map log_softmax_row rows)),
       if training then mkRng (bits g) (pos g + 448 * n) else g) /\
    length rows = n /\ Forall (fun r => length r = 10) rows.
Proof.
  intros (((H1 & I1 & O1) & (H2 & I2 & O2) & (H3 & I3 & O3) & (H4 & I4 & O4)) & _)
         Hs Hn Hrest.
  cbn [Classifier.fc1 Classifier.fc2 Classifier.fc3 Classifier.fc4] in *.
  unfold Classifier_with_Drop_out.forward, shape0. rewrite Hs.
  rewrite bind_lift_Ok. rewrite (view_infer_ok x n rest Hs Hn), Hrest.
  rewrite bind_lift_Ok. rewrite (Linear_forward_2d _ n 784 _ I1).
  rewrite bind_lift_Ok.
  rewrite (bind_pair_Ok _ _ _ _ _ (dropout_run _ training _ g)).
  rewrite (hidden_data_length _ 784 n _ H1), O1.
  set (g1 := if training then _ else g).
  cbn [shape relu tmap of_rows].
  rewrite (Linear_forward_2d _ n 256 _ I2). rewrite bind_lift_Ok.
  rewrite (bind_pair_Ok _ _ _ _ _ (dropout_run _ training _ g1)).
  rewrite (hidden_data_length _ 256 n _ H2), O2.
  set (g2 := if training then _ else g1).
  cbn [shape relu tmap of_rows].
  rewrite (Linear_forward_2d _ n 128 _ I3). rewrite bind_lift_Ok.
  rewrite (bind_pair_Ok _ _ _ _ _ (dropout_run _ training _ g2)).
  rewrite (hidden_data_length _ 128 n _ H3), O3.
  set (g3 := if training then _ else g2).
  cbn [shape relu tmap of_rows].
  rewrite (Linear_forward_2d _ n 64 _ I4). rewrite bind_lift_Ok.
  rewrite O4.
  set (rows := map (affine (Classifier_with_Drop_out.fc4 self)) _).
  assert (Hlen : length rows = n) by (subst rows; now rewrite length_map, chunks_length).
  assert (Hrows : Forall (fun r => length r = 10) rows).
  { subst rows. rewrite <- O4. now apply Forall_affine_length. }
  rewrite (log_softmax_dim1_rows n 10 rows Hlen Hrows).
  exists rows. split; [|split; assumption].
  unfold lift. f_equal. subst g3 g2 g1. destruct training; [|reflexivity].
  cbn [bits pos]. f_equal. lia.
Qed.

(** X9. On a batch of [n] images the dropout classifier returns [n] rows of ten
    log-probabilities in either mode.  In training mode it takes
    [448 * n] draws from the random source, one per hidden unit and image;
    in evaluation mode it takes none. *)
Theorem dropout_forward_shape_and_draws
    (self : Classifier_with_Drop_out.t) (training : bool)
    (x : Tensor) (n : nat) (rest : list nat) (g : Rng) :
  Classifier_with_Drop_out.init_ok self ->
  shape x = n :: rest -> 0 < n -> numel_of rest = 784 ->
  exists out,
    fst (Classifier_with_Drop_out.forward self training x g) = Ok out /\
    shape out = [n; 10] /\ wf_tensor out /\
    bits (snd (Classifier_with_Drop_out.forward self training x g)) = bits g /\
    pos (snd (Classifier_with_Drop_out.forward self training x g))
    = pos g + (if training then 448 * n else 0).
Proof.
  intros Hok Hs Hn Hrest.
  destruct (dropout_forward_run self training x n rest g Hok Hs Hn Hrest)
    as (rows & -> & Hlen & Hrows).
  eexists. split; [reflexivity|]. split; [reflexivity|]. split.
  - apply of_rows_wf; [now rewrite length_map|].
    apply Forall_forall. intros r Hr. apply in_map_iff in Hr as (z & <- & Hz).
    rewrite log_softmax_row_length. rewrite Forall_forall in Hrows. now apply Hrows.
  - cbn [snd]. destruct training; cbn [bits pos]; split; try reflexivity. lia.
Qed.

Lemma dropout_forward_shape_and_draws_witness :
  Classifier_with_Drop_out.init_ok drop_cex /\
  shape image1 = 1 :: [1; 28; 28] /\ 0 < 1 /\ numel_of [1; 28; 28] = 784 /\
  exists out,
    fst (Classifier_with_Drop_out.forward drop_cex true image1 g_cex) = Ok out /\
    shape out = [1; 10] /\ wf_tensor out /\
    bits (snd (Classifier_with_Drop_out.forward drop_cex true image1 g_cex)) = bits g_cex /\
    pos (snd (Classifier_with_Drop_out.forward drop_cex true image1 g_cex))
    = pos g_cex + 448 * 1.
Proof.
  split; [exact drop_cex_ok|]. split; [reflexivity|]. split; [lia|].
  split; [reflexivity|].
  exact (dropout_forward_shape_and_draws drop_cex true image1 1 [1; 28; 28] g_cex
           drop_cex_ok eq_refl (Nat.lt_0_succ 0) eq_refl).
Defined.

(** ** Totals of a validation pass *)

Lemma log_softmax_rows_distributions (n c : nat) (rows : list (list R)) :
  0 < c -> length rows = n -> Forall (fun r => length r = c) rows ->
  rows_are_distributions c (of_rows n c (map log_softmax_row rows)).
Proof.
  intros Hc Hn Hrows. exists n. split; [reflexivity|].
  assert (Hexp : rows_of (texp (of_rows n c (map log_softmax_row rows)))
                 = map (map exp) (map log_softmax_row rows)).
  { unfold texp. rewrite tmap_of_rows. unfold rows_of, of_rows. cbn [shape data].
    rewrite <- Hn at 1.
    rewrite <- (length_map log_softmax_row), <- (length_map (map exp)).
    apply chunks_concat. apply Forall_map_length.
    apply Forall_forall. intros r Hr. apply in_map_iff in Hr as (z & <- & Hz).
    rewrite log_softmax_row_length. rewrite Forall_forall in Hrows. now apply Hrows. }
  rewrite Hexp. split; [now rewrite !length_map|].
  apply Forall_forall. intros r Hr.
  apply in_map_iff in Hr as (lp & <- & Hlp).
  apply in_map_iff in Hlp as (z & <- & Hz).
  rewrite Forall_forall in Hrows. specialize (Hrows z Hz).
  split.
  - now rewrite length_map, log_softmax_row_length.
  - apply exp_log_softmax_row_sum. intros ->. cbn in Hrows. lia.
Qed.

Section ValidationTotals.

Context {Mdl O : Type} {Mod : Module Mdl}.

Variable ok : Mdl -> Prop.

Hypothesis forward_ok :
  forall (self : Mdl) (tr : bool) (x : Tensor) (g : Rng) (n : nat) (rest : list nat),
    ok self -> shape x = n :: rest -> 0 < n -> numel_of rest = 784 ->
    exists rows,
      fst (Module_forward self tr x g) = Ok (of_rows n 10 (map log_softmax_row rows)) /\
      length rows = n /\ Forall (fun r => length r = 10) rows.

Lemma validation_step_good (b : Batch) (acc : R * R) (w : World Mdl O) :
  ok (model w) -> loader_batch b ->
  exists l a w',
    validation_step b acc w = (Ok (fst acc + l, snd acc + a)%R, w') /\
    (0 <= l)%R /\ (0 <= a <= 1)%R /\ model w' = model w.
Proof.
  intros Hok (n & rest & Hs & Hn & Hrest & Hl & Hy).
  destruct b as [images labels], acc as [test_loss accuracy]. cbn [fst snd] in *.
  unfold validation_step. unfold bind at 1, model_call, emit.
  cbn [model training grad grad_enabled rng optimizer trace].
  destruct (forward_ok (model w) (training w) images (rng w) n rest Hok Hs Hn Hrest)
    as (rows & Hf & Hlen & Hrows).
  destruct (Module_forward (model w) (training w) images (rng w)) as [r g'].
  cbn [fst] in Hf. subst r.
  unfold bind at 1, criterion, bind, emit, lift, ret. cbn [value].
  set (lrows := map log_softmax_row rows).
  assert (Hllen : length lrows = n) by (subst lrows; now rewrite length_map).
  assert (Hlrows : Forall (fun r => length r = 10) lrows).
  { subst lrows. apply Forall_forall. intros r Hr. apply in_map_iff in Hr as (z & <- & Hz).
    rewrite log_softmax_row_length. rewrite Forall_forall in Hrows. now apply Hrows. }
  destruct (NLLLoss_rows n lrows labels Hl Hy) as (l & HN). rewrite HN.
  unfold texp. rewrite tmap_of_rows.
  rewrite topk1_of_rows;
    [| lia | now rewrite length_map | now apply Forall_map_length].
  cbn [snd]. unfold equals_labels. rewrite !length_map, Hllen, Hl, Nat.eqb_refl.
  cbn [item]. eexists. eexists. eexists. split; [reflexivity|].
  split; [|split; [apply mean_bool_bounds | reflexivity]].
  apply (NLLLoss_nonneg 10 (of_rows n 10 lrows) labels l); [|exact HN].
  subst lrows. apply log_softmax_rows_distributions; [lia | assumption | assumption].
Qed.

Lemma validation_loop_good (testloader : list Batch) (acc : R * R) (w : World Mdl O) :
  ok (model w) -> Forall loader_batch testloader ->
  exists test_loss accuracy w',
    for_each validation_step testloader acc w = (Ok (test_loss, accuracy), w') /\
    (fst acc <= test_loss)%R /\
    (snd acc <= accuracy <= snd acc + INR (length testloader))%R.
Proof.
  intros Hok Hall. revert acc w Hok.
  induction Hall as [|b testloader Hb _ IH]; intros acc w Hok.
  - destruct acc as [t a]. exists t, a, w. cbn. split; [reflexivity|]. lra.
  - cbn [for_each]. unfold bind.
    destruct (validation_step_good b acc w Hok Hb) as (l & a & w1 & -> & Hl & Ha & Hm).
    rewrite <- Hm in Hok.
    destruct (IH (fst acc + l, snd acc + a)%R w1 Hok) as (t' & a' & w' & -> & Ht & Ha').
    exists t', a', w'. split; [reflexivity|].
    cbn [fst snd length] in *. rewrite S_INR. lra.
Qed.

Lemma validation_pass_good (testloader : list Batch) (w : World Mdl O) :
  ok (model w) -> Forall loader_batch testloader ->
  exists test_loss accuracy,
    fst (validation_pass testloader w) = Ok (test_loss, accuracy) /\
    (0 <= test_loss)%R /\ (0 <= accuracy <= INR (length testloader))%R.
Proof.
  intros Hok Hall. unfold validation_pass, no_grad.
  destruct (validation_loop_good testloader (0, 0)%R (set_grad_enabled false w) Hok Hall)
    as (t & a & w' & -> & Ht & Ha).
  exists t, a. cbn [fst snd] in *. split; [reflexivity|]. lra.
Qed.

End ValidationTotals.

Lemma Classifier_forward_ok
    (self : Classifier.t) (tr : bool) (x : Tensor) (g : Rng) (n : nat) (rest : list nat) :
  Classifier.init_ok self -> shape x = n :: rest -> 0 < n -> numel_of rest = 784 ->
  exists rows,
    fst (Module_forward self tr x g) = Ok (of_rows n 10 (map log_softmax_row rows)) /\
    length rows = n /\ Forall (fun r => length r = 10) rows.
Proof.
  intros Hok Hs Hn Hrest. cbn [Module_forward Classifier_Module lift fst].
  rewrite (Classifier_forward_rows self x n rest Hok Hs Hn Hrest).
  unfold Classifier_row.
  exists (map (fun v => affine (Classifier.fc4 self)
                   (map relu_scalar (affine (Classifier.fc3 self)
                      (map relu_scalar (affine (Classifier.fc2 self)
                         (map relu_scalar (affine (Classifier.fc1 self) v)))))))
              (chunks 784 n (data x))).
  split; [now rewrite map_map|]. split; [now rewrite length_map, chunks_length|].
  apply Forall_forall. intros r Hr. apply in_map_iff in Hr as (z & <- & _).
  destruct Hok as (_ & _ & _ & (H4 & _ & O4)). rewrite <- O4. now apply affine_length.
Qed.

Lemma dropout_forward_ok
    (self : Classifier_with_Drop_out.t) (tr : bool) (x : Tensor) (g : Rng)
    (n : nat) (rest : list nat) :
  Classifier_with_Drop_out.init_ok self ->
  shape x = n :: rest -> 0 < n -> numel_of rest = 784 ->
  exists rows,
    fst (Module_forward self tr x g) = Ok (of_rows n 10 (map log_softmax_row rows)) /\
    length rows = n /\ Forall (fun r => length r = 10) rows.
Proof.
  intros Hok Hs Hn Hrest. cbn [Module_forward Classifier_with_Drop_out_Module].
  destruct (dropout_forward_run self tr x n rest g Hok Hs Hn Hrest)
    as (rows & -> & Hlen & Hrows).
  now exists rows.
Qed.

Lemma loader_batch_image1 : loader_batch (image1, [0]).
Proof.
  exists 1, [1; 28; 28]. cbn [fst snd].
  split; [reflexivity|]. split; [lia|]. split; [reflexivity|]. split; [reflexivity|].
  apply Forall_cons; [lia | apply Forall_nil].
Qed.

(** X10. A validation pass over batches as the test loader delivers them
    returns, for the plain and for the dropout classifier; the loss it has
    added up is not negative, and the accuracy it has added up lies between
    0 and the number of batches, so that the accuracy the loop prints lies
    between 0 and 1. *)
Theorem validation_totals_are_bounded :
  (forall (O : Type) (testloader : list Batch) (w : World Classifier.t O),
      Classifier.init_ok (model w) -> Forall loader_batch testloader ->
      exists test_loss accuracy,
        fst (validation_pass testloader w) = Ok (test_loss, accuracy) /\
        (0 <= test_loss)%R /\ (0 <= accuracy <= INR (length testloader))%R) /\
  (forall (O : Type) (testloader : list Batch) (w : World Classifier_with_Drop_out.t O),
      Classifier_with_Drop_out.init_ok (model w) -> Forall loader_batch testloader ->
      exists test_loss accuracy,
        fst (validation_pass testloader w) = Ok (test_loss, accuracy) /\
        (0 <= test_loss)%R /\ (0 <= accuracy <= INR (length testloader))%R).
Proof.
  split; intros O testloader w Hok Hall.
  - exact (validation_pass_good Classifier.init_ok Classifier_forward_ok testloader w Hok Hall).
  - exact (validation_pass_good Classifier_with_Drop_out.init_ok dropout_forward_ok
             testloader w Hok Hall).
Qed.

Lemma validation_totals_are_bounded_witness :
  (Classifier.init_ok (model w_plain) /\ Forall loader_batch [(image1, [0])] /\
   exists test_loss accuracy,
     fst (validation_pass [(image1, [0])] w_plain) = Ok (test_loss, accuracy) /\
     (0 <= test_loss)%R /\ (0 <= accuracy <= INR (length [(image1, [0])]))%R) /\
  (Classifier_with_Drop_out.init_ok (model w_cex) /\ Forall loader_batch [(image1, [0])] /\
   exists test_loss accuracy,
     fst (validation_pass [(image1, [0])] w_cex) = Ok (test_loss, accuracy) /\
     (0 <= test_loss)%R /\ (0 <= accuracy <= INR (length [(image1, [0])]))%R).
Proof.
  assert (Hall : Forall loader_batch [(image1, [0])])
    by (apply Forall_cons; [exact loader_batch_image1 | apply Forall_nil]).
  destruct validation_totals_are_bounded as [HC HD].
  split.
  - split; [exact classifier0_ok|]. split; [exact Hall|].
    exact (HC unit [(image1, [0])] w_plain classifier0_ok Hall).
  - split; [exact drop_cex_ok|]. split; [exact Hall|].
    exact (HD unit [(image1, [0])] w_cex drop_cex_ok Hall).
Defined.

(** ** Training cells that run to their end *)

Section TrainingRuns.

Context {Mdl O : Type} {Mod : Module Mdl} {AG : Autograd Mdl} {Opt : Optimizer Mdl O}.

Variable ok : Mdl -> Prop.

(** The optimizer keeps the model in the family [ok]: it writes numbers, not
    layer sizes. *)
Hypothesis update_ok : forall o m g, ok m -> ok (snd (update o m g)).

Lemma training_calls_good (images : Tensor) (labels : list nat) (n : nat)
      (running_loss : R) (w : World Mdl O) :
  (exists rows,
      fst (Module_forward (model w) (training w) images (rng w))
      = Ok (of_rows n 10 (map log_softmax_row rows)) /\
      length rows = n /\ Forall (fun r => length r = 10) rows) ->
  ok (model w) -> grad_enabled w = true ->
  length labels = n -> Forall (fun y => y < 10) labels ->
  exists l w',
    (optimizer_zero_grad ;;;
     output <- model_call images ;;
     loss <- criterion output labels ;;
     loss_backward loss ;;;
     optimizer_step ;;;
     emit EAccum ;;;
     ret (running_loss + item loss)%R) w = (Ok (running_loss + l)%R, w') /\
    (0 <= l)%R /\ ok (model w') /\ grad_enabled w' = true /\ training w' = training w.
Proof.
  intros (rows & Hf & Hlen & Hrows) Hok Hg Hl Hy.
  unfold bind at 1. rewrite zero_grad_effect.
  unfold bind at 1, model_call, emit.
  cbn [model training grad grad_enabled rng optimizer trace].
  destruct (Module_forward (model w) (training w) images (rng w)) as [r g'].
  cbn [fst] in Hf. subst r.
  unfold bind at 1, criterion, bind, emit, lift, ret. cbn [value].
  set (lrows := map log_softmax_row rows).
  destruct (NLLLoss_rows n lrows labels Hl Hy) as (l & HN). rewrite HN.
  unfold loss_backward, bind, emit.
  cbn [loss_grad_fn grad_fn option_map model training grad grad_enabled rng optimizer trace].
  rewrite Hg. cbn [option_map].
  unfold optimizer_step, bind, emit.
  cbn [model training grad grad_enabled rng optimizer trace].
  match goal with |- context [update ?o ?m ?g] =>
    pose proof (update_ok o m g Hok) as Hup; destruct (update o m g) as [o' m'] end.
  cbn [snd] in Hup. cbn [item].
  eexists. eexists. split; [reflexivity|].
  cbn [model training grad grad_enabled rng optimizer trace].
  split; [|split; [exact Hup | split; reflexivity]].
  apply (NLLLoss_nonneg 10 (of_rows n 10 lrows) labels l); [|exact HN].
  subst lrows. apply log_softmax_rows_distributions; [lia | assumption | assumption].
Qed.

Lemma training_loop_good (body : Batch -> R -> M (World Mdl O) R) :
  good_step ok body ->
  forall (batches : list Batch) (running_loss : R) (w : World Mdl O),
    ok (model w) -> grad_enabled w = true -> Forall loader_batch batches ->
    exists total w',
      for_each body batches running_loss w = (Ok total, w') /\
      (running_loss <= total)%R /\
      ok (model w') /\ grad_enabled w' = true /\ training w' = training w.
Proof.
  intros Hbody batches. induction batches as [|b batches IH]; intros rl w Hok Hg Hall.
  - exists rl, w. cbn. repeat split; try assumption. lra.
  - inversion Hall as [|? ? Hb Hrest]; subst.
    cbn [for_each]. unfold bind.
    destruct (Hbody b rl w Hok Hg Hb) as (l & w1 & -> & Hl & Hok1 & Hg1 & Ht1).
    destruct (IH (rl + l)%R w1 Hok1 Hg1 Hrest) as (total & w' & -> & Htot & Hok' & Hg' & Ht').
    exists total, w'. split; [reflexivity|]. split; [lra|].
    split; [assumption|]. split; [assumption|]. congruence.
Qed.

Hypothesis forward_ok :
  forall (self : Mdl) (tr : bool) (x : Tensor) (g : Rng) (n : nat) (rest : list nat),
    ok self -> shape x = n :: rest -> 0 < n -> numel_of rest = 784 ->
    exists rows,
      fst (Module_forward self tr x g) = Ok (of_rows n 10 (map log_softmax_row rows)) /\
      length rows = n /\ Forall (fun r => length r = 10) rows.

Lemma part5_step_good : good_step ok part5_step.
Proof.
  intros [images labels] rl w Hok Hg (n & rest & Hs & Hn & Hrest & Hl & Hy).
  cbn [fst snd] in *. unfold part5_step.
  apply (training_calls_good images labels n); try assumption.
  now apply (forward_ok _ _ _ _ n rest).
Qed.

Lemma mean_over_good (total : R) (loader : list Batch) :
  loader <> [] -> mean_over total loader = Ok (total / INR (length loader))%R.
Proof.
  intro H. unfold mean_over. destruct loader; [contradiction | reflexivity].
Qed.

Lemma part5_epoch_good (trainloader testloader : list Batch) (w : World Mdl O) :
  ok (model w) -> grad_enabled w = true ->
  trainloader <> [] -> Forall loader_batch trainloader ->
  testloader <> [] -> Forall loader_batch testloader ->
  exists line w',
    part5_epoch trainloader testloader w = (Ok line, w') /\ report_ok line /\
    ok (model w') /\ grad_enabled w' = true /\ training w' = training w.
Proof.
  intros Hok Hg Htr Htrain Hte Htest. unfold part5_epoch. unfold bind at 1.
  destruct (training_loop_good part5_step part5_step_good trainloader 0%R w Hok Hg Htrain)
    as (total & w1 & -> & Htot & Hok1 & Hg1 & Ht1).
  unfold bind at 1.
  destruct (validation_pass_effect testloader w1)
    as (r & w2 & evs & E & Hm & _ & _ & Ht2 & Hg2 & _).
  destruct (validation_pass_good ok forward_ok testloader w1 Hok1 Htest)
    as (tl & acc & Hv & Htl & Hacc).
  rewrite E in Hv |- *. cbn [fst] in Hv. subst r.
  unfold bind, lift, ret. rewrite !mean_over_good by assumption.
  eexists. exists w2. split; [reflexivity|].
  assert (Hpos : forall l : list Batch, l <> [] -> (0 < INR (length l))%R).
  { intros l Hl. apply lt_0_INR. destruct l; [contradiction | cbn; lia]. }
  pose proof (Hpos _ Htr) as Hp1. pose proof (Hpos _ Hte) as Hp2.
  split.
  - unfold report_ok. cbn [fst snd]. split; [|split; [|split]].
    + apply Rmult_le_pos; [lra | left; now apply Rinv_0_lt_compat].
    + apply Rmult_le_pos; [lra | left; now apply Rinv_0_lt_compat].
    + apply Rmult_le_pos; [lra | left; now apply Rinv_0_lt_compat].
    + apply (Rmult_le_reg_r (INR (length testloader))); [exact Hp2|].
      unfold Rdiv. rewrite Rmult_assoc, Rinv_l by lra. lra.
  - rewrite Hm. split; [assumption|]. split; congruence.
Qed.

Lemma epochs_good {A : Type} (epoch : nat -> M (World Mdl O) A) (line_ok : A -> Prop) :
  (forall e w, ok (model w) -> grad_enabled w = true ->
               exists line w', epoch e w = (Ok line, w') /\ line_ok line /\
                               ok (model w') /\ grad_enabled w' = true /\
                               training w' = training w) ->
  forall (es : list nat) (printed : list A) (w : World Mdl O),
    ok (model w) -> grad_enabled w = true ->
    exists lines w',
      for_each (fun e printed => line <- epoch e ;; ret (printed ++ [line])) es printed w
      = (Ok (printed ++ lines), w') /\
      length lines = length es /\ Forall line_ok lines /\
      ok (model w') /\ grad_enabled w' = true /\ training w' = training w.
Proof.
  intros Hepoch es. induction es as [|e es IH]; intros printed w Hok Hg.
  - exists [], w. cbn. rewrite app_nil_r. repeat split; try assumption. constructor.
  - cbn [for_each]. unfold bind at 1. unfold bind at 1.
    destruct (Hepoch e w Hok Hg) as (line & w1 & -> & Hline & Hok1 & Hg1 & Ht1).
    unfold ret at 1.
    destruct (IH (printed ++ [line]) w1 Hok1 Hg1)
      as (lines & w' & -> & Hlen & Hall & Hok' & Hg' & Ht').
    exists (line :: lines), w'. rewrite <- app_assoc. split; [reflexivity|].
    split; [cbn; lia|]. split; [now constructor|].
    split; [assumption|]. split; [assumption|]. congruence.
Qed.

Lemma part5_training_good (trainloader testloader : nat -> list Batch) (w : World Mdl O) :
  ok (model w) -> grad_enabled w = true ->
  (forall e, trainloader e <> [] /\ Forall loader_batch (trainloader e)) ->
  (forall e, testloader e <> [] /\ Forall loader_batch (testloader e)) ->
  exists lines w',
    part5_training trainloader testloader w = (Ok lines, w') /\
    length lines = 5 /\ Forall report_ok lines /\
    ok (model w') /\ grad_enabled w' = true /\ training w' = training w.
Proof.
  intros Hok Hg Htrain Htest. unfold part5_training.
  destruct (epochs_good (fun e => part5_epoch (trainloader e) (testloader e)) report_ok)
    with (es := seq 0 epochs) (printed := @nil (R * R * R)) (w := w)
    as (lines & w' & E & Hlen & Hall & H); try assumption.
  - intros e w0 Hok0 Hg0. destruct (Htrain e), (Htest e). now apply part5_epoch_good.
  - exists lines, w'. split; [exact E|]. split; [|split; assumption].
    now rewrite Hlen, length_seq.
Qed.

End TrainingRuns.

Lemma still_optimizer_ok (Mdl : Type) (ok : Mdl -> Prop) :
  forall (o : unit) (m : Mdl) (g : option (list R)),
    ok m -> ok (snd (@update Mdl unit (still_optimizer Mdl) o m g)).
Proof. intros o m g H. exact H. Qed.

Lemma one_image_loader_ok (e : nat) :
  one_image_loader e <> [] /\ Forall loader_batch (one_image_loader e).
Proof.
  split; [discriminate|].
  apply Forall_cons; [exact loader_batch_image1 | apply Forall_nil].
Qed.

(** X11. The two training cells of Part 5 run to their end when gradient
    tracking is on, the optimizer keeps the sizes of the layers, and every
    epoch finds a non-empty training and test loader of well-formed
    batches: they print five lines, each with a training loss and a test
    loss that are not negative and a test accuracy between 0 and 1. *)
Theorem part5_training_prints_five_reports :
  (forall (O : Type) (AG : Autograd Classifier.t) (Opt : Optimizer Classifier.t O)
          (trainloader testloader : nat -> list Batch) (w : World Classifier.t O),
      Classifier.init_ok (model w) -> grad_enabled w = true ->
      (forall o m g, Classifier.init_ok m -> Classifier.init_ok (snd (update o m g))) ->
      (forall e, trainloader e <> [] /\ Forall loader_batch (trainloader e)) ->
      (forall e, testloader e <> [] /\ Forall loader_batch (testloader e)) ->
      exists lines,
        fst (part5_training trainloader testloader w) = Ok lines /\
        length lines = 5 /\ Forall report_ok lines) /\
  (forall (O : Type) (AG : Autograd Classifier_with_Drop_out.t)
          (Opt : Optimizer Classifier_with_Drop_out.t O)
          (trainloader testloader : nat -> list Batch)
          (w : World Classifier_with_Drop_out.t O),
      Classifier_with_Drop_out.init_ok (model w) -> grad_enabled w = true ->
      (forall o m g, Classifier_with_Drop_out.init_ok m ->
                     Classifier_with_Drop_out.init_ok (snd (update o m g))) ->
      (forall e, trainloader e <> [] /\ Forall loader_batch (trainloader e)) ->
      (forall e, testloader e <> [] /\ Forall loader_batch (testloader e)) ->
      exists lines,
        fst (part5_training trainloader testloader w) = Ok lines /\
        length lines = 5 /\ Forall report_ok lines).
Proof.
  split; intros O AG Opt trainloader testloader w Hok Hg Hup Htrain Htest.
  - destruct (part5_training_good Classifier.init_ok Hup Classifier_forward_ok
                trainloader testloader w Hok Hg Htrain Htest)
      as (lines & w' & E & Hlen & Hall & _).
    exists lines. rewrite E. repeat split; assumption.
  - destruct (part5_training_good Classifier_with_Drop_out.init_ok Hup dropout_forward_ok
                trainloader testloader w Hok Hg Htrain Htest)
      as (lines & w' & E & Hlen & Hall & _).
    exists lines. rewrite E. repeat split; assumption.
Qed.

Lemma part5_training_prints_five_reports_witness :
  (Classifier.init_ok (model w_plain) /\ grad_enabled w_plain = true /\
   (forall o m g, Classifier.init_ok m ->
                  Classifier.init_ok (snd (@update _ _ (still_optimizer Classifier.t) o m g))) /\
   (forall e, one_image_loader e <> [] /\ Forall loader_batch (one_image_loader e)) /\
   exists lines,
     fst (@part5_training Classifier.t unit Classifier_Module
            (constant_autograd Classifier.t []) (still_optimizer Classifier.t)
            one_image_loader one_image_loader w_plain) = Ok lines /\
     length lines = 5 /\ Forall report_ok lines) /\
  (Classifier_with_Drop_out.init_ok (model w_cex) /\ grad_enabled w_cex = true /\
   (forall o m g, Classifier_with_Drop_out.init_ok m ->
                  Classifier_with_Drop_out.init_ok
                    (snd (@update _ _ (still_optimizer Classifier_with_Drop_out.t) o m g))) /\
   (forall e, one_image_loader e <> [] /\ Forall loader_batch (one_image_loader e)) /\
   exists lines,
     fst (@part5_training Classifier_with_Drop_out.t unit Classifier_with_Drop_out_Module
            (constant_autograd Classifier_with_Drop_out.t [])
            (still_optimizer Classifier_with_Drop_out.t)
            one_image_loader one_image_loader w_cex) = Ok lines /\
     length lines = 5 /\ Forall report_ok lines).
Proof.
  destruct part5_training_prints_five_reports as [HC HD].
  split.
  - split; [exact classifier0_ok|]. split; [reflexivity|].
    split; [exact (still_optimizer_ok Classifier.t Classifier.init_ok)|].
    split; [exact one_image_loader_ok|].
    exact (HC unit (constant_autograd Classifier.t []) (still_optimizer Classifier.t)
              one_image_loader one_image_loader w_plain classifier0_ok eq_refl
              (still_optimizer_ok Classifier.t Classifier.init_ok)
              one_image_loader_ok one_image_loader_ok).
  - split; [exact drop_cex_ok|]. split; [reflexivity|].
    split; [exact (still_optimizer_ok Classifier_with_Drop_out.t
                     Classifier_with_Drop_out.init_ok)|].
    split; [exact one_image_loader_ok|].
    exact (HD unit (constant_autograd Classifier_with_Drop_out.t [])
              (still_optimizer Classifier_with_Drop_out.t)
              one_image_loader one_image_loader w_cex drop_cex_ok eq_refl
              (still_optimizer_ok Classifier_with_Drop_out.t Classifier_with_Drop_out.init_ok)
              one_image_loader_ok one_image_loader_ok).
Defined.

(** ** The training cell of Part 3 *)

Lemma Part3_forward_ok (self : list Layer) (tr : bool) (x : Tensor) (g : Rng) (n : nat) :
  Part3_model_ok self -> shape x = [n; 784] ->
  exists rows,
    fst (Module_forward self tr x g) = Ok (of_rows n 10 (map log_softmax_row rows)) /\
    length rows = n /\ Forall (fun r => length r = 10) rows.
Proof.
  intros (l1 & l2 & l3 & -> & Hok) Hs. cbn [Module_forward Sequential_Module lift fst].
  rewrite (Part3_forward_rows l1 l2 l3 x n Hok Hs). unfold Part3_row.
  exists (map (fun v => affine l3 (map relu_scalar (affine l2 (map relu_scalar (affine l1 v)))))
              (chunks 784 n (data x))).
  split; [now rewrite map_map|]. split; [now rewrite length_map, chunks_length|].
  apply Forall_forall. intros r Hr. apply in_map_iff in Hr as (z & <- & _).
  destruct Hok as (_ & _ & (H3 & _ & O3)). rewrite <- O3. now apply affine_length.
Qed.

Section Part3Runs.

Context {O : Type} {AG : Autograd (list Layer)} {Opt : Optimizer (list Layer) O}.

Hypothesis update_ok :
  forall o m g, Part3_model_ok m -> Part3_model_ok (snd (update o m g)).

Lemma part3_step_good : good_step Part3_model_ok part3_step.
Proof.
  intros [images labels] rl w Hok Hg (n & rest & Hs & Hn & Hrest & Hl & Hy).
  cbn [fst snd] in *. unfold part3_step, shape0. rewrite Hs.
  rewrite bind_lift_Ok. rewrite (view_infer_ok images n rest Hs Hn), Hrest.
  rewrite bind_lift_Ok.
  apply (training_calls_good Part3_model_ok update_ok _ labels n); try assumption.
  now apply Part3_forward_ok.
Qed.

Lemma part3_epoch_good (trainloader : list Batch) (w : World (list Layer) O) :
  Part3_model_ok (model w) -> grad_enabled w = true ->
  trainloader <> [] -> Forall loader_batch trainloader ->
  exists line w',
    part3_epoch trainloader w = (Ok line, w') /\ (0 <= line)%R /\
    Part3_model_ok (model w') /\ grad_enabled w' = true /\ training w' = training w.
Proof.
  intros Hok Hg Htr Htrain. unfold part3_epoch. unfold bind.
  destruct (training_loop_good Part3_model_ok part3_step part3_step_good
              trainloader 0%R w Hok Hg Htrain)
    as (total & w1 & -> & Htot & Hok1 & Hg1 & Ht1).
  unfold lift. rewrite mean_over_good by assumption.
  eexists. exists w1. split; [reflexivity|].
  split; [|split; [assumption | split; assumption]].
  assert (Hp : (0 < INR (length trainloader))%R).
  { apply lt_0_INR. destruct trainloader; [contradiction | cbn; lia]. }
  apply Rmult_le_pos; [lra | left; now apply Rinv_0_lt_compat].
Qed.

Lemma part3_training_good (trainloader : nat -> list Batch) (w : World (list Layer) O) :
  Part3_model_ok (model w) -> grad_enabled w = true ->
  (forall e, trainloader e <> [] /\ Forall loader_batch (trainloader e)) ->
  exists lines w',
    part3_training trainloader w = (Ok lines, w') /\
    length lines = 5 /\ Forall (fun line => (0 <= line)%R) lines.
Proof.
  intros Hok Hg Htrain. unfold part3_training.
  destruct (epochs_good Part3_model_ok (fun e => part3_epoch (trainloader e))
                        (fun line => (0 <= line)%R))
    with (es := seq 0 epochs) (printed := @nil R) (w := w)
    as (lines & w' & E & Hlen & Hall & H); try assumption.
  - intros e w0 Hok0 Hg0. destruct (Htrain e). now apply part3_epoch_good.
  - exists lines, w'. split; [exact E|]. split; [|assumption].
    now rewrite Hlen, length_seq.
Qed.

End Part3Runs.

Lemma w_part3_ok : Part3_model_ok (model w_part3).
Proof. exists (zero_linear 784 128), (zero_linear 128 64), (zero_linear 64 10).
       split; [reflexivity | exact part3_zero_ok]. Qed.

(** X12. The training cell of Part 3, which flattens every batch with
    [images.view(images.shape[0], -1)], runs to its end under the same
    conditions as the cells of Part 5 and prints five training losses, none
    of them negative. *)
Theorem part3_training_prints_five_losses
    (O : Type) (AG : Autograd (list Layer)) (Opt : Optimizer (list Layer) O)
    (trainloader : nat -> list Batch) (w : World (list Layer) O) :
  Part3_model_ok (model w) -> grad_enabled w = true ->
  (forall o m g, Part3_model_ok m -> Part3_model_ok (snd (update o m g))) ->
  (forall e, trainloader e <> [] /\ Forall loader_batch (trainloader e)) ->
  exists lines,
    fst (part3_training trainloader w) = Ok lines /\
    length lines = 5 /\ Forall (fun line => (0 <= line)%R) lines.
Proof.
  intros Hok Hg Hup Htrain.
  destruct (part3_training_good Hup trainloader w Hok Hg Htrain)
    as (lines & w' & E & Hlen & Hall).
  exists lines. rewrite E. repeat split; assumption.
Qed.

Lemma part3_training_prints_five_losses_witness :
  Part3_model_ok (model w_part3) /\ grad_enabled w_part3 = true /\
  (forall o m g, Part3_model_ok m ->
                 Part3_model_ok (snd (@update _ _ (still_optimizer (list Layer)) o m g))) /\
  (forall e, one_image_loader e <> [] /\ Forall loader_batch (one_image_loader e)) /\
  exists lines,
    fst (@part3_training (list Layer) unit Sequential_Module
           (constant_autograd (list Layer) []) (still_optimizer (list Layer))
           one_image_loader w_part3) = Ok lines /\
    length lines = 5 /\ Forall (fun line => (0 <= line)%R) lines.
Proof.
  split; [exact w_part3_ok|]. split; [reflexivity|].
  split; [exact (still_optimizer_ok (list Layer) Part3_model_ok)|].
  split; [exact one_image_loader_ok|].
  exact (part3_training_prints_five_losses unit (constant_autograd (list Layer) [])
           (still_optimizer (list Layer)) one_image_loader w_part3 w_part3_ok eq_refl
           (still_optimizer_ok (list Layer) Part3_model_ok) one_image_loader_ok).
Defined.

(** ** Epochs over an empty loader, and the modes around a training cell *)

Section Epochs.

Context {Mdl O : Type} {Mod : Module Mdl} {AG : Autograd Mdl} {Opt : Optimizer Mdl O}.

Lemma validation_pass_nil (w : World Mdl O) :
  fst (validation_pass [] w) = Ok (0%R, 0%R).
Proof. reflexivity. Qed.

(** X13. An epoch over an empty loader ends in [ZeroDivisionError] when
    it comes to print its averages: at once in Part 3, after the validation
    pass in Part 5 when the training loader is empty, after the training
    steps when the test loader is empty.  An error raised before that point
    is the one that surfaces. *)
Theorem epoch_over_an_empty_loader_raises :
  (forall w : World Mdl O, fst (part3_epoch [] w) = Raise ZeroDivisionError) /\
  (forall (testloader : list Batch) (w : World Mdl O),
      fst (part5_epoch [] testloader w)
      = match fst (validation_pass testloader w) with
        | Ok _ => Raise ZeroDivisionError
        | Raise e => Raise e
        end) /\
  (forall (trainloader : list Batch) (w : World Mdl O),
      fst (part5_epoch trainloader [] w)
      = match fst (for_each part5_step trainloader 0%R w) with
        | Ok _ => Raise ZeroDivisionError
        | Raise e => Raise e
        end).
Proof.
  split; [reflexivity|]. split.
  - intros testloader w. unfold part5_epoch. cbn [for_each]. unfold bind at 1, ret at 1.
    unfold bind at 1.
    destruct (validation_pass testloader w) as [[va|e] w1]; reflexivity.
  - intros trainloader w. unfold part5_epoch. unfold bind at 1.
    destruct (for_each part5_step trainloader 0%R w) as [[running_loss|e] w1];
      [|reflexivity].
    cbn [fst]. unfold bind, validation_pass, no_grad, lift. cbn [for_each ret].
    unfold mean_over. destruct trainloader; reflexivity.
Qed.

Lemma keeps_modes_bind {A B : Type} (m : M (World Mdl O) A) (f : A -> M (World Mdl O) B) :
  keeps_modes m -> (forall a, keeps_modes (f a)) -> keeps_modes (bind m f).
Proof.
  intros Hm Hf w. unfold bind. specialize (Hm w).
  destruct (m w) as [[a|e] w1]; cbn [snd] in *.
  - destruct (Hf a w1) as [H1 H2]. destruct Hm as [H3 H4]. split; congruence.
  - exact Hm.
Qed.

Lemma keeps_modes_lift {A : Type} (r : result A) : keeps_modes (lift (S := World Mdl O) r).
Proof. intro w. split; reflexivity. Qed.

Lemma keeps_modes_ret {A : Type} (a : A) : keeps_modes (ret (S := World Mdl O) a).
Proof. intro w. split; reflexivity. Qed.

Lemma keeps_modes_for_each {A B : Type} (body : B -> A -> M (World Mdl O) A) :
  (forall b a, keeps_modes (body b a)) ->
  forall l a, keeps_modes (for_each body l a).
Proof.
  intros Hbody l. induction l as [|b l IH]; intro a.
  - apply keeps_modes_ret.
  - cbn [for_each]. apply keeps_modes_bind; [apply Hbody | exact IH].
Qed.

Lemma keeps_modes_part5_step (b : Batch) (a : R) : keeps_modes (part5_step b a).
Proof.
  intro w. destruct (part5_step_effect b a w) as (r & w' & -> & Ht & Hg & _).
  now split.
Qed.

Lemma keeps_modes_part3_step (b : Batch) (a : R) : keeps_modes (part3_step b a).
Proof.
  intro w. destruct (part3_step_effect b a w) as (r & w' & -> & Ht & Hg & _).
  now split.
Qed.

Lemma keeps_modes_validation_pass (testloader : list Batch) :
  keeps_modes (validation_pass testloader : M (World Mdl O) (R * R)).
Proof.
  intro w. destruct (validation_pass_effect testloader w)
    as (r & w' & evs & -> & _ & _ & _ & Ht & Hg & _).
  now split.
Qed.

Lemma keeps_modes_part5_epoch (trainloader testloader : list Batch) :
  keeps_modes (part5_epoch trainloader testloader).
Proof.
  unfold part5_epoch.
  apply keeps_modes_bind; [apply keeps_modes_for_each, keeps_modes_part5_step|].
  intro running_loss.
  apply keeps_modes_bind; [apply keeps_modes_validation_pass|]. intro va.
  apply keeps_modes_bind; [apply keeps_modes_lift|]. intro train_loss.
  apply keeps_modes_bind; [apply keeps_modes_lift|]. intro test_loss.
  apply keeps_modes_bind; [apply keeps_modes_lift|]. intro test_acc.
  apply keeps_modes_ret.
Qed.

Lemma keeps_modes_part3_epoch (trainloader : list Batch) :
  keeps_modes (part3_epoch trainloader).
Proof.
  unfold part3_epoch.
  apply keeps_modes_bind; [apply keeps_modes_for_each, keeps_modes_part3_step|].
  intro running_loss. apply keeps_modes_lift.
Qed.

(** X14. The training cells of Part 3 and Part 5 contain no
    [model.eval()], no [model.train()] and no unbalanced change of the
    gradient mode: whether they return or raise, and at whatever step, the
    module's [training] flag and the gradient mode are afterwards what they
    were before. *)
Theorem training_cells_keep_both_modes :
  (forall (trainloader testloader : nat -> list Batch) (w : World Mdl O),
      training (snd (part5_training trainloader testloader w)) = training w /\
      grad_enabled (snd (part5_training trainloader testloader w)) = grad_enabled w) /\
  (forall (trainloader : nat -> list Batch) (w : World Mdl O),
      training (snd (part3_training trainloader w)) = training w /\
      grad_enabled (snd (part3_training trainloader w)) = grad_enabled w).
Proof.
  split.
  - intros trainloader testloader. unfold part5_training.
    apply keeps_modes_for_each. intros e printed.
    apply keeps_modes_bind; [apply keeps_modes_part5_epoch|].
    intro line. apply keeps_modes_ret.
  - intros trainloader. unfold part3_training.
    apply keeps_modes_for_each. intros e printed.
    apply keeps_modes_bind; [apply keeps_modes_part3_epoch|].
    intro line. apply keeps_modes_ret.
Qed.

End Epochs.

(** ** The inference cell *)




(** ** A training step on labels the loss refuses *)

Lemma forallb_false_not_Forall (labels : list nat) (c : nat) :
  ~ Forall (fun y => y < c) labels -> forallb (fun y => y <? c) labels = false.
Proof.
  intro H. apply not_true_is_false. intro Hb. apply H.
  apply Forall_forall. intros y Hy. apply Nat.ltb_lt.
  rewrite forallb_forall in Hb. now apply Hb.
Qed.

(** X16. In a training step of Part 5 the loss is where bad labels are found out:
    with a wrong number of labels it raises [ValueError], with a class
    index of 10 or more [IndexError].  By then the gradients have
    been zeroed and the forward and loss calls made; no backward pass and
    no optimizer step follow, and the parameters are those before the
    step. *)
Theorem part5_step_stops_at_the_loss_on_bad_labels
    (O : Type) (AG : Autograd Classifier.t) (Opt : Optimizer Classifier.t O)
    (images : Tensor) (labels : list nat) (n : nat) (rest : list nat)
    (running_loss : R) (w : World Classifier.t O) :
  Classifier.init_ok (model w) ->
  shape images = n :: rest -> 0 < n -> numel_of rest = 784 ->
  (length labels <> n ->
   part5_step (images, labels) running_loss w
   = (Raise ValueError,
      mkWorld (model w) (training w) (option_map (map (fun _ => 0%R)) (grad w))
        (grad_enabled w) (rng w) (optimizer w)
        (trace w ++ [EZeroGrad; EForward (training w) (grad_enabled w); ELoss]))) /\
  (length labels = n -> ~ Forall (fun y => y < 10) labels ->
   part5_step (images, labels) running_loss w
   = (Raise IndexError,
      mkWorld (model w) (training w) (option_map (map (fun _ => 0%R)) (grad w))
        (grad_enabled w) (rng w) (optimizer w)
        (trace w ++ [EZeroGrad; EForward (training w) (grad_enabled w); ELoss]))).
Proof.
  intros Hok Hs Hn Hrest.
  split; [intro Hl | intros Hl Hbad];
    (unfold part5_step; unfold bind at 1; rewrite zero_grad_effect;
     unfold bind at 1, model_call, emit;
     cbn [Module_forward Classifier_Module lift model training grad grad_enabled rng
          optimizer trace];
     rewrite (Classifier_forward_rows (model w) images n rest Hok Hs Hn Hrest);
     unfold bind at 1, criterion, bind at 1, emit, lift; unfold bind at 1; cbn [value];
     cbn [model training grad grad_enabled rng optimizer trace];
     unfold NLLLoss, of_rows; cbn [shape data]; rewrite <- !app_assoc; cbn [app]).
  - destruct (Nat.eqb_spec n (length labels)) as [E|_]; [congruence|].
    reflexivity.
  - rewrite Hl, Nat.eqb_refl.
    now rewrite (forallb_false_not_Forall labels 10 Hbad).
Qed.

Lemma part5_step_stops_at_the_loss_on_bad_labels_witness :
  Classifier.init_ok (model w_plain) /\
  shape image1 = 1 :: [1; 28; 28] /\ 0 < 1 /\ numel_of [1; 28; 28] = 784 /\
  (length [0; 1] <> 1 /\
   @part5_step Classifier.t unit Classifier_Module (constant_autograd Classifier.t [])
     (still_optimizer Classifier.t) (image1, [0; 1]) 0%R w_plain
   = (Raise ValueError,
      mkWorld (model w_plain) (training w_plain)
        (option_map (map (fun _ => 0%R)) (grad w_plain))
        (grad_enabled w_plain) (rng w_plain) (optimizer w_plain)
        (trace w_plain
         ++ [EZeroGrad; EForward (training w_plain) (grad_enabled w_plain); ELoss]))) /\
  (length [10] = 1 /\ ~ Forall (fun y => y < 10) [10] /\
   @part5_step Classifier.t unit Classifier_Module (constant_autograd Classifier.t [])
     (still_optimizer Classifier.t) (image1, [10]) 0%R w_plain
   = (Raise IndexError,
      mkWorld (model w_plain) (training w_plain)
        (option_map (map (fun _ => 0%R)) (grad w_plain))
        (grad_enabled w_plain) (rng w_plain) (optimizer w_plain)
        (trace w_plain
         ++ [EZeroGrad; EForward (training w_plain) (grad_enabled w_plain); ELoss]))).
Proof.
  assert (H2 : length [0; 1] <> 1) by (cbn; lia).
  assert (H10 : ~ Forall (fun y => y < 10) [10]).
  { intro H. inversion H as [|? ? Hlt _]. lia. }
  split; [exact classifier0_ok|]. split; [reflexivity|]. split; [lia|].
  split; [reflexivity|]. split.
  - split; [exact H2|].
    exact (proj1 (part5_step_stops_at_the_loss_on_bad_labels unit
                    (constant_autograd Classifier.t []) (still_optimizer Classifier.t)
                    image1 [0; 1] 1 [1; 28; 28] 0%R w_plain
                    classifier0_ok eq_refl (Nat.lt_0_succ 0) eq_refl) H2).
  - split; [reflexivity|]. split; [exact H10|].
    exact (proj2 (part5_step_stops_at_the_loss_on_bad_labels unit
                    (constant_autograd Classifier.t []) (still_optimizer Classifier.t)
                    image1 [10] 1 [1; 28; 28] 0%R w_plain
                    classifier0_ok eq_refl (Nat.lt_0_succ 0) eq_refl) eq_refl H10).
Defined.

(** ** The single training step of Part 3 *)

(** X17. The cells that take one training step resize the images to 64 rows in
    place, so any batch of images will do; what has to be 64 is the number of
    labels.  With 64 labels below 10 the step makes its five calls and
    returns; with another number of labels the loss raises [ValueError]. *)
Theorem part3_single_step_runs_on_64_labels
    (O : Type) (AG : Autograd (list Layer)) (Opt : Optimizer (list Layer) O)
    (junk : nat -> R) (images : Tensor) (labels : list nat)
    (w : World (list Layer) O) :
  Part3_model_ok (model w) -> grad_enabled w = true ->
  (length labels = 64 -> Forall (fun y => y < 10) labels ->
   fst (part3_single_step junk (images, labels) w) = Ok tt /\
   trace (snd (part3_single_step junk (images, labels) w))
   = trace w ++ [EZeroGrad; EForward (training w) true; ELoss; EBackward; EStep]) /\
  (length labels <> 64 ->
   fst (part3_single_step junk (images, labels) w) = Raise ValueError).
Proof.
  intros (l1 & l2 & l3 & Hm & Hok) Hg. split.
  - intros Hl Hy.
    assert (H : exists w',
               part3_single_step junk (images, labels) w = (Ok tt, w') /\
               trace w' = trace w ++ [EZeroGrad; EForward (training w) true; ELoss;
                                      EBackward; EStep]).
    { unfold part3_single_step.
      unfold bind at 1. rewrite zero_grad_effect.
      set (w1 := mkWorld _ _ _ _ _ _ _).
      unfold bind at 1, model_call, emit.
      cbn [Module_forward Sequential_Module lift].
      replace (model w1) with (Part3.model l1 l2 l3) by (subst w1; now rewrite <- Hm).
      rewrite (Part3_forward_rows l1 l2 l3 _ 64 Hok) by reflexivity.
      unfold bind at 1, criterion, bind, emit, lift, ret. cbn [value].
      destruct (NLLLoss_rows 64 (map (Part3_row l1 l2 l3)
                                     (chunks 784 64 (data (resize_ junk images [64; 784]))))
                  labels Hl Hy) as (l & ->).
      unfold loss_backward, optimizer_step, bind, emit. subst w1.
      cbn [loss_grad_fn grad_fn option_map model training grad grad_enabled rng optimizer
           trace].
      rewrite Hg. cbn [option_map].
      destruct (update _ _ _) as [o m].
      eexists. split; [reflexivity|]. cbn [trace]. now rewrite <- !app_assoc. }
    destruct H as (w' & -> & Ht). split; [reflexivity | exact Ht].
  - intro Hl.
    now apply (part3_single_step_needs_64_labels junk images labels w l1 l2 l3).
Qed.

Lemma labels64_ok : length labels64 = 64 /\ Forall (fun y => y < 10) labels64.
Proof.
  split; [apply repeat_length|].
  apply Forall_forall. intros y Hy. apply repeat_spec in Hy. subst y. lia.
Qed.

Lemma part3_single_step_runs_on_64_labels_witness :
  Part3_model_ok (model w_part3) /\ grad_enabled w_part3 = true /\
  (length labels64 = 64 /\ Forall (fun y => y < 10) labels64 /\
   fst (@part3_single_step (list Layer) unit Sequential_Module
          (constant_autograd (list Layer) []) (still_optimizer (list Layer))
          junk0 (image1, labels64) w_part3) = Ok tt /\
   trace (snd (@part3_single_step (list Layer) unit Sequential_Module
                 (constant_autograd (list Layer) []) (still_optimizer (list Layer))
                 junk0 (image1, labels64) w_part3))
   = trace w_part3 ++ [EZeroGrad; EForward (training w_part3) true; ELoss; EBackward; EStep]) /\
  (length [0] <> 64 /\
   fst (@part3_single_step (list Layer) unit Sequential_Module
          (constant_autograd (list Layer) []) (still_optimizer (list Layer))
          junk0 (image1, [0]) w_part3) = Raise ValueError).
Proof.
  assert (H1 : length [0] <> 64) by (cbn; lia).
  split; [exact w_part3_ok|]. split; [reflexivity|]. split.
  - split; [exact (proj1 labels64_ok)|]. split; [exact (proj2 labels64_ok)|].
    exact (proj1 (part3_single_step_runs_on_64_labels unit
                    (constant_autograd (list Layer) []) (still_optimizer (list Layer))
                    junk0 image1 labels64 w_part3 w_part3_ok eq_refl)
                 (proj1 labels64_ok) (proj2 labels64_ok)).
  - split; [exact H1|].
    exact (proj2 (part3_single_step_runs_on_64_labels unit
                    (constant_autograd (list Layer) []) (still_optimizer (list Layer))
                    junk0 image1 [0] w_part3 w_part3_ok eq_refl) H1).
Defined.

(** ** The autograd cells: the gradient of the mean of squares *)

Section Autograd.

Local Open Scope R_scope.

Lemma sum_list_app (a b : list R) : sum_list (a ++ b) = sum_list a + sum_list b.
Proof.
  induction a as [|x a IH]; cbn [app sum_list fold_right].
  - fold (sum_list b). lra.
  - fold (sum_list (a ++ b)). fold (sum_list a). rewrite IH. lra.
Qed.

Lemma with_entry_length (i : nat) (v : R) (x : Tensor) :
  (i < length (data x))%nat -> length (data (with_entry i v x)) = length (data x).
Proof.
  intro Hi. unfold with_entry. cbn [data].
  rewrite length_app, length_firstn. cbn [length]. rewrite length_skipn. lia.
Qed.

(** The mean of the squares as a function of one entry. *)
Lemma mean_square_with_entry (i : nat) (v : R) (x : Tensor) :
  (i < length (data x))%nat ->
  mean (square (with_entry i v x))
  = (v ^ 2 + (sum_list (map (fun u => u ^ 2) (firstn i (data x)))
              + sum_list (map (fun u => u ^ 2) (skipn (S i) (data x)))))
    / INR (length (data x)).
Proof.
  intro Hi. unfold mean, square, tmap. cbn [data]. rewrite length_map.
  rewrite (with_entry_length i v x Hi). f_equal.
  unfold with_entry. cbn [data]. rewrite map_app, sum_list_app.
  cbn [map sum_list fold_right].
  fold (sum_list (map (fun u => u ^ 2) (skipn (S i) (data x)))). lra.
Qed.

Lemma derivable_pt_lim_mean_square (a K n : R) :
  1 <= n ->
  derivable_pt_lim (fun v => (v ^ 2 + K) / n) a (2 * a / n).
Proof.
  intros Hn eps Heps. exists (mkposreal eps Heps). intros h Hh Hlt. cbn [RIneq.pos] in Hlt.
  replace (((a + h) ^ 2 + K) / n - (a ^ 2 + K) / n) with (h * (2 * a + h) / n)
    by (field; lra).
  replace (h * (2 * a + h) / n / h - 2 * a / n) with (h * / n) by (field; split; lra).
  rewrite Rabs_mult.
  assert (Hinv : 0 < / n <= 1).
  { split; [apply Rinv_0_lt_compat; lra|].
    rewrite <- Rinv_1. apply Rinv_le_contravar; lra. }
  rewrite (Rabs_pos_eq (/ n)) by lra.
  pose proof (Rabs_pos h) as Hp.
  apply Rle_lt_trans with (Rabs h * 1); [|lra].
  apply Rmult_le_compat_l; lra.
Qed.

Lemma map_nth_lt (f : R -> R) (l : list R) (i : nat) :
  (i < length l)%nat -> nth i (map f l) 0 = f (nth i l 0).
Proof.
  intro Hi. rewrite (nth_indep (map f l) 0 (f 0)) by (now rewrite length_map).
  apply map_nth.
Qed.

End Autograd.

(** X18. For [y = x**2] and [z = y.mean()], the partial derivative of [z] with
    respect to entry [i] of [x] is [2 * x[i] / n], where [n] is the number
    of entries.  For the [2 x 2] tensor of the notebook this is the
    entry [i] of [x / 2], the tensor the cell prints next to [x.grad]. *)
Theorem gradient_of_mean_of_squares (x : Tensor) (i : nat) :
  i < length (data x) ->
  derivable_pt_lim (fun v => mean (square (with_entry i v x)))
                   (nth i (data x) 0%R)
                   (2 * nth i (data x) 0 / INR (length (data x)))%R /\
  with_entry i (nth i (data x) 0%R) x = x /\
  (shape x = [2; 2] -> wf_tensor x ->
   derivable_pt_lim (fun v => mean (square (with_entry i v x)))
                    (nth i (data x) 0%R)
                    (nth i (data (tmap (fun v => v / 2)%R x)) 0%R)).
Proof.
  intro Hi.
  assert (Hn : (1 <= INR (length (data x)))%R).
  { change 1%R with (INR 1). apply le_INR. lia. }
  assert (Hd : derivable_pt_lim (fun v => mean (square (with_entry i v x)))
                 (nth i (data x) 0%R)
                 (2 * nth i (data x) 0 / INR (length (data x)))%R).
  { intros eps Heps.
    destruct (derivable_pt_lim_mean_square (nth i (data x) 0%R)
                (sum_list (map (fun u => u ^ 2) (firstn i (data x)))
                 + sum_list (map (fun u => u ^ 2) (skipn (S i) (data x))))%R
                (INR (length (data x))) Hn eps Heps) as (delta & Hdelta).
    exists delta. intros h Hh Hlt.
    rewrite !(mean_square_with_entry i _ x Hi). now apply Hdelta. }
  split; [exact Hd|]. split.
  - unfold with_entry. destruct x as [s d]. cbn [shape data] in *. f_equal.
    clear Hn Hd. revert i Hi. induction d as [|a d IH]; intros i Hi; [cbn in Hi; lia|].
    destruct i as [|i]; [reflexivity|].
    cbn [nth firstn skipn app]. f_equal. apply IH. cbn in Hi. lia.
  - intros Hs Hwf. unfold wf_tensor, numel in Hwf. rewrite Hs in Hwf.
    cbn [numel_of fold_right Nat.mul Nat.add] in Hwf.
    unfold tmap. cbn [data].
    rewrite (map_nth_lt (fun v => (v / 2)%R) (data x) i Hi).
    replace (nth i (data x) 0 / 2)%R with (2 * nth i (data x) 0 / INR (length (data x)))%R;
      [exact Hd|].
    rewrite Hwf. change (INR 4) with (1 + 1 + 1 + 1)%R. field.
Qed.

Lemma gradient_of_mean_of_squares_witness :
  1 < length (data x22) /\ shape x22 = [2; 2] /\ wf_tensor x22 /\
  derivable_pt_lim (fun v => mean (square (with_entry 1 v x22)))
                   (nth 1 (data x22) 0%R)
                   (2 * nth 1 (data x22) 0 / INR (length (data x22)))%R /\
  with_entry 1 (nth 1 (data x22) 0%R) x22 = x22 /\
  derivable_pt_lim (fun v => mean (square (with_entry 1 v x22)))
                   (nth 1 (data x22) 0%R)
                   (nth 1 (data (tmap (fun v => v / 2)%R x22)) 0%R).
Proof.
  assert (H1 : 1 < length (data x22)) by (cbn; lia).
  assert (Hwf : wf_tensor x22) by reflexivity.
  destruct (gradient_of_mean_of_squares x22 1 H1) as (Hd & He & H22).
  split; [exact H1|]. split; [reflexivity|]. split; [exact Hwf|].
  split; [exact Hd|]. split; [exact He|]. exact (H22 eq_refl Hwf).
Defined.

(** ** The prediction for one image of a batch *)




